(** * EasyRAG vector-collection store: a shallow embedding of
    [core/faiss_connect.py] (class [FaissManager]) and the properties
    of its insert / search / delete / replace / diagnose / repair
    operations.

    Conventions of the embedding.
    - Python [int] is [Z]; a float32 component is idealised as a
      rational [Q]; [exp] is the real exponential of [Reals].
    - A Python dict is an association list in insertion order (the
      order of [dict.items()] is observable in [delete_vectors]).
    - The manager is projected on one collection name: the four
      dictionaries [self.indexes], [self.metadata], [self.file_registry],
      [self.file_change_history] become four optional values, the four
      per-collection files four optional contents.
    - Mutation is state passing in a state-and-exception monad whose
      state survives a raised exception, as Python object mutation does.
    - Files that exist hold well-formed content (the pickle fallback of
      the loaders is outside the model); a write either succeeds or
      raises [OSError] leaving the file system unchanged. *)

From Stdlib Require Import List String Ascii ZArith QArith Bool Lia.
From Stdlib Require Import DecimalString Reals Lra Qreals.
From Stdlib Require Import DecimalZ DecimalPos Sorted.
Import ListNotations.
Open Scope string_scope.
Open Scope list_scope.
Open Scope Z_scope.

Set Implicit Arguments.

(* ================================================================== *)
(** ** Python exceptions and generic dictionary helpers *)

Inductive exn : Type :=
| AttributeError | TypeError | KeyError | ValueError | AssertionError | OSError.

Inductive outcome (A : Type) : Type :=
| Ret (a : A)
| Raise (e : exn).
Arguments Ret {A} a.
Arguments Raise {A} e.

(** [str(i)] for a Python int. *)
Definition str (z : Z) : string := NilZero.string_of_int (Z.to_int z).

(** [len(l)] as a Python int. *)
Definition len {A} (l : list A) : Z := Z.of_nat (List.length l).

Section Dict.
Variables K V : Type.
Variable keq : K -> K -> bool.

Fixpoint dict_get (m : list (K * V)) (k : K) : option V :=
  match m with
  | [] => None
  | (k', v) :: t => if keq k k' then Some v else dict_get t k
  end.

(** [m[k] = v]: an existing key keeps its position. *)
Fixpoint dict_set (m : list (K * V)) (k : K) (v : V) : list (K * V) :=
  match m with
  | [] => [(k, v)]
  | (k', v') :: t =>
      if keq k k' then (k', v) :: t else (k', v') :: dict_set t k v
  end.

Fixpoint dict_del (m : list (K * V)) (k : K) : list (K * V) :=
  match m with
  | [] => []
  | (k', v') :: t => if keq k k' then t else (k', v') :: dict_del t k
  end.

Definition dict_mem (m : list (K * V)) (k : K) : bool :=
  match dict_get m k with Some _ => true | None => false end.
End Dict.

(** [s.startswith('_')]. *)
Definition startswith_underscore (s : string) : bool :=
  match s with
  | String c _ => Ascii.eqb c "_"%char
  | EmptyString => false
  end.

(** [os.path.basename(p)]: what follows the last ['/']. *)
Fixpoint basename_aux (p acc : string) : string :=
  match p with
  | EmptyString => acc
  | String c t =>
      if Ascii.eqb c "/"%char then basename_aux t EmptyString
      else basename_aux t (String.append acc (String c EmptyString))
  end.
Definition basename (p : string) : string := basename_aux p EmptyString.

Definition is_space (c : ascii) : bool :=
  let n := nat_of_ascii c in
  (Nat.eqb n 32 || (Nat.leb 9 n && Nat.leb n 13))%bool.

(** [s.strip() == ""]. *)
Fixpoint blank (s : string) : bool :=
  match s with
  | EmptyString => true
  | String c t => (is_space c && blank t)%bool
  end.

(* ================================================================== *)
(** ** The vector index capability (faiss) *)

Definition vec := list Q.

Definition Qlt_bool (a b : Q) : bool := negb (Qle_bool b a).

(** Squared Euclidean distance, which is what an L2 faiss index
    reports in [D]. *)
Fixpoint l2sqr (x y : vec) : Q :=
  match x, y with
  | a :: x', b :: y' => ((a - b) * (a - b) + l2sqr x' y')%Q
  | _, _ => 0%Q
  end.

Inductive index_kind : Type := IndexFlatL2 | IndexIVFFlat | IndexHNSWFlat.

Record faiss_index : Type := mk_index {
  kind : index_kind;
  d : Z;              (* index.d *)
  xb : list vec       (* stored vectors; position = id *)
}.

Definition ntotal (index : faiss_index) : Z := len (xb index).

(** A search hit: label ([-1] when there is none) and distance. *)
Definition hit := (Z * Q)%type.

Definition FLT_MAX : Q := 340282346638528859811704183484516925440 # 1.
Definition no_hit : hit := (-1, FLT_MAX).

Fixpoint insert_hit (h : hit) (l : list hit) : list hit :=
  match l with
  | [] => [h]
  | h' :: t =>
      if Qle_bool (snd h) (snd h') then h :: l else h' :: insert_hit h t
  end.

(** Ascending by distance, ties by ascending id. *)
Definition sort_hits (l : list hit) : list hit := fold_right insert_hit [] l.

Definition score_ids (xs : list vec) (q : vec) (ids : list nat) : list hit :=
  map (fun i => (Z.of_nat i, l2sqr q (nth i xs []))) ids.

(** Exactly [k] columns per query, padded with the sentinel. *)
Definition pad_hits (k : nat) (l : list hit) : list hit :=
  firstn k l ++ repeat no_hit (k - List.length (firstn k l)).

Definition new_index (k : index_kind) (dim : Z) : faiss_index :=
  {| kind := k; d := dim; xb := [] |}.

(** [index.add(np.array(vs))]: an empty list has no second axis to
    unpack, a row of the wrong length fails the dimension assertion. *)
Definition index_add (index : faiss_index) (vs : list vec) : outcome faiss_index :=
  match vs with
  | [] => Raise ValueError
  | _ =>
      if forallb (fun v => len v =? d index) vs
      then Ret {| kind := kind index; d := d index; xb := xb index ++ vs |}
      else Raise AssertionError
  end.

(* ================================================================== *)
(** ** Data model: metadata table, file registry, change log *)

(** A metadata entry: [{"text": ..., <flags>, "metadata": {...}}]. *)
Record entry : Type := mk_entry {
  text : option string;
  flags : list (string * bool);
  meta : option (list (string * string))
}.

Definition empty_entry : entry := {| text := None; flags := []; meta := None |}.

(** Python truth value of an entry dict: false iff it is [{}]. *)
Definition entry_truthy (e : entry) : bool :=
  match text e, flags e, meta e with
  | None, [], None => false
  | _, _, _ => true
  end.

Inductive mkey : Type := KInt (i : Z) | KStr (s : string).

Definition mkey_eqb (a b : mkey) : bool :=
  match a, b with
  | KInt i, KInt j => i =? j
  | KStr s, KStr t => String.eqb s t
  | _, _ => false
  end.

(** The metadata table is a list (position = id) or a dict. *)
Inductive metadata_table : Type :=
| MList (l : list entry)
| MDict (m : list (mkey * entry)).

Definition metadata_len (m : metadata_table) : Z :=
  match m with MList l => len l | MDict m => len m end.

(** What [json.dump] leaves on disk: int keys become strings. *)
Definition json_key (k : mkey) : mkey :=
  match k with KInt i => KStr (str i) | KStr s => KStr s end.
Definition json_metadata (m : metadata_table) : metadata_table :=
  match m with
  | MList l => MList l
  | MDict m => MDict (map (fun kv => (json_key (fst kv), snd kv)) m)
  end.

Record version : Type := mk_version {
  v_version : Z;
  v_vector_count : Z;
  v_vector_ids : list Z;
  v_created_at : string
}.

Record file_record : Type := mk_file {
  file_name : string;
  file_path : string;
  added_at : string;
  vector_count : Z;
  last_updated : string;
  versions : list version;
  current_version : Z
}.

(** A registry value is a file record or one of the aggregate fields
    [_created_at], [_last_updated] (strings), [_file_count],
    [_vector_count] (ints) kept in the same dict. *)
Inductive reg_value : Type :=
| RFile (f : file_record)
| RStr (s : string)
| RInt (z : Z).

Definition registry := list (string * reg_value).

Definition reg_get (r : registry) (k : string) : option reg_value :=
  dict_get String.eqb r k.
Definition reg_set (r : registry) (k : string) (v : reg_value) : registry :=
  dict_set String.eqb r k v.

Inductive dval : Type := DInt (z : Z) | DStr (s : string).

Record event : Type := mk_event {
  event_type : string;
  ev_file_name : option string;
  timestamp : string;
  data : list (string * dval)
}.

Record collection_info : Type := mk_info {
  ci_name : string;
  ci_dimension : Z;
  ci_index_type : string;
  ci_created_at : string;
  vectors_count : Z;
  files_count : Z
}.

(* ================================================================== *)
(** ** The manager state and its monad *)

Record manager : Type := mk_manager {
  (* files of the collection under index_folder *)
  index_file : option faiss_index;           (* <name>.index *)
  meta_file : option metadata_table;         (* <name>.meta *)
  registry_file : option registry;           (* <name>.files.json *)
  history_file : option (list event);        (* <name>.history.json *)
  collections_info : option collection_info; (* entry in collections_info.json *)
  (* in-memory caches *)
  indexes : option faiss_index;
  metadata : option metadata_table;
  file_registry : option registry;
  file_change_history : option (list event)
}.

Definition set_index_file v (s : manager) :=
  mk_manager v (meta_file s) (registry_file s) (history_file s) (collections_info s)
    (indexes s) (metadata s) (file_registry s) (file_change_history s).
Definition set_meta_file v (s : manager) :=
  mk_manager (index_file s) v (registry_file s) (history_file s) (collections_info s)
    (indexes s) (metadata s) (file_registry s) (file_change_history s).
Definition set_registry_file v (s : manager) :=
  mk_manager (index_file s) (meta_file s) v (history_file s) (collections_info s)
    (indexes s) (metadata s) (file_registry s) (file_change_history s).
Definition set_history_file v (s : manager) :=
  mk_manager (index_file s) (meta_file s) (registry_file s) v (collections_info s)
    (indexes s) (metadata s) (file_registry s) (file_change_history s).
Definition set_collections_info v (s : manager) :=
  mk_manager (index_file s) (meta_file s) (registry_file s) (history_file s) v
    (indexes s) (metadata s) (file_registry s) (file_change_history s).
Definition set_indexes v (s : manager) :=
  mk_manager (index_file s) (meta_file s) (registry_file s) (history_file s)
    (collections_info s) v (metadata s) (file_registry s) (file_change_history s).
Definition set_metadata v (s : manager) :=
  mk_manager (index_file s) (meta_file s) (registry_file s) (history_file s)
    (collections_info s) (indexes s) v (file_registry s) (file_change_history s).
Definition set_file_registry v (s : manager) :=
  mk_manager (index_file s) (meta_file s) (registry_file s) (history_file s)
    (collections_info s) (indexes s) (metadata s) v (file_change_history s).
Definition set_file_change_history v (s : manager) :=
  mk_manager (index_file s) (meta_file s) (registry_file s) (history_file s)
    (collections_info s) (indexes s) (metadata s) (file_registry s) v.

(** Computations over a mutable state [S] that may raise. *)
Definition MS (S A : Type) : Type := S -> outcome A * S.

(** Methods of the manager. *)
Definition M : Type -> Type := MS manager.

Definition ret {S A} (a : A) : MS S A := fun s => (Ret a, s).
Definition raise {S A} (e : exn) : MS S A := fun s => (Raise e, s).
Definition bind {S A B} (m : MS S A) (f : A -> MS S B) : MS S B :=
  fun s => match m s with
           | (Ret a, s') => f a s'
           | (Raise e, s') => (Raise e, s')
           end.
(** [try: m  except Exception as e: h e]. *)
Definition try_except {S A} (m : MS S A) (h : exn -> MS S A) : MS S A :=
  fun s => match m s with
           | (Ret a, s') => (Ret a, s')
           | (Raise e, s') => h e s'
           end.
Definition get {S} : MS S S := fun s => (Ret s, s).
Definition modify {S} (f : S -> S) : MS S unit := fun s => (Ret tt, f s).
Definition lift {S A} (o : outcome A) : MS S A := fun s => (o, s).

(** A method body with local variables [L]: [self] runs a manager
    method, [with_locals] runs the body from the initial frame. *)
Definition self {L A} (m : M A) : MS (manager * L) A :=
  fun sl => match m (fst sl) with (o, s') => (o, (s', snd sl)) end.
Definition locals {L} : MS (manager * L) L := fun sl => (Ret (snd sl), sl).
Definition assign {L} (f : L -> L) : MS (manager * L) unit :=
  fun sl => (Ret tt, (fst sl, f (snd sl))).
Definition with_locals {L A} (init : L) (m : MS (manager * L) A) : M A :=
  fun s => match m (s, init) with (o, sl) => (o, fst sl) end.

Declare Scope py_scope.
Delimit Scope py_scope with py.
Notation "x <- m ;; k" := (bind m (fun x => k))
  (at level 100, m at next level, right associativity) : py_scope.
Notation "m ;; k" := (bind m (fun _ => k))
  (at level 100, right associativity) : py_scope.
Open Scope py_scope.

(** [for x in l: body x]. *)
Fixpoint for_each {S A} (l : list A) (body : A -> MS S unit) : MS S unit :=
  match l with
  | [] => ret tt
  | x :: t => body x ;; for_each t body
  end.

Inductive artifact : Type := AIndex | AMeta | ARegistry | AHistory | AInfo.

(** The environment of a call: the collection the manager is projected
    on, the clock, which files can be written, and the candidate ids an approximate (IVF, HNSW) index visits for a
    query. *)
Record env : Type := mk_env {
  collection_name : string;
  now : string;
  epoch : string;
  writable : artifact -> bool;
  approx_candidates : index_kind -> list vec -> vec -> list nat
}.

(* ================================================================== *)
(** ** Results returned to the caller *)

Inductive status_t : Type := Success | Error.

Inductive message_t : Type :=
| MsgCannotCreate | MsgCannotLoadIndex | MsgCannotLoadMetadata
| MsgLengthMismatch
| MsgAdded (n : Z)
| MsgAddedSkipped (n dups : Z)
| MsgAllDuplicates (n : Z)
| MsgSaveFailed
| MsgEmptyAddError (e : exn)
| MsgAddError (e : exn)
| MsgCritical (e : exn).

(** The dict returned by [add_vectors]; [None] is an absent key. *)
Record add_result : Type := mk_result {
  status : status_t;
  message : message_t;
  count : option Z;
  duplicates : option Z;
  result_file_name : option string
}.

Definition error_result (m : message_t) : add_result :=
  {| status := Error; message := m; count := None; duplicates := None;
     result_file_name := None |}.

(** [replace_file] returns [False] or whatever [add_vectors] returned. *)
Inductive replace_result : Type :=
| RFalse
| RDict (r : add_result).

(** A Python object held by a local variable of [diagnose_knowledge_base]
    or [repair_knowledge_base]. *)
Inductive pyobj : Type :=
| PNone
| PBool (b : bool)
| PIndex (i : faiss_index)
| PMeta (m : metadata_table)
| PReg (r : registry).

(** [o.ntotal]. *)
Definition py_ntotal (o : pyobj) : outcome Z :=
  match o with
  | PIndex i => Ret (ntotal i)
  | _ => Raise AttributeError
  end.

(** [len(o)]. *)
Definition py_len (o : pyobj) : outcome Z :=
  match o with
  | PMeta m => Ret (metadata_len m)
  | PReg r => Ret (len r)
  | _ => Raise TypeError
  end.

(** Truth value of [o]. *)
Definition py_truth (o : pyobj) : bool :=
  match o with
  | PNone => false
  | PBool b => b
  | PIndex _ => true
  | PMeta m => 0 <? metadata_len m
  | PReg r => 0 <? len r
  end.

Definition is_none (o : pyobj) : bool :=
  match o with PNone => true | _ => false end.
Definition isinstance_list (o : pyobj) : bool :=
  match o with PMeta (MList _) => true | _ => false end.
Definition isinstance_dict (o : pyobj) : bool :=
  match o with PMeta (MDict _) => true | PReg _ => true | _ => false end.

(** Short-circuit [a and b], [a or b] on expressions that may raise. *)
Definition oand (a b : outcome bool) : outcome bool :=
  match a with Ret true => b | Ret false => Ret false | Raise e => Raise e end.
Definition oor (a b : outcome bool) : outcome bool :=
  match a with Ret true => Ret true | Ret false => b | Raise e => Raise e end.
Definition ocmp (f : Z -> Z -> bool) (a b : outcome Z) : outcome bool :=
  match a with
  | Raise e => Raise e
  | Ret x => match b with Raise e => Raise e | Ret y => Ret (f x y) end
  end.

Inductive issue : Type :=
| IssueNotExists
| IssueLoadIndex (e : exn)
| IssueLoadMetadata (e : exn)
| IssueLoadRegistry (e : exn)
| IssueSizeMismatch (index_n metadata_n : Z)
| IssueCheckFailed
| IssueDiagnose (e : exn)
| IssueSaveRepaired
| IssueIndexEmpty
| IssueCreateRegistry.

Inductive dstatus : Type := StUnknown | StOk | StWarning | StError.

(** The report of [diagnose_knowledge_base]. *)
Record diagnosis : Type := mk_diagnosis {
  dg_status : dstatus;
  dg_collection_exists : bool;
  index_exists : bool;
  metadata_exists : bool;
  file_registry_exists : bool;
  index_count : Z;
  metadata_count : Z;
  file_registry_count : Z;
  is_consistent : bool;
  issues : list issue;
  repair_suggestion : bool
}.

Definition initial_diagnosis : diagnosis :=
  mk_diagnosis StUnknown false false false false 0 0 0 false [] false.

Definition dg_set_status v (r : diagnosis) :=
  mk_diagnosis v (dg_collection_exists r) (index_exists r) (metadata_exists r)
    (file_registry_exists r) (index_count r) (metadata_count r)
    (file_registry_count r) (is_consistent r) (issues r) (repair_suggestion r).
Definition dg_set_exists c i m f (r : diagnosis) :=
  mk_diagnosis (dg_status r) c i m f (index_count r) (metadata_count r)
    (file_registry_count r) (is_consistent r) (issues r) (repair_suggestion r).
Definition dg_set_counts i m f (r : diagnosis) :=
  mk_diagnosis (dg_status r) (dg_collection_exists r) (index_exists r)
    (metadata_exists r) (file_registry_exists r) i m f (is_consistent r)
    (issues r) (repair_suggestion r).
Definition dg_set_consistent v (r : diagnosis) :=
  mk_diagnosis (dg_status r) (dg_collection_exists r) (index_exists r)
    (metadata_exists r) (file_registry_exists r) (index_count r)
    (metadata_count r) (file_registry_count r) v (issues r)
    (repair_suggestion r).
Definition dg_add_issue i (r : diagnosis) :=
  mk_diagnosis (dg_status r) (dg_collection_exists r) (index_exists r)
    (metadata_exists r) (file_registry_exists r) (index_count r)
    (metadata_count r) (file_registry_count r) (is_consistent r)
    (issues r ++ [i]) (repair_suggestion r).
Definition dg_set_suggestion v (r : diagnosis) :=
  mk_diagnosis (dg_status r) (dg_collection_exists r) (index_exists r)
    (metadata_exists r) (file_registry_exists r) (index_count r)
    (metadata_count r) (file_registry_count r) (is_consistent r) (issues r) v.

Inductive rstatus : Type := RpUnknown | RpSuccess | RpError.

Inductive repair_note : Type :=
| RepCreatedMetadata
| RepAddedEntries (n : Z)
| RepTruncated (n : Z)
| RepSavedMetadata
| RepCannotAuto
| RepCreatedRegistry.

Inductive repair_message : Type :=
| RMsgNone | RMsgNothingToRepair | RMsgRepaired | RMsgStillInconsistent
| RMsgRepairError (e : exn).

(** The report of [repair_knowledge_base]. *)
Record repair_report : Type := mk_report {
  rp_status : rstatus;
  issues_found : list issue;
  repairs_made : list repair_note;
  success : bool;
  rp_message : repair_message;
  remaining_issues : option (list issue)
}.

Definition initial_report : repair_report :=
  mk_report RpUnknown [] [] false RMsgNone None.

Definition rp_finish st ok msg rem (r : repair_report) :=
  mk_report st (issues_found r) (repairs_made r) ok msg rem.
Definition rp_set_issues l (r : repair_report) :=
  mk_report (rp_status r) l (repairs_made r) (success r) (rp_message r)
    (remaining_issues r).
Definition rp_add_issue i (r : repair_report) :=
  rp_set_issues (issues_found r ++ [i]) r.
Definition rp_add_repair n (r : repair_report) :=
  mk_report (rp_status r) (issues_found r) (repairs_made r ++ [n]) (success r)
    (rp_message r) (remaining_issues r).

(** The local variables [result], [index], [metadata], [file_registry]. *)
Record frame (R : Type) : Type := mk_frame {
  loc_result : R;
  loc_index : pyobj;
  loc_metadata : pyobj;
  loc_file_registry : pyobj
}.

Definition set_result {R} (f : R -> R) (l : frame R) : frame R :=
  mk_frame (f (loc_result l)) (loc_index l) (loc_metadata l)
    (loc_file_registry l).
Definition set_loc_index {R} v (l : frame R) : frame R :=
  mk_frame (loc_result l) v (loc_metadata l) (loc_file_registry l).
Definition set_loc_metadata {R} v (l : frame R) : frame R :=
  mk_frame (loc_result l) (loc_index l) v (loc_file_registry l).
Definition set_loc_file_registry {R} v (l : frame R) : frame R :=
  mk_frame (loc_result l) (loc_index l) (loc_metadata l) v.

(** [return result]. *)
Definition return_result {R} : MS (manager * frame R) R :=
  l <- locals ;; ret (loc_result l).

Section Store.
Variable E : env.

(* ---------------------------------------------------------------- *)
(** *** faiss search *)

(** The ids whose distance to the query is computed: all of them for
    a flat index, the visited ones for an approximate index. *)
Definition candidates (index : faiss_index) (q : vec) : list nat :=
  match kind index with
  | IndexFlatL2 => seq 0 (List.length (xb index))
  | k => nodup Nat.eq_dec
           (filter (fun i => (i <? List.length (xb index))%nat)
                   (approx_candidates E k (xb index) q))
  end.

(** [D, I = index.search(np.array([q]), k)], first row. *)
Definition index_search (index : faiss_index) (q : vec) (k : Z)
  : outcome (list hit) :=
  if negb (len q =? d index) then Raise AssertionError
  else if k <=? 0 then Raise AssertionError
  else Ret (pad_hits (Z.to_nat k)
              (sort_hits (score_ids (xb index) q (candidates index q)))).

(* ---------------------------------------------------------------- *)
(** *** Files *)

Definition write_file (a : artifact) (f : manager -> manager) : M unit :=
  if writable E a then modify f else raise OSError.

Definition collection_exists : M bool :=
  s <- get ;;
  match indexes s with
  | Some _ => ret true
  | None =>
      ret (match index_file s, meta_file s with
           | Some _, Some _ => true
           | _, _ => false
           end)
  end.

Definition _save_index : M bool :=
  try_except
    (s <- get ;;
     match indexes s with
     | Some index =>
         write_file AIndex (set_index_file (Some index)) ;;
         s' <- get ;;
         match index_file s' with
         | Some test_index =>
             if negb (ntotal test_index =? ntotal index) then ret false
             else ret true
         | None => ret false
         end
     | None => ret false
     end)
    (fun _ => ret false).

Definition _save_metadata : M bool :=
  try_except
    (s <- get ;;
     match metadata s with
     | Some m =>
         write_file AMeta (set_meta_file (Some (json_metadata m))) ;;
         ret true
     | None => ret false
     end)
    (fun _ => ret false).

Definition registry_stub : registry :=
  [("_created_at", RStr (now E)); ("_last_updated", RStr (now E));
   ("_file_count", RInt 0); ("_vector_count", RInt 0)].

(** The two counters recomputed on save. *)
Fixpoint count_files (r : registry) : Z * Z :=
  match r with
  | [] => (0, 0)
  | (key, value) :: t =>
      let '(fc, vc) := count_files t in
      match value with
      | RFile f =>
          if negb (startswith_underscore key)
          then (fc + 1, vc + vector_count f) else (fc, vc)
      | _ => (fc, vc)
      end
  end.

Definition _save_file_registry : M bool :=
  try_except
    (s <- get ;;
     match file_registry s with
     | Some r =>
         let r' :=
           match r with
           | [] => registry_stub
           | _ =>
               let r1 := reg_set r "_last_updated" (RStr (now E)) in
               let '(fc, vc) := count_files r1 in
               reg_set (reg_set r1 "_file_count" (RInt fc))
                       "_vector_count" (RInt vc)
           end in
         modify (set_file_registry (Some r')) ;;
         write_file ARegistry (set_registry_file (Some r')) ;;
         ret true
     | None => ret false
     end)
    (fun _ => ret false).

Definition _save_file_history : M unit :=
  s <- get ;;
  match file_change_history s with
  | Some h => write_file AHistory (set_history_file (Some h))
  | None => ret tt
  end.

Definition append_event (ev : event) : M unit :=
  modify (fun s =>
    set_file_change_history
      (Some (match file_change_history s with
             | Some h => h ++ [ev]
             | None => [ev]
             end)) s).

Definition _record_collection_event (ty : string)
           (dat : list (string * dval)) : M unit :=
  append_event {| event_type := ty; ev_file_name := None;
                  timestamp := now E; data := dat |} ;;
  _save_file_history.

Definition _record_file_event (fname ty : string)
           (dat : list (string * dval)) : M unit :=
  append_event {| event_type := ty; ev_file_name := Some fname;
                  timestamp := now E; data := dat |} ;;
  _save_file_history.

Definition _load_index : M bool :=
  s <- get ;;
  match index_file s with
  | Some index => modify (set_indexes (Some index)) ;; ret true
  | None => ret false
  end.

Definition _load_metadata : M bool :=
  s <- get ;;
  match meta_file s with
  | None => modify (set_metadata (Some (MDict []))) ;; ret true
  | Some m => modify (set_metadata (Some m)) ;; ret true
  end.

Definition _load_file_registry : M bool :=
  s <- get ;;
  match registry_file s with
  | None => modify (set_file_registry (Some [])) ;; ret true
  | Some r => modify (set_file_registry (Some r)) ;; ret true
  end.

Definition _load_file_history : M bool :=
  s <- get ;;
  match history_file s with
  | None => modify (set_file_change_history (Some [])) ;; ret true
  | Some h => modify (set_file_change_history (Some h)) ;; ret true
  end.

(* ---------------------------------------------------------------- *)
(** *** create_collection *)

Definition _save_collection_info (dimension : Z) (index_type : string)
  : M bool :=
  try_except
    (write_file AInfo
       (set_collections_info
          (Some {| ci_name := collection_name E; ci_dimension := dimension;
                   ci_index_type := index_type; ci_created_at := now E;
                   vectors_count := 0; files_count := 0 |})) ;;
     ret true)
    (fun _ => ret false).

Definition _update_collection_stats (vc fc : option Z) : M bool :=
  s <- get ;;
  match collections_info s with
  | Some ci =>
      let ci' :=
        {| ci_name := ci_name ci; ci_dimension := ci_dimension ci;
           ci_index_type := ci_index_type ci;
           ci_created_at := ci_created_at ci;
           vectors_count := match vc with Some n => n | None => vectors_count ci end;
           files_count := match fc with Some n => n | None => files_count ci end |} in
      try_except
        (write_file AInfo (set_collections_info (Some ci')) ;; ret true)
        (fun _ => ret false)
  | None => ret false
  end.

(** Training on synthetic samples succeeds. *)
Definition _train_index (index : faiss_index) (dimension : Z) : bool := true.

Definition index_of_type (index_type : string) (dimension : Z)
  : option faiss_index :=
  if String.eqb index_type "Flat" then Some (new_index IndexFlatL2 dimension)
  else if String.eqb index_type "IVF" then
    let index := new_index IndexIVFFlat dimension in
    if negb (_train_index index dimension) then None else Some index
  else if String.eqb index_type "HNSW" then
    Some (new_index IndexHNSWFlat dimension)
  else None.

(** [if os.path.exists(p): os.remove(p)]. *)
Definition remove_index : M unit := modify (set_index_file None).
Definition remove_metadata : M unit := modify (set_meta_file None).
Definition remove_registry : M unit := modify (set_registry_file None).
Definition remove_history : M unit := modify (set_history_file None).

(** [try: write  except: cleanup; return False]. *)
Definition attempt (w cleanup : M unit) : M bool :=
  try_except (w ;; ret true) (fun _ => cleanup ;; ret false).

Definition create_collection (dimension : Z) (index_type : string) : M bool :=
  try_except
    (s <- get ;;
     match index_file s with
     | Some _ => ret false
     | None =>
     match index_of_type index_type dimension with
     | None => ret false
     | Some index =>
     ok <- attempt (write_file AIndex (set_index_file (Some index)))
                   (ret tt) ;;
     if negb ok then ret false else
     ok <- attempt (write_file AMeta (set_meta_file (Some (MList []))))
                   remove_index ;;
     if negb ok then ret false else
     ok <- attempt (write_file ARegistry (set_registry_file (Some [])))
                   (remove_index ;; remove_metadata) ;;
     if negb ok then ret false else
     ok <- attempt (write_file AHistory (set_history_file (Some [])))
                   (remove_index ;; remove_metadata ;; remove_registry) ;;
     if negb ok then ret false else
     ok <- _save_collection_info dimension index_type ;;
     if negb ok then
       remove_index ;; remove_metadata ;; remove_registry ;;
       remove_history ;; ret false
     else ret true
     end end)
    (fun _ => ret false).

Definition _ensure_collection_exists : M bool :=
  try_except
    (ex <- collection_exists ;;
     if negb ex then create_collection 512 "Flat" else ret true)
    (fun _ => ret false).

(* ---------------------------------------------------------------- *)
(** *** add_vectors *)

Definition has_file_path (m : entry) : bool :=
  match meta m with
  | Some md => dict_mem String.eqb md "file_path"
  | None => false
  end.

Definition missing_path (p : option string) : bool :=
  match p with None => true | Some s => blank s end.

(** Lines 751-764: the path given, else the first one found in the
    metadata entries, else a generated name. *)
Definition resolve_file_path (fp : option string) (ms : list entry) : string :=
  if missing_path fp then
    let fp' :=
      match find has_file_path ms with
      | Some m =>
          match meta m with
          | Some md => dict_get String.eqb md "file_path"
          | None => fp
          end
      | None => fp
      end in
    if missing_path fp'
    then String.append "system_generated_" (String.append (epoch E) ".txt")
    else match fp' with Some s => s | None => EmptyString end
  else match fp with Some s => s | None => EmptyString end.

Definition DEDUP_THRESHOLD : Q := 1 # 100.

(** One turn of the screening loop (lines 1027-1047) on the
    accumulators [accepted_vectors, accepted_metadata,
    duplicates_count]. *)
Definition screen_step (index : faiss_index)
           (acc : list vec * list entry * Z) (vm : vec * entry)
  : outcome (list vec * list entry * Z) :=
  let '(accepted_vectors, accepted_metadata, duplicates_count) := acc in
  match index_search index (fst vm) 1 with
  | Raise e => Raise e
  | Ret [] => Raise KeyError
  | Ret ((i, dist) :: _) =>
      if (negb (i =? -1) && Qlt_bool dist DEDUP_THRESHOLD)%bool
      then Ret (accepted_vectors, accepted_metadata, duplicates_count + 1)
      else Ret (accepted_vectors ++ [fst vm],
                accepted_metadata ++ [snd vm], duplicates_count)
  end.

Fixpoint screen (index : faiss_index) (acc : list vec * list entry * Z)
         (l : list (vec * entry)) : outcome (list vec * list entry * Z) :=
  match l with
  | [] => Ret acc
  | vm :: t =>
      match screen_step index acc vm with
      | Ret acc' => screen index acc' t
      | Raise e => Raise e
      end
  end.

Fixpoint enumerate_from {A} (n : Z) (l : list A) : list (Z * A) :=
  match l with
  | [] => []
  | x :: t => (n, x) :: enumerate_from (n + 1) t
  end.

(** [collection_metadata.extend(ms)] for a list; for a dict the keys
    [str(before_count + i)], [i < added_count], [i < len(ms)]. *)
Definition extend_metadata (cm : metadata_table) (before_count added_count : Z)
           (ms : list entry) : metadata_table :=
  match cm with
  | MList l => MList (l ++ ms)
  | MDict m =>
      MDict (fold_left
               (fun m ie => dict_set mkey_eqb m (KStr (str (fst ie))) (snd ie))
               (enumerate_from before_count (firstn (Z.to_nat added_count) ms))
               m)
  end.

Definition annotate (fname fpath : string) (e : entry) : entry :=
  let md := match meta e with Some md => md | None => [] end in
  {| text := text e; flags := flags e;
     meta := Some (dict_set String.eqb
                     (dict_set String.eqb md "file_name" fname)
                     "file_path" fpath) |}.

Fixpoint list_update {A} (l : list A) (n : nat) (f : A -> A) : list A :=
  match l, n with
  | [], _ => []
  | x :: t, O => f x :: t
  | x :: t, S n' => x :: list_update t n' f
  end.

(** One turn of the annotation loop at [vector_idx]. *)
Definition annotate_at (fname fpath : string) (cm : metadata_table)
           (vector_idx : Z) : metadata_table :=
  match cm with
  | MDict m =>
      match dict_get mkey_eqb m (KStr (str vector_idx)) with
      | Some e =>
          MDict (dict_set mkey_eqb m (KStr (str vector_idx))
                          (annotate fname fpath e))
      | None => MDict m
      end
  | MList l =>
      if vector_idx <? len l
      then MList (list_update l (Z.to_nat vector_idx) (annotate fname fpath))
      else MList l
  end.

Definition max_version (vs : list version) : Z :=
  fold_right (fun v m => Z.max (v_version v) m) (v_version (hd (mk_version 0 0 [] "") vs)) vs.

Definition range (a b : Z) : list Z :=
  map (fun i => a + Z.of_nat i) (seq 0 (Z.to_nat (b - a))).

Definition opt_dups (dups : option Z) : list (string * dval) :=
  match dups with
  | Some n => [("duplicates_skipped", DInt n)]
  | None => []
  end.

(** Creation or update of the file record (lines 873-948 and
    1090-1164). *)
Definition register_file (fname fpath : string) (before_count added_count : Z)
           (dups : option Z) : M unit :=
  s <- get ;;
  match file_registry s with
  | None => raise KeyError
  | Some r =>
      let ids := range before_count (before_count + added_count) in
      match reg_get r fname with
      | None =>
          let rec :=
            {| file_name := fname; file_path := fpath; added_at := now E;
               vector_count := added_count; last_updated := now E;
               versions := [mk_version 1 added_count ids (now E)];
               current_version := 1 |} in
          modify (set_file_registry (Some (reg_set r fname (RFile rec)))) ;;
          _record_file_event fname "file_added"
            ([("vector_count", DInt added_count); ("file_path", DStr fpath)]
               ++ opt_dups dups)
      | Some (RFile current_file) =>
          let next_version :=
            match versions current_file with
            | [] => 1
            | vs => max_version vs + 1
            end in
          let new_version := mk_version next_version added_count ids (now E) in
          let rec :=
            {| file_name := file_name current_file;
               file_path := file_path current_file;
               added_at := added_at current_file;
               vector_count := vector_count current_file + added_count;
               last_updated := now E;
               versions := versions current_file ++ [new_version];
               current_version := next_version |} in
          modify (set_file_registry (Some (reg_set r fname (RFile rec)))) ;;
          _record_file_event fname "file_updated"
            ([("new_version", DInt next_version);
              ("added_vectors", DInt added_count)] ++ opt_dups dups)
      | Some _ => raise TypeError
      end
  end.

Definition file_count_of (r : registry) : Z :=
  len (filter (fun kv => negb (startswith_underscore (fst kv))) r).

(** Lines 965-969 and 1181-1185: the aggregate fields of the registry. *)
Definition update_registry_stats (after_count : Z) : M unit :=
  s <- get ;;
  match file_registry s with
  | None => raise KeyError
  | Some r =>
      let r1 := reg_set r "_last_updated" (RStr (now E)) in
      let file_count := file_count_of r1 in
      modify (set_file_registry
                (Some (reg_set (reg_set r1 "_file_count" (RInt file_count))
                               "_vector_count" (RInt after_count))))
  end.

(** From [index.add] to the returned dict: lines 832-1009 for the
    empty index ([dups = None]) and 1051-1227 otherwise. *)
Definition append_vectors (index : faiss_index) (vectors_to_add : list vec)
           (ms : list entry) (fpath : string) (dups : option Z)
  : M add_result :=
  let before_count := ntotal index in
  index' <- lift (index_add index vectors_to_add) ;;
  modify (set_indexes (Some index')) ;;
  let after_count := ntotal index' in
  let added_count := after_count - before_count in
  modify (fun s =>
    match metadata s with
    | Some cm =>
        set_metadata (Some (extend_metadata cm before_count added_count ms)) s
    | None => s
    end) ;;
  s <- get ;;
  match file_registry s with
  | None => modify (set_file_registry (Some registry_stub))
  | Some _ => ret tt
  end ;;
  let fname := basename fpath in
  register_file fname fpath before_count added_count dups ;;
  for_each (enumerate_from 0 ms) (fun im =>
    modify (fun s =>
      match metadata s with
      | Some cm =>
          set_metadata
            (Some (annotate_at fname fpath cm (before_count + fst im))) s
      | None => s
      end)) ;;
  update_registry_stats after_count ;;
  index_saved <- _save_index ;;
  metadata_saved <- _save_metadata ;;
  registry_saved <- _save_file_registry ;;
  if negb (index_saved && metadata_saved && registry_saved)%bool then
    _record_collection_event "save_failed" [("timestamp", DStr (now E))] ;;
    ret (error_result MsgSaveFailed)
  else
    _record_collection_event "vectors_added"
      ([("count", DInt added_count); ("file_name", DStr fname)]
         ++ opt_dups dups ++ [("timestamp", DStr (now E))]) ;;
    ret {| status := Success;
           message := match dups with
                      | None => MsgAdded added_count
                      | Some n => MsgAddedSkipped added_count n
                      end;
           count := Some added_count;
           duplicates := dups;
           result_file_name := Some fname |}.

(** Lines 819-1253: the length check, then the empty-index path or
    the screening loop followed by the append. *)
Definition insert_vectors (fpath : string) (vectors : list vec)
           (ms : list entry) : M add_result :=
  s <- get ;;
  match indexes s, metadata s with
  | Some index, Some collection_metadata =>
      if negb (len ms =? len vectors)
      then ret (error_result MsgLengthMismatch)
      else if ntotal index =? 0 then
        try_except
          (append_vectors index vectors ms fpath None)
          (fun e =>
             _record_collection_event "add_vectors_error"
               [("file_path", DStr fpath); ("timestamp", DStr (now E))] ;;
             ret (error_result (MsgEmptyAddError e)))
      else
        acc <- lift (screen index ([], [], 0) (combine vectors ms)) ;;
        let '(accepted_vectors, accepted_metadata, duplicates_count) := acc in
        match accepted_vectors with
        | _ :: _ =>
            try_except
              (append_vectors index accepted_vectors accepted_metadata
                              fpath (Some duplicates_count))
              (fun e =>
                 _record_collection_event "add_vectors_error"
                   [("file_path", DStr fpath);
                    ("timestamp", DStr (now E))] ;;
                 ret (error_result (MsgAddError e)))
        | [] =>
            _record_collection_event "all_vectors_duplicate"
              [("vector_count", DInt (len vectors));
               ("file_path", DStr fpath); ("timestamp", DStr (now E))] ;;
            ret {| status := Success;
                   message := MsgAllDuplicates (len vectors);
                   count := Some 0;
                   duplicates := Some duplicates_count;
                   result_file_name := Some (basename fpath) |}
        end
  | _, _ => raise KeyError
  end.

(** The outermost [except] of [add_vectors] (lines 1255-1269). *)
Definition critical_error (fpath : string) (e : exn) : M add_result :=
  try_except
    (_record_collection_event "critical_error"
       [("file_path", DStr fpath); ("timestamp", DStr (now E))])
    (fun _ => ret tt) ;;
  ret (error_result (MsgCritical e)).

Definition add_vectors (vectors : list vec) (ms : list entry)
           (fp : option string) : M add_result :=
  let fpath := resolve_file_path fp ms in
  try_except
    (ex <- collection_exists ;;
     created <- (if negb ex then _ensure_collection_exists else ret true) ;;
     if negb created then ret (error_result MsgCannotCreate) else
     s <- get ;;
     loaded <- match indexes s with
               | None => _load_index
               | Some _ => ret true
               end ;;
     if negb loaded then ret (error_result MsgCannotLoadIndex) else
     s <- get ;;
     loaded <- match metadata s with
               | None => _load_metadata
               | Some _ => ret true
               end ;;
     if negb loaded then ret (error_result MsgCannotLoadMetadata) else
     s <- get ;;
     match file_registry s with
     | None =>
         load_success <- _load_file_registry ;;
         if negb load_success then
           modify (set_file_registry (Some registry_stub)) ;;
           _save_file_registry ;; ret tt
         else ret tt
     | Some _ => ret tt
     end ;;
     insert_vectors fpath vectors ms)
    (critical_error fpath).

(* ---------------------------------------------------------------- *)
(** *** search *)

Definition check_and_fix_collection_consistency : M bool :=
  try_except
    (s <- get ;;
     loaded <- match indexes s with
               | None => _load_index
               | Some _ => ret true
               end ;;
     if negb loaded then ret false else
     s <- get ;;
     loaded <- match metadata s with
               | None => _load_metadata
               | Some _ => ret true
               end ;;
     if negb loaded then ret false else
     s <- get ;;
     match indexes s, metadata s with
     | Some index, Some m =>
         let index_size := ntotal index in
         let metadata_size := metadata_len m in
         if ((index_size =? 0) && (0 <? metadata_size))%bool then ret false
         else if negb (index_size =? metadata_size) then ret false
         else ret true
     | _, _ => raise KeyError
     end)
    (fun _ => ret false).

(** The metadata of a returned id (lines 1373-1387). *)
Definition lookup_metadata (m : metadata_table) (idx : Z) : entry :=
  match m with
  | MDict dm =>
      match dict_get mkey_eqb dm (KStr (str idx)) with
      | Some e =>
          if entry_truthy e then e
          else match dict_get mkey_eqb dm (KInt idx) with
               | Some e' => e'
               | None => empty_entry
               end
      | None =>
          match dict_get mkey_eqb dm (KInt idx) with
          | Some e' => e'
          | None => empty_entry
          end
      end
  | MList l =>
      if ((0 <=? idx) && (idx <? len l))%bool
      then nth (Z.to_nat idx) l empty_entry
      else empty_entry
  end.

(** [search] up to the last statement: ids, raw distances, metadata. *)
Definition search_distances (query_vector : vec) (top_k : Z)
  : M (list Z * list Q * list entry) :=
  s <- get ;;
  match indexes s with None => _load_index | Some _ => ret true end ;;
  s <- get ;;
  match metadata s with None => _load_metadata | Some _ => ret true end ;;
  s <- get ;;
  match indexes s with
  | None => ret ([], [], [])
  | Some _ =>
  match metadata s with
  | None => ret ([], [], [])
  | Some _ =>
      check_and_fix_collection_consistency ;;
      try_except
        (s <- get ;;
         match indexes s, metadata s with
         | Some index, Some m =>
             if ntotal index =? 0 then ret ([], [], []) else
             let expected_dim := d index in
             let actual_dim := len query_vector in
             if negb (expected_dim =? actual_dim) then ret ([], [], []) else
             hits <- lift (index_search index query_vector
                                        (Z.min top_k (ntotal index))) ;;
             let valid_pairs := filter (fun h => negb (fst h =? -1)) hits in
             match valid_pairs with
             | [] => ret ([], [], [])
             | _ =>
                 let indices := map fst valid_pairs in
                 let similarities := map snd valid_pairs in
                 let metadata_list := map (lookup_metadata m) indices in
                 ret (indices, similarities, metadata_list)
             end
         | _, _ => raise KeyError
         end)
        (fun _ => ret ([], [], []))
  end end.

(** [float(np.exp(-sim))]. *)
Definition similarity (dist : Q) : R := exp (- Q2R dist).

Definition search (query_vector : vec) (top_k : Z)
  : M (list Z * list R * list entry) :=
  r <- search_distances query_vector top_k ;;
  let '(indices, similarities, metadata_list) := r in
  ret (indices, map similarity similarities, metadata_list).

(* ---------------------------------------------------------------- *)
(** *** delete_vectors, replace_file, delete_file *)

Definition in_ids (i : Z) (ids : list Z) : bool := existsb (Z.eqb i) ids.

(** [self.metadata[name].get(i, {})]: a list has no [get]. *)
Definition metadata_get (m : metadata_table) (i : Z) : outcome entry :=
  match m with
  | MList _ => Raise AttributeError
  | MDict dm =>
      Ret (match dict_get mkey_eqb dm (KInt i) with
           | Some e => e
           | None => empty_entry
           end)
  end.

(** Lines 1479-1482. *)
Fixpoint rebuild_metadata (m : metadata_table) (ids : list Z) (rng : list Z)
         (new_metadata : list (mkey * entry))
  : outcome (list (mkey * entry)) :=
  match rng with
  | [] => Ret new_metadata
  | i :: t =>
      if negb (in_ids i ids) then
        match metadata_get m i with
        | Ret e => rebuild_metadata m ids t
                     (dict_set mkey_eqb new_metadata (KInt i) e)
        | Raise e => Raise e
        end
      else rebuild_metadata m ids t new_metadata
  end.

Definition set_version (fname : string) (j : nat) (v : version)
           (r : registry) : registry :=
  match reg_get r fname with
  | Some (RFile f) =>
      reg_set r fname
        (RFile {| file_name := file_name f; file_path := file_path f;
                  added_at := added_at f; vector_count := vector_count f;
                  last_updated := last_updated f;
                  versions := list_update (versions f) j (fun _ => v);
                  current_version := current_version f |})
  | _ => r
  end.

(** The body of [for version in file_info['versions']] on the [j]-th
    version of [fname] (lines 1487-1497). *)
Definition prune_version (fname : string) (ids : list Z) (j : nat) : M unit :=
  s <- get ;;
  match file_registry s with
  | None => raise KeyError
  | Some r =>
      match reg_get r fname with
      | Some (RFile f) =>
          match nth_error (versions f) j with
          | Some v =>
              let old_vector_count := v_vector_count v in
              let vids := filter (fun vid => negb (in_ids vid ids))
                                 (v_vector_ids v) in
              let v' := mk_version (v_version v) (len vids) vids
                                   (v_created_at v) in
              modify (set_file_registry (Some (set_version fname j v' r))) ;;
              if negb (old_vector_count =? v_vector_count v') then
                _record_file_event fname "vector_delete"
                  [("version", DInt (v_version v'));
                   ("deleted_count",
                    DInt (old_vector_count - v_vector_count v'));
                   ("remaining_count", DInt (v_vector_count v'))]
              else ret tt
          | None => ret tt
          end
      | _ => raise TypeError
      end
  end.

(** One turn of [for file_name, file_info in registry.items()]:
    [file_info['versions']] raises on a str or an int value. *)
Definition prune_file (ids : list Z) (item : string * reg_value) : M unit :=
  match snd item with
  | RFile f =>
      for_each (seq 0 (List.length (versions f)))
               (prune_version (fst item) ids)
  | _ => raise TypeError
  end.

Definition delete_vectors (ids : list Z) : M bool :=
  ex <- collection_exists ;;
  if negb ex then ret false else
  s <- get ;;
  match indexes s with None => _load_index | Some _ => ret true end ;;
  s <- get ;;
  match metadata s with None => _load_metadata | Some _ => ret true end ;;
  s <- get ;;
  match file_registry s with
  | None => _load_file_registry
  | Some _ => ret true
  end ;;
  s <- get ;;
  match file_change_history s with
  | None => _load_file_history
  | Some _ => ret true
  end ;;
  try_except
    (s <- get ;;
     match indexes s with
     | None => raise KeyError
     | Some index =>
         let total := ntotal index in
         if total =? 0 then ret true else
         let new_index := new_index IndexFlatL2 (d index) in
         m <- match metadata s with
              | Some m => ret m
              | None => raise KeyError
              end ;;
         new_metadata <- lift (rebuild_metadata m ids (range 0 total) []) ;;
         r <- match file_registry s with
              | Some r => ret r
              | None => raise KeyError
              end ;;
         for_each r (prune_file ids) ;;
         modify (set_indexes (Some new_index)) ;;
         modify (set_metadata (Some (MDict new_metadata))) ;;
         _save_index ;;
         _save_metadata ;;
         _save_file_registry ;;
         _record_collection_event "vector_delete"
           [("deleted_count", DInt (len ids));
            ("remaining_count", DInt (total - len ids))] ;;
         ret true
     end)
    (fun _ => ret false).

Definition replace_file (fpath : string) (vectors : list vec)
           (ms : list entry) : M replace_result :=
  ex <- collection_exists ;;
  if negb ex then ret RFalse else
  s <- get ;;
  match indexes s with None => _load_index | Some _ => ret true end ;;
  s <- get ;;
  match metadata s with None => _load_metadata | Some _ => ret true end ;;
  s <- get ;;
  match file_registry s with
  | None => _load_file_registry
  | Some _ => ret true
  end ;;
  let fname := basename fpath in
  try_except
    (s <- get ;;
     match file_registry s with
     | None => raise KeyError
     | Some r =>
         match reg_get r fname with
         | Some (RFile file_info) =>
             let cur := current_version file_info in
             match find (fun v => v_version v =? cur) (versions file_info) with
             | Some current_version_info =>
                 delete_vectors (v_vector_ids current_version_info) ;; ret tt
             | None => ret tt
             end
         | Some _ => raise TypeError
         | None => ret tt
         end
     end ;;
     success <- add_vectors vectors ms (Some fpath) ;;
     ret (RDict success))
    (fun _ => ret RFalse).

Definition delete_file (fname : string) : M bool :=
  try_except
    (ok <- _ensure_collection_exists ;;
     if negb ok then ret false else
     s <- get ;;
     match indexes s with None => _load_index | Some _ => ret true end ;;
     s <- get ;;
     match metadata s with None => _load_metadata | Some _ => ret true end ;;
     s <- get ;;
     match file_registry s with
     | None => _load_file_registry
     | Some _ => ret true
     end ;;
     s <- get ;;
     let file_registry_ := match file_registry s with
                           | Some r => r
                           | None => []
                           end in
     match reg_get file_registry_ fname with
     | None => ret false
     | Some (RFile file_info) =>
         (* file_info.get("vector_ids", []): a file record has no such
            key, so the list is empty and delete_vectors is skipped *)
         let vector_ids : list Z := [] in
         match vector_ids with
         | _ :: _ => delete_vectors vector_ids ;; ret tt
         | [] => ret tt
         end ;;
         modify (fun s =>
           match file_registry s with
           | Some r => set_file_registry (Some (dict_del String.eqb r fname)) s
           | None => s
           end) ;;
         _save_file_registry ;;
         _record_file_event fname "delete"
           [("file_name", DStr fname); ("timestamp", DStr (now E));
            ("action", DStr "delete"); ("vector_count", DInt 0)] ;;
         _update_collection_stats None None ;;
         ret true
     | Some _ => raise AttributeError
     end)
    (fun _ => ret false).

(* ---------------------------------------------------------------- *)
(** *** diagnose_knowledge_base, repair_knowledge_base *)

Definition is_some {A} (o : option A) : bool :=
  match o with Some _ => true | None => false end.

(** [test(metadata) and index.ntotal == len(metadata)]. *)
Definition consistent_as (test : pyobj -> bool) (index metadata : pyobj)
  : outcome bool :=
  oand (Ret (test metadata)) (ocmp Z.eqb (py_ntotal index) (py_len metadata)).

(** [len(o) if o else 0] and [o.ntotal if o else 0]. *)
Definition len_or_0 (o : pyobj) : outcome Z :=
  if py_truth o then py_len o else Ret 0.
Definition ntotal_or_0 (o : pyobj) : outcome Z :=
  if py_truth o then py_ntotal o else Ret 0.

Definition diagnose_knowledge_base : M diagnosis :=
  with_locals (mk_frame initial_diagnosis PNone PNone PNone)
    (try_except
       (ex <- self collection_exists ;;
        assign (set_result (fun r => dg_set_exists ex (index_exists r)
                   (metadata_exists r) (file_registry_exists r) r)) ;;
        if negb ex then
          assign (set_result (dg_set_status StError)) ;;
          assign (set_result (dg_add_issue IssueNotExists)) ;;
          return_result
        else
          s <- self get ;;
          assign (set_result (dg_set_exists ex (is_some (index_file s))
                     (is_some (meta_file s)) (is_some (registry_file s)))) ;;
          try_except
            (index <- self _load_index ;;
             assign (set_loc_index (PBool index)) ;;
             n <- lift (ntotal_or_0 (PBool index)) ;;
             assign (set_result (fun r =>
                dg_set_counts n (metadata_count r) (file_registry_count r) r)))
            (fun e => assign (set_result (dg_add_issue (IssueLoadIndex e)))) ;;
          try_except
            (metadata <- self _load_metadata ;;
             assign (set_loc_metadata (PBool metadata)) ;;
             n <- lift (len_or_0 (PBool metadata)) ;;
             assign (set_result (fun r =>
                dg_set_counts (index_count r) n (file_registry_count r) r)))
            (fun e => assign (set_result (dg_add_issue (IssueLoadMetadata e)))) ;;
          try_except
            (file_registry <- self _load_file_registry ;;
             assign (set_loc_file_registry (PBool file_registry)) ;;
             n <- lift (len_or_0 (PBool file_registry)) ;;
             assign (set_result (fun r =>
                dg_set_counts (index_count r) (metadata_count r) n r)))
            (fun e => assign (set_result (dg_add_issue (IssueLoadRegistry e)))) ;;
          l <- locals ;;
          let index := loc_index l in
          let metadata := loc_metadata l in
          (if (negb (is_none index) && negb (is_none metadata))%bool then
             c <- lift (consistent_as isinstance_list index metadata) ;;
             if c then assign (set_result (dg_set_consistent true)) else
             c <- lift (consistent_as isinstance_dict index metadata) ;;
             if c then assign (set_result (dg_set_consistent true)) else
             assign (set_result (dg_set_consistent false)) ;;
             n <- lift (py_ntotal index) ;;
             k <- lift (len_or_0 metadata) ;;
             assign (set_result (dg_add_issue (IssueSizeMismatch n k)))
           else ret tt) ;;
          l <- locals ;;
          match issues (loc_result l) with
          | _ :: _ => assign (set_result (dg_set_status StWarning))
          | [] =>
              if is_consistent (loc_result l)
              then assign (set_result (dg_set_status StOk))
              else
                assign (set_result (dg_set_status StError)) ;;
                assign (set_result (dg_add_issue IssueCheckFailed))
          end ;;
          l <- locals ;;
          (if negb (is_consistent (loc_result l))
           then assign (set_result (dg_set_suggestion true))
           else ret tt) ;;
          return_result)
       (fun e =>
          assign (set_result (dg_set_status StError)) ;;
          assign (set_result (dg_add_issue (IssueDiagnose e))) ;;
          return_result)).

(** [{"text": f"Unknown document {i}", "repaired": True}]. *)
Definition placeholder (i : Z) : entry :=
  {| text := Some (String.append "Unknown document " (str i));
     flags := [("repaired", true)]; meta := None |}.

(** [metadata.append(e)] for each [e], and [metadata[:n]]. *)
Definition py_extend (o : pyobj) (es : list entry) : pyobj :=
  match o with PMeta (MList l) => PMeta (MList (l ++ es)) | _ => o end.
Definition py_truncate (o : pyobj) (n : Z) : pyobj :=
  match o with
  | PMeta (MList l) => PMeta (MList (firstn (Z.to_nat n) l))
  | _ => o
  end.

(** [self.metadata[name] = o]. *)
Definition store_metadata (o : pyobj) : M unit :=
  match o with
  | PMeta m => modify (set_metadata (Some m))
  | _ => ret tt
  end.

Definition repair_knowledge_base : M repair_report :=
  with_locals (mk_frame initial_report PNone PNone PNone)
    (try_except
       (diagnosis <- self diagnose_knowledge_base ;;
        if (match dg_status diagnosis with StOk => true | _ => false end
            && is_consistent diagnosis)%bool then
          assign (set_result (rp_finish RpSuccess true RMsgNothingToRepair None)) ;;
          return_result
        else
          assign (set_result (rp_set_issues (issues diagnosis))) ;;
          try_except
            (b <- self _load_index ;; assign (set_loc_index (PBool b)))
            (fun _ => ret tt) ;;
          try_except
            (b <- self _load_metadata ;; assign (set_loc_metadata (PBool b)))
            (fun _ => ret tt) ;;
          try_except
            (b <- self _load_file_registry ;;
             assign (set_loc_file_registry (PBool b)))
            (fun _ => ret tt) ;;
          l <- locals ;;
          let index := loc_index l in
          let metadata := loc_metadata l in
          c <- lift (oand (Ret (negb (is_none index)))
                          (ocmp Z.ltb (Ret 0) (py_ntotal index))) ;;
          (if c then
             need <- lift (oor (Ret (is_none metadata))
                            (oand (Ret (isinstance_list metadata))
                               (ocmp (fun a b => negb (a =? b))
                                     (py_len metadata) (py_ntotal index)))) ;;
             if need then
               (if is_none metadata then
                  n <- lift (py_ntotal index) ;;
                  assign (set_loc_metadata
                            (PMeta (MList (map placeholder (range 0 n))))) ;;
                  assign (set_result (rp_add_repair RepCreatedMetadata))
                else
                  c1 <- lift (oand (Ret (isinstance_list metadata))
                                (ocmp Z.ltb (py_len metadata) (py_ntotal index))) ;;
                  if c1 then
                    original_count <- lift (py_len metadata) ;;
                    n <- lift (py_ntotal index) ;;
                    assign (set_loc_metadata
                              (py_extend metadata
                                 (map placeholder (range original_count n)))) ;;
                    assign (set_result
                              (rp_add_repair (RepAddedEntries (n - original_count))))
                  else
                    c2 <- lift (oand (Ret (isinstance_list metadata))
                                  (ocmp Z.gtb (py_len metadata) (py_ntotal index))) ;;
                    if c2 then
                      n <- lift (py_ntotal index) ;;
                      assign (set_loc_metadata (py_truncate metadata n)) ;;
                      assign (set_result (rp_add_repair (RepTruncated n)))
                    else ret tt) ;;
               l <- locals ;;
               self (store_metadata (loc_metadata l)) ;;
               metadata_saved <- self _save_metadata ;;
               if metadata_saved
               then assign (set_result (rp_add_repair RepSavedMetadata))
               else assign (set_result (rp_add_issue IssueSaveRepaired))
             else ret tt
           else
             c' <- lift (oand (oand (oor (Ret (is_none index))
                                        (ocmp Z.eqb (py_ntotal index) (Ret 0)))
                                    (Ret (negb (is_none metadata))))
                              (ocmp Z.gtb (py_len metadata) (Ret 0))) ;;
             if c' then
               assign (set_result (rp_add_issue IssueIndexEmpty)) ;;
               assign (set_result (rp_add_repair RepCannotAuto))
             else ret tt) ;;
          l <- locals ;;
          let file_registry_ := loc_file_registry l in
          c <- lift (oor (Ret (is_none file_registry_))
                         (ocmp Z.eqb (py_len file_registry_) (Ret 0))) ;;
          (if c then
             self (modify (set_file_registry (Some []))) ;;
             registry_saved <- self _save_file_registry ;;
             if registry_saved
             then assign (set_result (rp_add_repair RepCreatedRegistry))
             else assign (set_result (rp_add_issue IssueCreateRegistry))
           else ret tt) ;;
          diagnosis_after <- self diagnose_knowledge_base ;;
          (if is_consistent diagnosis_after then
             assign (set_result (rp_finish RpSuccess true RMsgRepaired None))
           else
             assign (set_result
                       (rp_finish RpError false RMsgStillInconsistent
                                  (Some (issues diagnosis_after))))) ;;
          return_result)
       (fun e =>
          assign (set_result (fun r =>
             rp_finish RpError false (RMsgRepairError e) (remaining_issues r) r)) ;;
          return_result)).

End Store.

(* ================================================================== *)
(** ** Collection names and file paths *)

(** A [str] is held as the string of its UTF-8 bytes. *)

(** The bytes [urllib.parse.quote] never escapes: letters, digits and
    [_ . - ~]. *)
Definition unreserved (c : ascii) : bool :=
  let n := nat_of_ascii c in
  ((Nat.leb 65 n && Nat.leb n 90) || (Nat.leb 97 n && Nat.leb n 122)
   || (Nat.leb 48 n && Nat.leb n 57)
   || Nat.eqb n 95 || Nat.eqb n 46 || Nat.eqb n 45 || Nat.eqb n 126)%bool.

Definition hex_digit (n : nat) : ascii :=
  nth n (list_ascii_of_string "0123456789ABCDEF") "0"%char.

(** ['%{:02X}'.format(byte)] for a byte that is escaped. *)
Definition quote_byte (c : ascii) : string :=
  if unreserved c then String c EmptyString
  else String "%"%char
         (String (hex_digit (Nat.div (nat_of_ascii c) 16))
            (String (hex_digit (Nat.modulo (nat_of_ascii c) 16)) EmptyString)).

(** [urllib.parse.quote(name, safe='')]. *)
Fixpoint quote (name : string) : string :=
  match name with
  | EmptyString => EmptyString
  | String c t => String.append (quote_byte c) (quote t)
  end.

Definition starts_with_slash (p : string) : bool :=
  match p with
  | String c _ => Ascii.eqb c "/"%char
  | EmptyString => false
  end.

Fixpoint ends_with_slash (p : string) : bool :=
  match p with
  | EmptyString => false
  | String c EmptyString => Ascii.eqb c "/"%char
  | String _ t => ends_with_slash t
  end.

(** [os.path.join(a, b)] on a POSIX system. *)
Definition path_join (a b : string) : string :=
  if starts_with_slash b then b
  else match a with
       | EmptyString => b
       | _ => if ends_with_slash a then String.append a b
              else String.append a (String "/"%char b)
       end.

Section Paths.
Variable index_folder : string.

Definition _get_index_path (collection_name : string) : string :=
  path_join index_folder (String.append (quote collection_name) ".index").
Definition _get_metadata_path (collection_name : string) : string :=
  path_join index_folder (String.append (quote collection_name) ".meta").
Definition _get_file_registry_path (collection_name : string) : string :=
  path_join index_folder (String.append (quote collection_name) ".files.json").
Definition _get_file_history_path (collection_name : string) : string :=
  path_join index_folder (String.append (quote collection_name) ".history.json").
Definition _get_collection_info_path : string :=
  path_join index_folder "collections_info.json".
End Paths.

(** [s.endswith(suffix)]. *)
Definition endswith (s suffix : string) : bool :=
  let n := String.length s in
  let k := String.length suffix in
  (Nat.leb k n && String.eqb (substring (n - k) k s) suffix)%bool.

(** [list_collections], on the names [os.listdir(index_folder)] gives:
    every name ending in [.index], without its last six characters. *)
Definition list_collections (listing : list string) : list string :=
  map (fun filename => substring 0 (String.length filename - 6) filename)
      (filter (fun filename => endswith filename ".index") listing).

(** The decoder of [quote]; the source never calls it, the proofs do. *)
Definition hex_value (c : ascii) : option nat :=
  let n := nat_of_ascii c in
  if (Nat.leb 48 n && Nat.leb n 57)%bool then Some (n - 48)%nat
  else if (Nat.leb 65 n && Nat.leb n 70)%bool then Some (n - 55)%nat
  else None.

Fixpoint unquote (s : string) : string :=
  match s with
  | EmptyString => EmptyString
  | String c t =>
      if Ascii.eqb c "%"%char then
        match t with
        | String h (String l t') =>
            match hex_value h, hex_value l with
            | Some a, Some b =>
                String (ascii_of_nat (16 * a + b)) (unquote t')
            | _, _ => String c (unquote t)
            end
        | _ => String c (unquote t)
        end
      else String c (unquote t)
  end.

(* ================================================================== *)
(** ** _match_filter_condition *)

(** A value of a metadata or filter dict as [json] gives it; numbers
    are Python ints. *)
#[warnings="-register-all"]
Inductive json : Type :=
| JNull
| JBool (b : bool)
| JInt (z : Z)
| JStr (s : string)
| JList (l : list json)
| JDict (m : list (string * json)).

(** Python [a == b]: [True == 1], lists by position, dicts by key. *)
Fixpoint py_eq (a b : json) : bool :=
  match a, b with
  | JNull, JNull => true
  | JBool x, JBool y => Bool.eqb x y
  | JBool x, JInt z => (if x then 1 else 0) =? z
  | JInt z, JBool y => z =? (if y then 1 else 0)
  | JInt x, JInt y => x =? y
  | JStr s, JStr t => String.eqb s t
  | JList l1, JList l2 =>
      (fix go (l1 l2 : list json) : bool :=
         match l1, l2 with
         | [], [] => true
         | x :: t, y :: u => (py_eq x y && go t u)%bool
         | _, _ => false
         end) l1 l2
  | JDict m1, JDict m2 =>
      (Nat.eqb (List.length m1) (List.length m2) &&
       (fix go (m1 : list (string * json)) : bool :=
          match m1 with
          | [] => true
          | (k, v) :: t =>
              (match dict_get String.eqb m2 k with
               | Some v' => py_eq v v'
               | None => false
               end && go t)%bool
          end) m1)%bool
  | _, _ => false
  end.

(** [p in s] for two strings. *)
Fixpoint is_substring (p s : string) : bool :=
  (String.prefix p s ||
   match s with
   | EmptyString => false
   | String _ t => is_substring p t
   end)%bool.

(** [part in current] for a string [part]. *)
Definition py_in (part : string) (current : json) : outcome bool :=
  match current with
  | JDict m => Ret (dict_mem String.eqb m part)
  | JStr s => Ret (is_substring part s)
  | JList l => Ret (existsb (py_eq (JStr part)) l)
  | _ => Raise TypeError
  end.

(** [current[part]] for a string [part]. *)
Definition py_getitem (current : json) (part : string) : outcome json :=
  match current with
  | JDict m =>
      match dict_get String.eqb m part with
      | Some v => Ret v
      | None => Raise KeyError
      end
  | _ => Raise TypeError
  end.

(** [key.split(".")]. *)
Fixpoint split_dot_aux (s acc : string) : list string :=
  match s with
  | EmptyString => [acc]
  | String c t =>
      if Ascii.eqb c "."%char then acc :: split_dot_aux t EmptyString
      else split_dot_aux t (String.append acc (String c EmptyString))
  end.
Definition split_dot (key : string) : list string :=
  split_dot_aux key EmptyString.

(** ["." in key]. *)
Fixpoint has_dot (key : string) : bool :=
  match key with
  | EmptyString => false
  | String c t => (Ascii.eqb c "."%char || has_dot t)%bool
  end.

(** [for part in parts[:-1]]: [None] is the [return False] of the
    loop. *)
Fixpoint descend (parts : list string) (current : json)
  : outcome (option json) :=
  match parts with
  | [] => Ret (Some current)
  | part :: rest =>
      match py_in part current with
      | Raise e => Raise e
      | Ret false => Ret None
      | Ret true =>
          match py_getitem current part with
          | Raise e => Raise e
          | Ret c => descend rest c
          end
      end
  end.

(** [last not in current or current[last] != value], negated. *)
Definition holds_at (current : json) (last : string) (value : json)
  : outcome bool :=
  match py_in last current with
  | Raise e => Raise e
  | Ret false => Ret false
  | Ret true =>
      match py_getitem current last with
      | Raise e => Raise e
      | Ret v => Ret (py_eq v value)
      end
  end.

(** One turn of [for key, value in filter_condition.items()]:
    [Ret false] is the [return False] of the turn. *)
Definition condition_holds (metadata : json) (key : string) (value : json)
  : outcome bool :=
  if has_dot key then
    let parts := split_dot key in
    match descend (removelast parts) metadata with
    | Raise e => Raise e
    | Ret None => Ret false
    | Ret (Some current) => holds_at current (last parts EmptyString) value
    end
  else holds_at metadata key value.

Fixpoint conditions_hold (metadata : json) (items : list (string * json))
  : outcome bool :=
  match items with
  | [] => Ret true
  | (key, value) :: rest =>
      match condition_holds metadata key value with
      | Raise e => Raise e
      | Ret false => Ret false
      | Ret true => conditions_hold metadata rest
      end
  end.

Definition _match_filter_condition (metadata : json)
           (filter_condition : list (string * json)) : bool :=
  match conditions_hold metadata filter_condition with
  | Ret b => b
  | Raise _ => false
  end.

(* ================================================================== *)
(** ** Queries and maintenance operations of the manager *)

(** The dict returned by [get_collection_info]. *)
Record collection_summary : Type := mk_summary {
  cs_name : string;
  cs_vector_count : Z;
  cs_dimension : Z;
  cs_index_type : index_kind;       (* type(index).__name__ *)
  cs_file_count : Z
}.

Inductive info_result : Type :=
| InfoError
| InfoOk (c : collection_summary).

(** One element of the list returned by [list_files]. *)
Record file_data : Type := mk_file_data {
  fd_file_name : string;
  fd_file_path : string;
  fd_add_time : option string;
  fd_chunks_count : Z;
  fd_file_size : Z
}.

(** What [get_file_info] returns: one of its three error dicts, or the
    registry value stored under the name. *)
Inductive file_info_result : Type :=
| FICollectionMissing
| FIRegistryUnloadable
| FIFileMissing
| FIValue (v : reg_value).


Section Queries.
Variable E : env.
(** [os.path.getsize] of a document, [None] when it does not exist. *)
Variable getsize : string -> option Z.
(** [int(key)] for a [str]; [None] is [ValueError]. *)
Variable py_int : string -> option Z.

Definition kb_exists : M bool :=
  try_except
    (s <- get ;;
     ret (is_some (index_file s) && is_some (meta_file s))%bool)
    (fun _ => ret false).

Definition get_collection_info : M info_result :=
  ex <- collection_exists ;;
  if negb ex then ret InfoError else
  s <- get ;;
  match indexes s with None => _load_index | Some _ => ret true end ;;
  s <- get ;;
  match file_registry s with
  | None => _load_file_registry
  | Some _ => ret true
  end ;;
  s <- get ;;
  match indexes s, file_registry s with
  | Some index, Some r =>
      ret (InfoOk {| cs_name := collection_name E;
                     cs_vector_count := ntotal index;
                     cs_dimension := d index;
                     cs_index_type := kind index;
                     cs_file_count := len r |})
  | _, _ => raise KeyError
  end.

Definition delete_collection : M bool :=
  ex <- collection_exists ;;
  if negb ex then ret false else
  try_except
    (remove_index ;; remove_metadata ;; remove_registry ;; remove_history ;;
     modify (set_indexes None) ;;
     modify (set_metadata None) ;;
     modify (set_file_registry None) ;;
     modify (set_file_change_history None) ;;
     ret true)
    (fun _ => ret false).

(** Lines 1619-1637: the vector count of the current version, of the
    last version when the current one is not listed, 0 without
    versions. *)
Definition chunks_count_of (file_info : file_record) : Z :=
  match versions file_info with
  | [] => 0
  | vs =>
      match find (fun v => v_version v =? current_version file_info) vs with
      | Some version_info => v_vector_count version_info
      | None => v_vector_count (last vs (mk_version 0 0 [] EmptyString))
      end
  end.

Definition file_entry (fname : string) (file_info : file_record) : file_data :=
  {| fd_file_name := fname;
     fd_file_path := file_path file_info;
     fd_add_time := if String.eqb (added_at file_info) EmptyString then None
                    else Some (added_at file_info);
     fd_chunks_count := chunks_count_of file_info;
     fd_file_size := match getsize (file_path file_info) with
                     | Some n => n
                     | None => 0
                     end |}.

(** One turn of the loop of [list_files]: keys starting with an
    underscore and values that are no dict are skipped. *)
Definition list_item (item : string * reg_value) : list file_data :=
  if startswith_underscore (fst item) then []
  else match snd item with
       | RFile file_info => [file_entry (fst item) file_info]
       | _ => []
       end.

Definition list_files : M (list file_data) :=
  ex <- collection_exists ;;
  if negb ex then ret [] else
  s <- get ;;
  success <- match file_registry s with
             | None => _load_file_registry
             | Some _ => ret true
             end ;;
  if negb success then ret [] else
  try_except
    (s <- get ;;
     let file_registry_ := match file_registry s with
                           | Some r => r
                           | None => []
                           end in
     ret (flat_map list_item file_registry_))
    (fun _ => ret []).

Definition get_file_info (fname : string) : M file_info_result :=
  ex <- collection_exists ;;
  if negb ex then ret FICollectionMissing else
  s <- get ;;
  success <- match file_registry s with
             | None => _load_file_registry
             | Some _ => ret true
             end ;;
  if negb success then ret FIRegistryUnloadable else
  s <- get ;;
  match file_registry s with
  | None => raise KeyError
  | Some r =>
      match reg_get r fname with
      | None => ret FIFileMissing
      | Some v => ret (FIValue v)
      end
  end.

(** ['file_name' in event and event['file_name'] == file_name]. *)
Definition event_of_file (fname : string) (ev : event) : bool :=
  match ev_file_name ev with
  | Some n => String.eqb n fname
  | None => false
  end.

Definition get_file_change_history (fname : option string)
  : M (list event) :=
  ex <- collection_exists ;;
  if negb ex then ret [] else
  s <- get ;;
  match file_change_history s with
  | None => _load_file_history
  | Some _ => ret true
  end ;;
  s <- get ;;
  match file_change_history s with
  | None => raise KeyError
  | Some h =>
      match fname with
      | Some (String c t) => ret (filter (event_of_file (String c t)) h)
      | _ => ret h
      end
  end.


Definition load_collection : M bool :=
  try_except
    (s <- get ;;
     match index_file s with
     | None => ret false
     | Some index =>
         modify (set_indexes (Some index)) ;;
         ok <- try_except
                 (s <- get ;;
                  match meta_file s with
                  | Some m => modify (set_metadata (Some m))
                  | None =>
                      modify (set_metadata (Some (MList []))) ;;
                      write_file E AMeta (set_meta_file (Some (MList [])))
                  end ;;
                  ret true)
                 (fun _ => modify (set_indexes None) ;; ret false) ;;
         if negb ok then ret false else
         ok <- try_except
                 (s <- get ;;
                  match registry_file s with
                  | Some r => modify (set_file_registry (Some r))
                  | None =>
                      modify (set_file_registry (Some [])) ;;
                      write_file E ARegistry (set_registry_file (Some []))
                  end ;;
                  ret true)
                 (fun _ =>
                    modify (set_indexes None) ;;
                    modify (set_metadata None) ;;
                    ret false) ;;
         if negb ok then ret false else
         ok <- try_except
                 (s <- get ;;
                  match history_file s with
                  | Some h => modify (set_file_change_history (Some h))
                  | None =>
                      modify (set_file_change_history (Some [])) ;;
                      write_file E AHistory (set_history_file (Some []))
                  end ;;
                  ret true)
                 (fun _ =>
                    modify (set_indexes None) ;;
                    modify (set_metadata None) ;;
                    modify (set_file_registry None) ;;
                    ret false) ;;
         if negb ok then ret false else
         s <- get ;;
         let vectors_count := match metadata s with
                              | Some m => metadata_len m
                              | None => 0
                              end in
         let files_count := match file_registry s with
                            | Some r => len r
                            | None => 0
                            end in
         _update_collection_stats E (Some vectors_count) (Some files_count) ;;
         ret true
     end)
    (fun _ => ret false).

(** [{"text": f"索引 {i} 的元数据缺失", "missing": True}]. *)
Definition missing_entry (i : Z) : entry :=
  {| text := Some (String.append "索引 "
                     (String.append (str i) " 的元数据缺失"));
     flags := [("missing", true)]; meta := None |}.

(** Lines 2284-2288: the entries at positions below [index_size],
    keyed by the decimal string of their position. *)
Definition dict_of_list (index_size : Z) (l : list entry)
  : list (mkey * entry) :=
  fold_left
    (fun new_metadata im =>
       if fst im <? index_size
       then dict_set mkey_eqb new_metadata (KStr (str (fst im))) (snd im)
       else new_metadata)
    (enumerate_from 0 l) [].

(** Lines 2294-2299. *)
Definition fill_missing (index_size : Z) (m : list (mkey * entry))
  : list (mkey * entry) :=
  fold_left
    (fun metadata i =>
       if (negb (dict_mem mkey_eqb metadata (KStr (str i)))
           && negb (dict_mem mkey_eqb metadata (KInt i)))%bool
       then dict_set mkey_eqb metadata (KStr (str i)) (missing_entry i)
       else metadata)
    (range 0 index_size) m.

(** [int(key) if isinstance(key, str) else key]. *)
Definition key_index (key : mkey) : option Z :=
  match key with
  | KStr s => py_int s
  | KInt i => Some i
  end.

(** Lines 2302-2309. *)
Definition keys_to_remove (index_size : Z) (m : list (mkey * entry))
  : list mkey :=
  filter (fun key => match key_index key with
                     | Some idx => index_size <=? idx
                     | None => false
                     end)
         (map fst m).

(** [for key in keys_to_remove: metadata.pop(key, None)]. *)
Definition pop_keys (m : list (mkey * entry)) (keys : list mkey)
  : list (mkey * entry) :=
  fold_left (fun metadata key => dict_del mkey_eqb metadata key) keys m.

Definition synchronize_index_and_metadata : M bool :=
  s <- get ;;
  match indexes s with None => _load_index | Some _ => ret true end ;;
  s <- get ;;
  match metadata s with None => _load_metadata | Some _ => ret true end ;;
  s <- get ;;
  match indexes s with
  | None => ret false
  | Some index =>
  match metadata s with
  | None => ret false
  | Some metadata0 =>
      try_except
        (let index_size := ntotal index in
         let as_dict := match metadata0 with
                        | MList l => dict_of_list index_size l
                        | MDict m => m
                        end in
         let filled := fill_missing index_size as_dict in
         let kept := pop_keys filled (keys_to_remove index_size filled) in
         modify (set_metadata (Some (MDict kept))) ;;
         _save_metadata E ;;
         ret true)
        (fun _ => ret false)
  end end.

End Queries.

(* ================================================================== *)
(** ** Predicates used in the statements *)

(** The screening test of [add_vectors] for one candidate: there is a
    nearest neighbour and its reported distance is below the threshold. *)
Definition is_duplicate (E : env) (index : faiss_index) (v : vec) : bool :=
  match index_search E index v 1 with
  | Ret ((i, dist) :: _) => (negb (i =? -1) && Qlt_bool dist DEDUP_THRESHOLD)%bool
  | _ => false
  end.

(** Invariant 1 of the data model on the cached collection. *)
Definition sizes_agree (s : manager) : Prop :=
  match indexes s, metadata s with
  | Some index, Some m => metadata_len m = ntotal index
  | _, _ => False
  end.

Definition no_artifacts (s : manager) : bool :=
  match index_file s, meta_file s, registry_file s, history_file s with
  | None, None, None, None => true
  | _, _, _, _ => false
  end.

(** The version a new ingestion of a file receives. *)
Definition next_version (f : file_record) : Z :=
  match versions f with
  | [] => 1
  | vs => max_version vs + 1
  end.

(** The file record stored under [fname], if any. *)
Definition record_of (s : manager) (fname : string) : option file_record :=
  match file_registry s with
  | Some r => match reg_get r fname with
              | Some (RFile f) => Some f
              | _ => None
              end
  | None => None
  end.

(** State invariance and Hoare triples for the monad. *)
Definition preserves {S A} (I : S -> Prop) (m : MS S A) : Prop :=
  forall s, I s -> I (snd (m s)).

Definition hoare {S A} (P : S -> Prop) (m : MS S A)
           (Q : outcome A -> S -> Prop) : Prop :=
  forall s, P s -> Q (fst (m s)) (snd (m s)).

(** Every value a computation returns satisfies [P]. *)
Definition returns {S A} (P : A -> Prop) (m : MS S A) : Prop :=
  forall s, match fst (m s) with Ret a => P a | Raise _ => True end.

(** What [search] computes on a loaded collection. *)
Definition search_answer (E : env) (index : faiss_index) (m : metadata_table)
           (q : vec) (top_k : Z) : list Z * list Q * list entry :=
  if ntotal index =? 0 then ([], [], [])
  else if negb (d index =? len q) then ([], [], [])
  else match index_search E index q (Z.min top_k (ntotal index)) with
       | Raise _ => ([], [], [])
       | Ret hits =>
           match filter (fun h => negb (fst h =? -1)) hits with
           | [] => ([], [], [])
           | valid_pairs =>
               (map fst valid_pairs, map snd valid_pairs,
                map (lookup_metadata m) (map fst valid_pairs))
           end
       end.


(** A computation leaves the component [proj] of the state alone. *)
Definition keeps {S X A} (proj : S -> X) (m : MS S A) : Prop :=
  forall x, preserves (fun s => proj s = x) m.

Definition accepted_pairs (E : env) (index : faiss_index)
           (l : list (vec * entry)) : list (vec * entry) :=
  filter (fun vm => negb (is_duplicate E index (fst vm))) l.

Definition rejected_pairs (E : env) (index : faiss_index)
           (l : list (vec * entry)) : list (vec * entry) :=
  filter (fun vm => is_duplicate E index (fst vm)) l.

(** What the [try] block of [delete_vectors] guarantees when the call
    reports success: the cached index is empty. *)
Definition emptied (o : outcome bool) (s : manager) : Prop :=
  o = Ret true -> exists index, indexes s = Some index /\ ntotal index = 0.

(** What a successful [add_vectors] result carries: the count, the
    file name [fname], and the duplicates counter [dups] if any. *)
Definition success_keys (fname : string) (dups : option Z) (res : add_result)
  : Prop :=
  status res = Success ->
  (exists c, count res = Some c) /\
  result_file_name res = Some fname /\
  duplicates res = dups.

(** The file record of [fname] has the version numbers [nums], in
    order, and the current version [cur]. *)
Definition record_nums (fname : string) (nums : list Z) (cur : Z)
           (s : manager) : Prop :=
  exists f, record_of s fname = Some f /\
            map v_version (versions f) = nums /\
            current_version f = cur.

(** Index, metadata table and registry of the collection are cached. *)
Definition loaded (s : manager) : Prop :=
  indexes s <> None /\ metadata s <> None /\ file_registry s <> None.


(** The state after a computation that did not raise satisfies [J]. *)
Definition on_return {A} (J : manager -> Prop) (o : outcome A) (s : manager)
  : Prop :=
  (exists a, o = Ret a) -> J s.

(** [sizes_agree] for a metadata table that is a list. *)
Definition list_sized (s : manager) : Prop :=
  match indexes s, metadata s with
  | Some index, Some (MList l) => len l = ntotal index
  | _, _ => False
  end.

(** The table [synchronize_index_and_metadata] aims at for a list [l]
    of entries: position [i] under the key [str(i)], holding the
    entry of the list or the placeholder. *)
Definition aligned_slot (l : list entry) (i : Z) : mkey * entry :=
  (KStr (str i), nth (Z.to_nat i) l (missing_entry i)).

Definition aligned_table (l : list entry) (k : nat) : list (mkey * entry) :=
  map (fun i => aligned_slot l (Z.of_nat i)) (seq 0 k).

(** Total correctness: from a state in [P] the computation returns,
    with a value and a final state in [Q]. *)
Definition succeeds {S A} (P : S -> Prop) (m : MS S A) (Q : A -> S -> Prop)
  : Prop :=
  forall s, P s -> exists a, fst (m s) = Ret a /\ Q a (snd (m s)).

(** The registry is cached and what it holds under [fname], if
    anything, is a file record. *)
Definition registrable (fname : string) (s : manager) : Prop :=
  match file_registry s with
  | Some r => match reg_get r fname with
              | Some (RStr _) | Some (RInt _) => False
              | _ => True
              end
  | None => False
  end.

(** The record of [fname] ends with a version of [c] vectors with the
    ids [n], ..., [n + c - 1], which is its current version and whose
    number no older version has. *)
Definition latest_version (fname : string) (n c : Z) (s : manager) : Prop :=
  exists f older v,
    record_of s fname = Some f /\
    versions f = older ++ [v] /\
    v_vector_ids v = range n (n + c) /\
    v_vector_count v = c /\
    current_version f = v_version v /\
    Forall (fun u => v_version u <> v_version v) older.

(** The index is cached and the index file holds it. *)
Definition index_saved (s : manager) : Prop :=
  indexes s <> None /\ index_file s = indexes s.

(** Index and metadata table, cached and on disk, are those of [s0]. *)
Definition same_vectors (s0 s : manager) : Prop :=
  indexes s = indexes s0 /\ metadata s = metadata s0 /\
  index_file s = index_file s0 /\ meta_file s = meta_file s0.

(** The registry is cached and carries the stamp [_last_updated]. *)
Definition stamped (E : env) (s : manager) : Prop :=
  exists r, file_registry s = Some r /\
            reg_get r "_last_updated" = Some (RStr (now E)).

(** The collection [add_vectors] and [delete_file] create on demand:
    a flat index of dimension 512 with empty companions, written and
    cached, beside the change log cached in [s]. *)
Definition created_on_demand (E : env) (s : manager) : manager :=
  let index := new_index IndexFlatL2 512 in
  {| index_file := Some index;
     meta_file := Some (MList []);
     registry_file := Some [];
     history_file := Some [];
     collections_info :=
       Some {| ci_name := collection_name E; ci_dimension := 512;
               ci_index_type := "Flat"; ci_created_at := now E;
               vectors_count := 0; files_count := 0 |};
     indexes := Some index;
     metadata := Some (MList []);
     file_registry := Some [];
     file_change_history := file_change_history s |}.

(** Order of the hits of a search: by distance. *)
Definition closer (a b : hit) : Prop := (snd a <= snd b)%Q.

(* ================================================================== *)
(** ** Scenarios *)

Definition env0 : env :=
  {| collection_name := "kb"; now := "2024-01-01T00:00:00";
     epoch := "1704067200"; writable := fun _ => true;
     approx_candidates := fun _ _ _ => [] |}.

(** The history file cannot be written. *)
Definition env_history_ro : env :=
  {| collection_name := "kb"; now := "2024-01-01T00:00:00";
     epoch := "1704067200";
     writable := fun a => match a with AHistory => false | _ => true end;
     approx_candidates := fun _ _ _ => [] |}.

(** An approximate index that visits only id 0. *)
Definition env_ivf : env :=
  {| collection_name := "kb"; now := "2024-01-01T00:00:00";
     epoch := "1704067200"; writable := fun _ => true;
     approx_candidates := fun _ _ _ => [0%nat] |}.

Definition fresh_manager : manager :=
  mk_manager None None None None None None None None None.

Definition doc (t : string) : entry :=
  {| text := Some t; flags := []; meta := None |}.

Definition v1 : vec := [1; 0; 0; 0]%Q.
Definition v2 : vec := [0; 1; 0; 0]%Q.
Definition v3 : vec := [0; 0; 1; 0]%Q.
Definition v4 : vec := [0; 0; 0; 1]%Q.
Definition v5 : vec := [1; 1; 0; 0]%Q.
Definition v6 : vec := [3; 3; 3; 3]%Q.

(** [create_collection("kb", 4, "Flat")] on an empty folder. *)
Definition kb_created : manager :=
  snd (create_collection env0 4 "Flat" fresh_manager).

(** ... then five vectors inserted for [a.txt]. *)
Definition kb_five : manager :=
  snd (add_vectors env0 [v1; v2; v3; v4; v5]
         [doc "a"; doc "b"; doc "c"; doc "d"; doc "e"]
         (Some "/docs/a.txt") kb_created).

(** ... then one vector inserted for [b.txt]. *)
Definition kb_two_files : manager :=
  snd (add_vectors env0 [v6] [doc "f"] (Some "/docs/b.txt") kb_five).

(** [kb_five] with the metadata file truncated to three entries. *)
Definition kb_truncated : manager :=
  set_meta_file (Some (MList [doc "a"; doc "b"; doc "c"])) kb_five.

(** A collection on disk whose metadata is a JSON object and whose
    registry file is missing. *)
Definition kb_dict_on_disk : manager :=
  mk_manager
    (Some (mk_index IndexFlatL2 4 [v1; v2; v3; v4; v5]))
    (Some (MDict [(KStr "0", doc "a"); (KStr "1", doc "b"); (KStr "2", doc "c");
                  (KStr "3", doc "d"); (KStr "4", doc "e")]))
    None (Some []) None None None None None.

(** ... loaded by the manager's loaders. *)
Definition kb_dict : manager :=
  snd ((_load_index ;; _load_metadata ;; _load_file_registry ;;
        _load_file_history) kb_dict_on_disk).

(** A loaded IVF collection of two vectors. *)
Definition kb_ivf : manager :=
  mk_manager None None None None None
    (Some (mk_index IndexIVFFlat 4 [v1; v2]))
    (Some (MList [doc "a"; doc "b"])) (Some []) (Some []).

(** [kb_dict] with one vector inserted for [b.txt]. *)
Definition kb_dict_added : manager :=
  snd (add_vectors env0 [v6] [doc "f"] (Some "/docs/b.txt") kb_dict).

(** The index file cannot be written. *)
Definition env_index_ro : env :=
  {| collection_name := "kb"; now := "2024-01-01T00:00:00";
     epoch := "1704067200";
     writable := fun a => match a with AIndex => false | _ => true end;
     approx_candidates := fun _ _ _ => [] |}.

(* ================================================================== *)
(** ** Proofs *)

(** *** Rules of the monad *)

Section Rules.
Context {S : Type}.

Lemma preserves_ret {A} (I : S -> Prop) (a : A) : preserves I (ret a).
Proof. intros s H; exact H. Qed.

Lemma preserves_raise {A} (I : S -> Prop) e : preserves I (@raise S A e).
Proof. intros s H; exact H. Qed.

Lemma preserves_get (I : S -> Prop) : preserves I (@get S).
Proof. intros s H; exact H. Qed.

Lemma preserves_lift {A} (I : S -> Prop) (o : outcome A) : preserves I (lift o).
Proof. intros s H; exact H. Qed.

Lemma preserves_modify (I : S -> Prop) f :
  (forall s, I s -> I (f s)) -> preserves I (modify f).
Proof. intros Hf s H; apply Hf, H. Qed.

Lemma preserves_bind {A B} (I : S -> Prop) (m : MS S A) (f : A -> MS S B) :
  preserves I m -> (forall a, preserves I (f a)) -> preserves I (bind m f).
Proof.
  intros Hm Hf s H. unfold bind. specialize (Hm s H).
  destruct (m s) as [[a | e] s']; simpl in *.
  - apply Hf, Hm.
  - exact Hm.
Qed.

Lemma preserves_try {A} (I : S -> Prop) (m : MS S A) h :
  preserves I m -> (forall e, preserves I (h e)) -> preserves I (try_except m h).
Proof.
  intros Hm Hh s H. unfold try_except. specialize (Hm s H).
  destruct (m s) as [[a | e] s']; simpl in *.
  - exact Hm.
  - apply Hh, Hm.
Qed.

Lemma preserves_for_each {A} (I : S -> Prop) (l : list A) body :
  (forall x, preserves I (body x)) -> preserves I (for_each l body).
Proof.
  intros Hb. induction l as [| x t IH]; simpl.
  - apply preserves_ret.
  - apply preserves_bind; [apply Hb | intros _; exact IH].
Qed.

Lemma returns_ret {A} (P : A -> Prop) (a : A) : P a -> returns P (@ret S A a).
Proof. intros H s; exact H. Qed.

Lemma returns_raise {A} (P : A -> Prop) e : returns P (@raise S A e).
Proof. intros s; exact I. Qed.

Lemma returns_bind {A B} (P : B -> Prop) (m : MS S A) (f : A -> MS S B) :
  (forall a, returns P (f a)) -> returns P (bind m f).
Proof.
  intros Hf s. unfold bind.
  destruct (m s) as [[a | e] s']; simpl; [apply Hf | exact I].
Qed.

Lemma returns_try {A} (P : A -> Prop) (m : MS S A) h :
  returns P m -> (forall e, returns P (h e)) -> returns P (try_except m h).
Proof.
  intros Hm Hh s. unfold try_except. specialize (Hm s).
  destruct (m s) as [[a | e] s']; simpl in *; [exact Hm | apply Hh].
Qed.

Lemma hoare_bind {A B} (P : S -> Prop) (R : A -> S -> Prop)
      (m : MS S A) (f : A -> MS S B) (Q : outcome B -> S -> Prop) :
  hoare P m (fun o s => match o with
                        | Ret a => R a s
                        | Raise e => Q (Raise e) s
                        end) ->
  (forall a, hoare (R a) (f a) Q) ->
  hoare P (bind m f) Q.
Proof.
  intros Hm Hf s H. unfold bind. specialize (Hm s H).
  destruct (m s) as [[a | e] s']; simpl in *.
  - apply Hf, Hm.
  - exact Hm.
Qed.

Lemma hoare_try {A} (P : S -> Prop) (X : exn -> S -> Prop)
      (m : MS S A) h (Q : outcome A -> S -> Prop) :
  hoare P m (fun o s => match o with
                        | Ret a => Q (Ret a) s
                        | Raise e => X e s
                        end) ->
  (forall e, hoare (X e) (h e) Q) ->
  hoare P (try_except m h) Q.
Proof.
  intros Hm Hh s H. unfold try_except. specialize (Hm s H).
  destruct (m s) as [[a | e] s']; simpl in *.
  - exact Hm.
  - apply Hh, Hm.
Qed.


Lemma hoare_of_preserves {A} (I : S -> Prop) (m : MS S A) :
  preserves I m -> hoare I m (fun _ s => I s).
Proof. intros Hm s H. apply Hm, H. Qed.
End Rules.

(** Solves [preserves] goals on straight-line code by structure,
    leaving the side conditions of [modify]. *)
Ltac preserve_step :=
  match goal with
  | |- preserves _ (bind _ _) => apply preserves_bind; [| intros ?]
  | |- preserves _ (try_except _ _) => apply preserves_try; [| intros ?]
  | |- preserves _ (for_each _ _) => apply preserves_for_each; intros ?
  | |- preserves _ (ret _) => apply preserves_ret
  | |- preserves _ (raise _) => apply preserves_raise
  | |- preserves _ get => apply preserves_get
  | |- preserves _ (lift _) => apply preserves_lift
  | |- preserves _ (modify _) => apply preserves_modify
  | |- preserves _ (match ?x with _ => _ end) => destruct x
  | |- preserves _ (if ?x then _ else _) => destruct x
  | |- preserves _ (let '(_, _) := ?x in _) => destruct x
  end.

Ltac returns_step :=
  match goal with
  | |- returns _ (bind _ _) => apply returns_bind; intros ?
  | |- returns _ (try_except _ _) => apply returns_try; [| intros ?]
  | |- returns _ (raise _) => apply returns_raise
  | |- returns _ (ret _) => apply returns_ret
  | |- returns _ (match ?x with _ => _ end) => destruct x
  | |- returns _ (if ?x then _ else _) => destruct x
  | |- returns _ (let '(_, _) := ?x in _) => destruct x
  end.

(** *** create_collection *)

Ltac unfold_monad :=
  unfold try_except, bind, ret, raise, get, modify, lift in *.

Lemma create_collection_cases (E : env) (dimension : Z) (index_type : string)
      (s : manager) (index : faiss_index) :
  index_file s = None ->
  index_of_type index_type dimension = Some index ->
  create_collection E dimension index_type s =
    if negb (writable E AIndex) then (Ret false, s)
    else if negb (writable E AMeta) then (Ret false, set_index_file None s)
    else if negb (writable E ARegistry)
         then (Ret false, set_meta_file None (set_index_file None s))
    else if negb (writable E AHistory)
         then (Ret false,
               set_registry_file None (set_meta_file None (set_index_file None s)))
    else if negb (writable E AInfo)
         then (Ret false,
               set_history_file None
                 (set_registry_file None
                    (set_meta_file None (set_index_file None s))))
    else (Ret true,
          set_collections_info
            (Some {| ci_name := collection_name E; ci_dimension := dimension;
                     ci_index_type := index_type; ci_created_at := now E;
                     vectors_count := 0; files_count := 0 |})
            (set_history_file (Some [])
               (set_registry_file (Some [])
                  (set_meta_file (Some (MList []))
                     (set_index_file (Some index) s))))).
Proof.
  intros Hnone Hty.
  unfold create_collection, attempt, _save_collection_info, write_file,
    remove_index, remove_metadata, remove_registry, remove_history.
  unfold_monad. rewrite Hnone, Hty.
  destruct (writable E AIndex); simpl; [| reflexivity].
  destruct (writable E AMeta); simpl; [| reflexivity].
  destruct (writable E ARegistry); simpl; [| reflexivity].
  destruct (writable E AHistory); simpl; [| reflexivity].
  destruct (writable E AInfo); simpl; reflexivity.
Qed.

Lemma create_collection_unsupported (E : env) (dimension : Z)
      (index_type : string) (s : manager) :
  index_file s = None ->
  index_of_type index_type dimension = None ->
  create_collection E dimension index_type s = (Ret false, s).
Proof.
  intros Hnone Hty. unfold create_collection. unfold_monad.
  rewrite Hnone, Hty. reflexivity.
Qed.

(** C8. [create_collection] fails, changing nothing, when the index
    artifact of the collection exists. When it fails otherwise, the
    index file is absent afterwards and each of the metadata, registry
    and history files is either absent or was never written, so a
    folder without artifacts of the collection has none after a failed
    create; and the create does fail whenever one of the five writes
    fails. *)
Theorem create_collection_rollback (E : env) (dimension : Z)
        (index_type : string) (s : manager) :
  (index_file s <> None ->
   create_collection E dimension index_type s = (Ret false, s)) /\
  (index_file s = None ->
   fst (create_collection E dimension index_type s) = Ret false ->
   let s' := snd (create_collection E dimension index_type s) in
   index_file s' = None /\
   (meta_file s' = None \/ meta_file s' = meta_file s) /\
   (registry_file s' = None \/ registry_file s' = registry_file s) /\
   (history_file s' = None \/ history_file s' = history_file s) /\
   collections_info s' = collections_info s /\
   (no_artifacts s = true -> no_artifacts s' = true)) /\
  (index_file s = None ->
   (writable E AIndex && writable E AMeta && writable E ARegistry
    && writable E AHistory && writable E AInfo)%bool = false ->
   fst (create_collection E dimension index_type s) = Ret false).
Proof.
  split; [| split].
  - intros Hex. unfold create_collection. unfold_monad.
    destruct (index_file s); [reflexivity | congruence].
  - intros Hnone.
    destruct (index_of_type index_type dimension) as [index |] eqn:Hty.
    + rewrite (@create_collection_cases E dimension index_type s index Hnone Hty).
      destruct s as [fi fm fr fh ci i m r h]; simpl in Hnone; subst fi.
      unfold no_artifacts.
      destruct (writable E AIndex), (writable E AMeta), (writable E ARegistry),
        (writable E AHistory), (writable E AInfo); simpl;
        intros Hf; try discriminate Hf; repeat split; auto.
      all: destruct fm, fr, fh; simpl; auto.
    + rewrite (@create_collection_unsupported E dimension index_type s Hnone Hty). simpl.
      intros _. repeat split; auto.
  - intros Hnone Hw.
    destruct (index_of_type index_type dimension) as [index |] eqn:Hty.
    + rewrite (@create_collection_cases E dimension index_type s index Hnone Hty).
      destruct (writable E AIndex), (writable E AMeta), (writable E ARegistry),
        (writable E AHistory), (writable E AInfo); simpl in *;
        try reflexivity; discriminate Hw.
    + rewrite (@create_collection_unsupported E dimension index_type s Hnone Hty). reflexivity.
Qed.

Lemma create_collection_rollback_witness :
  fst (create_collection env_history_ro 4 "Flat" fresh_manager) = Ret false /\
  no_artifacts (snd (create_collection env_history_ro 4 "Flat" fresh_manager)) = true.
Proof.
  destruct (create_collection_rollback env_history_ro 4 "Flat" fresh_manager)
    as [_ [H2 H3]].
  assert (Hfail : fst (create_collection env_history_ro 4 "Flat" fresh_manager)
                  = Ret false) by (apply H3; reflexivity).
  split; [exact Hfail |].
  apply (H2 eq_refl Hfail). reflexivity.
Defined.

(** *** search *)

Lemma search_distances_loaded (E : env) (s : manager) index m q top_k :
  indexes s = Some index -> metadata s = Some m ->
  search_distances E q top_k s = (Ret (search_answer E index m q top_k), s).
Proof.
  intros Hi Hm. destruct s as [fi fm fr fh ci i md r h]; simpl in Hi, Hm; subst.
  unfold search_distances, check_and_fix_collection_consistency, search_answer.
  unfold_monad. simpl.
  destruct ((ntotal index =? 0) && (0 <? metadata_len m))%bool;
    [| destruct (negb (ntotal index =? metadata_len m))]; simpl.
  all: destruct (ntotal index =? 0); simpl; try reflexivity.
  all: destruct (d index =? len q); simpl; try reflexivity.
  all: destruct (index_search E index q (Z.min top_k (ntotal index)))
         as [hits | e]; simpl; try reflexivity.
  all: destruct (filter (fun h0 => negb (fst h0 =? -1)) hits); reflexivity.
Qed.

Lemma l2sqr_nonneg (x y : vec) : (0 <= l2sqr x y)%Q.
Proof.
  revert y. induction x as [| a x IH]; intros [| b y]; simpl;
    try apply Qle_refl.
  specialize (IH y).
  assert (H : (0 <= (a - b) * (a - b))%Q).
  { destruct (Qlt_le_dec (a - b) 0) as [Hneg | Hpos].
    - setoid_replace ((a - b) * (a - b))%Q with ((- (a - b)) * (- (a - b)))%Q
        by ring.
      apply Qmult_le_0_compat; apply (Qopp_le_compat (a - b) 0), Qlt_le_weak, Hneg.
    - apply Qmult_le_0_compat; exact Hpos. }
  setoid_replace 0%Q with (0 + 0)%Q by ring.
  apply Qplus_le_compat; assumption.
Qed.

Lemma l2sqr_self (x : vec) : (l2sqr x x == 0)%Q.
Proof.
  induction x as [| a x IH]; simpl; [reflexivity |]. rewrite IH. ring.
Qed.

Lemma in_insert_hit (h x : hit) (l : list hit) :
  In h (insert_hit x l) <-> h = x \/ In h l.
Proof.
  induction l as [| y t IH]; simpl.
  - intuition.
  - destruct (Qle_bool (snd x) (snd y)); simpl; [intuition |].
    rewrite IH. intuition.
Qed.

Lemma in_sort_hits (h : hit) (l : list hit) : In h (sort_hits l) <-> In h l.
Proof.
  induction l as [| y t IH]; simpl; [tauto |].
  rewrite in_insert_hit, IH. intuition.
Qed.

Lemma length_insert_hit (x : hit) (l : list hit) :
  List.length (insert_hit x l) = Datatypes.S (List.length l).
Proof.
  induction l as [| y t IH]; simpl; [reflexivity |].
  destruct (Qle_bool (snd x) (snd y)); simpl; [reflexivity | now rewrite IH].
Qed.

Lemma length_sort_hits (l : list hit) :
  List.length (sort_hits l) = List.length l.
Proof.
  induction l as [| y t IH]; simpl; [reflexivity |].
  now rewrite length_insert_hit, IH.
Qed.

Lemma length_pad_hits (k : nat) (l : list hit) : List.length (pad_hits k l) = k.
Proof.
  unfold pad_hits. rewrite length_app, repeat_length.
  pose proof (firstn_le_length k l). lia.
Qed.

Lemma in_firstn {A} (n : nat) (l : list A) (x : A) :
  In x (firstn n l) -> In x l.
Proof.
  revert l. induction n as [| n IH]; intros [| y t]; simpl; try tauto.
  intros [-> | H]; [now left | right; apply IH, H].
Qed.

Lemma in_score_ids (xs : list vec) (q : vec) (ids : list nat) (h : hit) :
  In h (score_ids xs q ids) -> 0 <= fst h /\ (0 <= snd h)%Q.
Proof.
  unfold score_ids. rewrite in_map_iff. intros [i [<- _]]. simpl.
  split; [lia | apply l2sqr_nonneg].
Qed.

(** A hit that is not the sentinel comes from a stored vector. *)
Lemma index_search_valid (E : env) index q k hits h :
  index_search E index q k = Ret hits -> In h hits -> fst h <> -1 ->
  0 <= fst h /\ (0 <= snd h)%Q.
Proof.
  unfold index_search.
  destruct (negb (len q =? d index)); [discriminate |].
  destruct (k <=? 0); [discriminate |].
  intros [= <-]. unfold pad_hits. rewrite in_app_iff.
  intros [Hin | Hpad] Hne.
  - apply in_firstn in Hin. rewrite in_sort_hits in Hin.
    eapply in_score_ids, Hin.
  - apply repeat_spec in Hpad. subst h. simpl in Hne. congruence.
Qed.





Lemma search_unfold (E : env) (s : manager) index m q top_k :
  indexes s = Some index -> metadata s = Some m ->
  search E q top_k s =
    (Ret (fst (fst (search_answer E index m q top_k)),
          map similarity (snd (fst (search_answer E index m q top_k))),
          snd (search_answer E index m q top_k)), s).
Proof.
  intros Hi Hm. unfold search, bind.
  rewrite (search_distances_loaded E s q top_k Hi Hm).
  destruct (search_answer E index m q top_k) as [[ids ds] ms]. reflexivity.
Qed.

(** An approximate index that visits one of its two vectors answers a
    request for two neighbours with one hit and one sentinel; [search]
    hands back the hit alone. *)
Example search_ivf_drops_sentinel :
  index_search env_ivf (mk_index IndexIVFFlat 4 [v1; v2]) v2 2
  = Ret [(0, 2%Q); no_hit] /\
  fst (search env_ivf v2 5 kb_ivf)
  = Ret ([0], map similarity [2%Q], [doc "a"]).
Proof.
  split; [vm_compute; reflexivity |].
  erewrite search_unfold by reflexivity.
  assert (Ha : search_answer env_ivf (mk_index IndexIVFFlat 4 [v1; v2])
                 (MList [doc "a"; doc "b"]) v2 5 = ([0], [2%Q], [doc "a"]))
    by (vm_compute; reflexivity).
  rewrite Ha. reflexivity.
Qed.







(** *** add_vectors: screening *)

Lemma add_vectors_loaded (E : env) (s : manager) index m r vectors ms fp :
  indexes s = Some index -> metadata s = Some m -> file_registry s = Some r ->
  add_vectors E vectors ms fp s =
    try_except (insert_vectors E (resolve_file_path E fp ms) vectors ms)
               (critical_error E (resolve_file_path E fp ms)) s.
Proof.
  intros Hi Hm Hr.
  destruct s as [fi fm fr fh ci i md rg h]; simpl in Hi, Hm, Hr; subst.
  unfold add_vectors, collection_exists. unfold_monad. simpl. reflexivity.
Qed.

Lemma screen_step_ret (E : env) index av am dc vm acc' :
  screen_step E index (av, am, dc) vm = Ret acc' ->
  acc' = if is_duplicate E index (fst vm) then (av, am, dc + 1)
         else (av ++ [fst vm], am ++ [snd vm], dc).
Proof.
  unfold screen_step, is_duplicate.
  destruct (index_search E index (fst vm) 1) as [[| [i dist] t] | e];
    try discriminate.
  destruct (negb (i =? -1) && Qlt_bool dist DEDUP_THRESHOLD)%bool;
    intros [= <-]; reflexivity.
Qed.

Arguments screen_step : simpl never.

Lemma screen_ret (E : env) index l : forall av am dc acc',
  screen E index (av, am, dc) l = Ret acc' ->
  acc' = (av ++ map fst (accepted_pairs E index l),
          am ++ map snd (accepted_pairs E index l),
          dc + len (rejected_pairs E index l)).
Proof.
  induction l as [| vm t IH]; intros av am dc acc'; simpl.
  - intros [= <-]. unfold len. simpl. now rewrite !app_nil_r, Z.add_0_r.
  - destruct (screen_step E index (av, am, dc) vm) as [[[av1 am1] dc1] | e] eqn:Hs;
      [| discriminate].
    apply screen_step_ret in Hs. intros H. apply IH in H. subst acc'.
    unfold accepted_pairs, rejected_pairs in *. simpl.
    destruct (is_duplicate E index (fst vm)); simpl; injection Hs as -> -> ->.
    + unfold len. cbn [List.length]. f_equal. lia.
    + now rewrite <- !app_assoc.
Qed.

Lemma index_search_one (E : env) index (v : vec) :
  len v = d index ->
  exists h, index_search E index v 1 = Ret [h].
Proof.
  intros Hd. unfold index_search. rewrite Hd, Z.eqb_refl. simpl.
  change (PosDef.Pos.to_nat 1) with 1%nat.
  pose proof (length_pad_hits 1
                (sort_hits (score_ids (xb index) v (candidates E index v)))) as Hl.
  destruct (pad_hits 1 _) as [| h [| h' t]]; simpl in Hl; try discriminate.
  now exists h.
Qed.

Lemma screen_step_total (E : env) index acc (vm : vec * entry) :
  len (fst vm) = d index -> exists acc', screen_step E index acc vm = Ret acc'.
Proof.
  intros Hd. destruct acc as [[av am] dc].
  destruct (index_search_one E index (fst vm) Hd) as [[i dist] Hs].
  destruct (negb (i =? -1) && Qlt_bool dist DEDUP_THRESHOLD)%bool eqn:Hb;
    eexists; unfold screen_step; rewrite Hs, Hb; reflexivity.
Qed.

Lemma screen_total (E : env) index (l : list (vec * entry)) : forall acc,
  Forall (fun vm : vec * entry => len (fst vm) = d index) l ->
  exists acc', screen E index acc l = Ret acc'.
Proof.
  induction l as [| vm t IH]; intros acc Hall; simpl; [eauto |].
  inversion Hall as [| ? ? Hvm Ht]; subst.
  destruct (screen_step_total E index acc vm Hvm) as [acc1 Hs].
  destruct (IH acc1 Ht) as [acc' Hacc]. exists acc'. now rewrite Hs.
Qed.

Lemma accepted_pairs_combine (E : env) index vs : forall ms,
  List.length ms = List.length vs ->
  map fst (accepted_pairs E index (combine vs ms))
  = filter (fun v => negb (is_duplicate E index v)) vs.
Proof.
  unfold accepted_pairs.
  induction vs as [| v t IH]; intros [| m ms] Hl; simpl in *;
    try discriminate; [reflexivity |].
  destruct (is_duplicate E index v); simpl; rewrite IH by lia; reflexivity.
Qed.

(** *** add_vectors: what the append leaves untouched *)

Ltac unfold_store :=
  unfold critical_error, register_file, update_registry_stats, _save_index,
    _save_metadata, _save_file_registry, _record_collection_event,
    _record_file_event, append_event, _save_file_history, write_file.

Create HintDb pres.

(** Discharges [preserves I m] for an invariant [I] that the setters
    occurring in [m] respect by computation. *)
Ltac frame :=
  repeat (first [ solve [eauto 3 with pres nocore]
                | preserve_step
                | progress unfold_store ]);
  try (let s := fresh "s" in let H := fresh "H" in
       intros s H; destruct s; simpl in *;
       repeat match goal with
              | |- context [match ?x with _ => _ end] => destruct x; simpl in *
              end;
       unfold record_nums, record_of, loaded, list_sized in *; simpl in *;
       solve [auto | congruence | intuition congruence]).

Lemma run_preserves {S A} (I : S -> Prop) (m : MS S A) (s : S) :
  preserves I m -> I s -> I (snd (m s)).
Proof. intros H; apply H. Qed.

Lemma append_vectors_indexes (E : env) index vs ms fpath dups (s : manager) :
  indexes (snd (append_vectors E index vs ms fpath dups s)) =
    match index_add index vs with
    | Ret index' => Some index'
    | Raise _ => indexes s
    end.
Proof.
  unfold append_vectors. unfold bind at 1. unfold lift at 1.
  destruct (index_add index vs) as [index' | e]; [| reflexivity].
  unfold bind at 1. unfold modify at 1.
  apply (@run_preserves _ _ (fun s => indexes s = Some index')); [| reflexivity].
  frame.
Qed.

Lemma keeps_run {S X A} (proj : S -> X) (m : MS S A) (s : S) :
  keeps proj m -> proj (snd (m s)) = proj s.
Proof. intros H. apply (H (proj s) s). reflexivity. Qed.

Lemma try_except_keeps {S X A} (proj : S -> X) (m : MS S A) h (s : S) :
  (forall e, keeps proj (h e)) ->
  proj (snd (try_except m h s)) = proj (snd (m s)).
Proof.
  intros Hh. unfold try_except.
  destruct (m s) as [[a | e] s1]; simpl; [reflexivity |].
  apply keeps_run, Hh.
Qed.

Lemma critical_error_keeps_indexes (E : env) fpath e :
  keeps indexes (critical_error E fpath e).
Proof. intros x. frame. Qed.

Lemma record_event_keeps_indexes (E : env) ty dat :
  keeps indexes (_record_collection_event E ty dat).
Proof. intros x. frame. Qed.

Lemma index_add_ret index vs :
  vs <> [] -> Forall (fun v : vec => len v = d index) vs ->
  index_add index vs = Ret (mk_index (kind index) (d index) (xb index ++ vs)).
Proof.
  intros Hne Hall. unfold index_add. destruct vs as [| v t]; [congruence |].
  assert (Hb : forallb (fun v0 : vec => len v0 =? d index) (v :: t) = true).
  { apply forallb_forall. intros x Hx.
    rewrite Forall_forall in Hall. apply Z.eqb_eq, Hall, Hx. }
  unfold vec in *. rewrite Hb. reflexivity.
Qed.

Lemma index_add_cases index vs index' :
  index_add index vs = Ret index' ->
  index' = mk_index (kind index) (d index) (xb index ++ vs).
Proof.
  unfold index_add. destruct vs; [discriminate |].
  destruct (forallb _ _); [| discriminate]. now intros [= <-].
Qed.

(** The cached index after an insert into a non-empty index. *)
Lemma insert_vectors_indexes (E : env) (s : manager) index m fpath vs ms :
  indexes s = Some index -> metadata s = Some m -> ntotal index <> 0 ->
  indexes (snd (try_except (insert_vectors E fpath vs ms)
                           (critical_error E fpath) s)) =
    if negb (len ms =? len vs) then Some index
    else match screen E index ([], [], 0) (combine vs ms) with
         | Raise _ => Some index
         | Ret (av, _, _) =>
             match av with
             | [] => Some index
             | _ => match index_add index av with
                    | Ret index' => Some index'
                    | Raise _ => Some index
                    end
             end
         end.
Proof.
  intros Hi Hm Hne.
  rewrite try_except_keeps by apply critical_error_keeps_indexes.
  unfold insert_vectors. unfold bind at 1. unfold get at 1.
  rewrite Hi, Hm.
  destruct (negb (len ms =? len vs)); [exact Hi |].
  destruct (ntotal index =? 0) eqn:H0; [apply Z.eqb_eq in H0; contradiction |].
  unfold bind at 1. unfold lift at 1.
  destruct (screen E index ([], [], 0) (combine vs ms))
    as [[[av am] dc] | e] eqn:Hs; [| exact Hi].
  destruct av as [| v av'].
  - rewrite <- Hi. apply keeps_run. intros x. frame.
  - rewrite try_except_keeps by (intros e x; frame).
    rewrite append_vectors_indexes.
    destruct (index_add index (v :: av')); [reflexivity | exact Hi].
Qed.

Lemma len_eq_length {A B} (l : list A) (l' : list B) :
  List.length l = List.length l' -> (len l =? len l') = true.
Proof. intros H. unfold len. rewrite H. apply Z.eqb_refl. Qed.

(** C10. In an insert into a loaded collection with a non-empty index,
    every candidate of the batch is screened against the index as it
    was before the call: the index afterwards is the old one followed,
    in order, by the candidates that are not duplicates of an old
    vector. Two equal candidates that match nothing old are thus both
    appended, at consecutive ids. *)
Theorem batch_screened_against_old_index (E : env) (s : manager)
        (index : faiss_index) (m : metadata_table) (r : registry)
        (vs : list vec) (ms : list entry) (fp : option string) :
  indexes s = Some index -> metadata s = Some m -> file_registry s = Some r ->
  ntotal index <> 0 ->
  List.length ms = List.length vs ->
  Forall (fun v : vec => len v = d index) vs ->
  indexes (snd (add_vectors E vs ms fp s)) =
    Some (mk_index (kind index) (d index)
            (xb index ++ filter (fun v => negb (is_duplicate E index v)) vs)) /\
  (forall v : vec,
      vs = [v; v] -> is_duplicate E index v = false ->
      indexes (snd (add_vectors E vs ms fp s)) =
        Some (mk_index (kind index) (d index) (xb index ++ [v; v]))).
Proof.
  intros Hi Hm Hr Hne Hlen Hdim.
  assert (Hmain :
    indexes (snd (add_vectors E vs ms fp s)) =
    Some (mk_index (kind index) (d index)
            (xb index ++ filter (fun v => negb (is_duplicate E index v)) vs))).
  { rewrite (add_vectors_loaded E s vs ms fp Hi Hm Hr).
    rewrite (insert_vectors_indexes E s _ vs ms Hi Hm Hne).
    rewrite (len_eq_length ms vs Hlen). simpl negb. cbv iota.
    destruct (@screen_total E index (combine vs ms) ([], [], 0)) as [acc Hs].
    { rewrite Forall_forall in *. intros [v e] Hin.
      apply in_combine_l in Hin. apply Hdim, Hin. }
    rewrite Hs. apply screen_ret in Hs. subst acc.
    rewrite (accepted_pairs_combine E index vs ms Hlen). simpl app.
    set (acc := filter (fun v => negb (is_duplicate E index v)) vs).
    assert (Hacc : Forall (fun v : vec => len v = d index) acc).
    { rewrite Forall_forall in *. intros v Hin.
      apply filter_In in Hin. apply Hdim, Hin. }
    destruct acc as [| v t] eqn:Eacc.
    - rewrite app_nil_r. destruct index; reflexivity.
    - rewrite index_add_ret; [reflexivity | discriminate | exact Hacc]. }
  split; [exact Hmain |].
  intros v Hvs Hnd. rewrite Hmain. subst vs. simpl. now rewrite Hnd.
Qed.

Lemma batch_screened_against_old_index_witness :
  indexes (snd (add_vectors env0 [v6; v6] [doc "x"; doc "y"]
                  (Some "/docs/c.txt") kb_five)) =
    Some (mk_index IndexFlatL2 4 [v1; v2; v3; v4; v5; v6; v6]) /\
  record_of (snd (add_vectors env0 [v6; v6] [doc "x"; doc "y"]
                    (Some "/docs/c.txt") kb_five)) "c.txt" =
    Some (mk_file "c.txt" "/docs/c.txt" (now env0) 2 (now env0)
            [mk_version 1 2 [5; 6] (now env0)] 1).
Proof.
  split; [| reflexivity].
  destruct (@batch_screened_against_old_index env0 kb_five _ _ _
              [v6; v6] [doc "x"; doc "y"] (Some "/docs/c.txt")
              eq_refl eq_refl eq_refl) as [_ H].
  - discriminate.
  - reflexivity.
  - repeat constructor.
  - exact (H v6 eq_refl eq_refl).
Defined.

(** *** add_vectors: a vector already stored is a duplicate *)

Lemma insert_hit_head_min (y : hit) (sl : list hit) (h : hit) (t : list hit) :
  (forall h' t', sl = h' :: t' -> forall x, In x sl -> (snd h' <= snd x)%Q) ->
  insert_hit y sl = h :: t ->
  forall x, x = y \/ In x sl -> (snd h <= snd x)%Q.
Proof.
  intros Hmin Hins x Hx. destruct sl as [| h' t']; simpl in Hins.
  - injection Hins as <- <-. destruct Hx as [-> | []]. apply Qle_refl.
  - specialize (Hmin h' t' eq_refl).
    destruct (Qle_bool (snd y) (snd h')) eqn:Hle; injection Hins as <- <-.
    + apply Qle_bool_iff in Hle. destruct Hx as [-> | Hx]; [apply Qle_refl |].
      eapply Qle_trans; [exact Hle | apply Hmin, Hx].
    + destruct Hx as [-> | Hx]; [| apply Hmin, Hx].
      destruct (Qlt_le_dec (snd h') (snd y)) as [Hlt | Hge];
        [apply Qlt_le_weak, Hlt |].
      apply Qle_bool_iff in Hge. congruence.
Qed.

Lemma sort_hits_head_min (l : list hit) : forall h t,
  sort_hits l = h :: t -> forall x, In x l -> (snd h <= snd x)%Q.
Proof.
  induction l as [| y l' IH]; intros h t Hs x Hx; [destruct Hx |].
  simpl in Hs.
  apply (@insert_hit_head_min y (sort_hits l') h t); [| exact Hs |].
  - intros h' t' Hsl x' Hx'. apply (IH h' t' Hsl). now apply in_sort_hits.
  - destruct Hx as [<- | Hx]; [now left | right; now apply in_sort_hits].
Qed.

Lemma in_score_ids_nth (xs : list vec) (q v : vec) :
  In v xs ->
  exists i, In (Z.of_nat i, l2sqr q v) (score_ids xs q (seq 0 (List.length xs))).
Proof.
  intros Hin. destruct (In_nth xs v [] Hin) as [i [Hlt Hnth]].
  exists i. unfold score_ids. apply in_map_iff. exists i.
  split; [now rewrite Hnth |]. apply in_seq. lia.
Qed.

(** The nearest neighbour of a stored vector in a flat index is at
    distance zero. *)
Lemma flat_present_is_duplicate (E : env) (index : faiss_index) (v : vec) :
  kind index = IndexFlatL2 -> In v (xb index) -> len v = d index ->
  is_duplicate E index v = true.
Proof.
  intros Hk Hin Hd. unfold is_duplicate, index_search, candidates.
  rewrite Hd, Z.eqb_refl, Hk. simpl negb. cbv iota.
  change (Z.to_nat 1) with 1%nat.
  destruct (in_score_ids_nth (xb index) v v Hin) as [j Hj].
  set (hits := score_ids (xb index) v (seq 0 (List.length (xb index)))) in *.
  destruct (sort_hits hits) as [| [i dist] t] eqn:Hs.
  - apply in_sort_hits in Hj. rewrite Hs in Hj. destruct Hj.
  - assert (Hh : In (i, dist) hits)
      by (apply in_sort_hits; rewrite Hs; now left).
    apply in_score_ids in Hh. destruct Hh as [Hi _]. simpl in Hi.
    pose proof (sort_hits_head_min hits Hs _ Hj) as Hmin. simpl in Hmin.
    rewrite l2sqr_self in Hmin.
    unfold pad_hits. simpl.
    apply andb_true_iff. split.
    + apply negb_true_iff, Z.eqb_neq. lia.
    + unfold Qlt_bool. apply negb_true_iff.
      destruct (Qle_bool DEDUP_THRESHOLD dist) eqn:Hle; [| reflexivity].
      apply Qle_bool_iff in Hle.
      assert (Habs : (DEDUP_THRESHOLD <= 0)%Q) by (eapply Qle_trans; eauto).
      unfold Qle, DEDUP_THRESHOLD in Habs. simpl in Habs. lia.
Qed.

Lemma Qlt_bool_iff (a b : Q) : Qlt_bool a b = true <-> (a < b)%Q.
Proof.
  unfold Qlt_bool. rewrite negb_true_iff. split.
  - intros H. destruct (Qlt_le_dec a b) as [Hlt | Hge]; [exact Hlt |].
    apply Qle_bool_iff in Hge. congruence.
  - intros H. destruct (Qle_bool b a) eqn:Hle; [| reflexivity].
    apply Qle_bool_iff in Hle. exfalso. eapply Qlt_not_le; eauto.
Qed.

(** A Euclidean distance below the threshold has its square, which is
    what the index reports, below the threshold too. *)
Lemma sqrt_below_threshold (dist : Q) :
  (0 <= dist)%Q -> (sqrt (Q2R dist) < Q2R DEDUP_THRESHOLD)%R ->
  (dist < DEDUP_THRESHOLD)%Q.
Proof.
  intros Hpos Hlt. apply Rlt_Qlt.
  apply Qle_Rle in Hpos. rewrite RMicromega.Q2R_0 in Hpos.
  assert (Hc : (Q2R DEDUP_THRESHOLD = 1 / 100)%R).
  { unfold DEDUP_THRESHOLD, Q2R. simpl. lra. }
  rewrite Hc in *.
  pose proof (sqrt_pos (Q2R dist)) as Hs.
  rewrite <- (sqrt_sqrt (Q2R dist) Hpos). nra.
Qed.

Lemma accepted_not_duplicate (E : env) index (l : list (vec * entry)) (v : vec) :
  In v (map fst (accepted_pairs E index l)) -> is_duplicate E index v = false.
Proof.
  unfold accepted_pairs. rewrite in_map_iff. intros [[v' e] [<- Hin]].
  apply filter_In in Hin. destruct Hin as [_ Hb]. simpl in *.
  now apply negb_true_iff in Hb.
Qed.

Lemma accepted_in_batch (E : env) index (vs : list vec) (ms : list entry) (v : vec) :
  In v (map fst (accepted_pairs E index (combine vs ms))) -> In v vs.
Proof.
  unfold accepted_pairs. rewrite in_map_iff. intros [[v' e] [<- Hin]].
  apply filter_In in Hin. destruct Hin as [Hin _].
  now apply in_combine_l in Hin.
Qed.

Lemma near_neighbour_is_duplicate (E : env) index (v : vec) i dist rest :
  index_search E index v 1 = Ret ((i, dist) :: rest) -> i <> -1 ->
  (dist < DEDUP_THRESHOLD)%Q \/ (sqrt (Q2R dist) < Q2R DEDUP_THRESHOLD)%R ->
  is_duplicate E index v = true.
Proof.
  intros Hs Hi Hd. unfold is_duplicate. rewrite Hs.
  apply andb_true_iff. split; [apply negb_true_iff, Z.eqb_neq, Hi |].
  apply Qlt_bool_iff. destruct Hd as [Hd | Hd]; [exact Hd |].
  apply sqrt_below_threshold; [| exact Hd].
  apply (@index_search_valid E index v 1 _ (i, dist) Hs); [now left | exact Hi].
Qed.

Lemma index_nil_r (index : faiss_index) :
  mk_index (kind index) (d index) (xb index ++ []) = index.
Proof. rewrite app_nil_r. destruct index; reflexivity. Qed.

(** The all-duplicates return of [add_vectors] for a one-vector batch. *)
Lemma add_vectors_single_duplicate (E : env) (s : manager) index m r
      (v : vec) (e : entry) fp :
  indexes s = Some index -> metadata s = Some m -> file_registry s = Some r ->
  ntotal index <> 0 -> len v = d index ->
  is_duplicate E index v = true -> writable E AHistory = true ->
  fst (add_vectors E [v] [e] fp s) =
    Ret {| status := Success; message := MsgAllDuplicates 1;
           count := Some 0; duplicates := Some 1;
           result_file_name := Some (basename (resolve_file_path E fp [e])) |}.
Proof.
  intros Hi Hm Hr Hne Hd Hdup Hw.
  rewrite (add_vectors_loaded E s [v] [e] fp Hi Hm Hr).
  destruct (@screen_step_total E index ([], [], 0) (v, e) Hd) as [acc Hs].
  pose proof (screen_step_ret E index [] [] 0 (v, e) Hs) as Hacc.
  simpl in Hacc. rewrite Hdup in Hacc. subst acc.
  destruct (ntotal index =? 0) eqn:H0; [apply Z.eqb_eq in H0; contradiction |].
  destruct s as [fi fm fr fh ci i md rg h]; simpl in Hi, Hm, Hr; subst.
  unfold insert_vectors, _record_collection_event, append_event,
    _save_file_history, write_file.
  unfold_monad. cbn [indexes metadata]. cbn [len List.length Z.of_nat].
  rewrite H0. cbn [negb Z.eqb Pos.eqb combine screen]. rewrite Hs.
  cbn. rewrite Hw. reflexivity.
Qed.

(** C3. In an insert into a loaded collection with a non-empty index,
    the index afterwards is the old one followed by vectors of the
    batch, none of which has a nearest neighbour in the old index at a
    reported distance, or at a Euclidean distance, below 0.01: such a
    candidate gets no position in the index. And inserting alone a
    vector that a flat index already holds returns count 0 and
    duplicates 1 and leaves the index as it was. *)
Theorem duplicate_candidates_discarded (E : env) (s : manager)
        (index : faiss_index) (m : metadata_table) (r : registry)
        (vs : list vec) (ms : list entry) (fp : option string) :
  indexes s = Some index -> metadata s = Some m -> file_registry s = Some r ->
  ntotal index <> 0 ->
  (exists acc : list vec,
      indexes (snd (add_vectors E vs ms fp s)) =
        Some (mk_index (kind index) (d index) (xb index ++ acc)) /\
      (forall v, In v acc -> In v vs) /\
      (forall (v : vec) i dist rest,
          index_search E index v 1 = Ret ((i, dist) :: rest) -> i <> -1 ->
          (dist < DEDUP_THRESHOLD)%Q \/
          (sqrt (Q2R dist) < Q2R DEDUP_THRESHOLD)%R ->
          ~ In v acc)) /\
  (forall (v : vec) (e : entry),
      vs = [v] -> ms = [e] ->
      kind index = IndexFlatL2 -> In v (xb index) -> len v = d index ->
      writable E AHistory = true ->
      exists res,
        fst (add_vectors E vs ms fp s) = Ret res /\
        status res = Success /\ count res = Some 0 /\
        duplicates res = Some 1 /\
        indexes (snd (add_vectors E vs ms fp s)) = Some index).
Proof.
  intros Hi Hm Hr Hne.
  assert (Hacc : exists acc : list vec,
      indexes (snd (add_vectors E vs ms fp s)) =
        Some (mk_index (kind index) (d index) (xb index ++ acc)) /\
      (forall v, In v acc -> In v vs /\ is_duplicate E index v = false)).
  { rewrite (add_vectors_loaded E s vs ms fp Hi Hm Hr).
    rewrite (insert_vectors_indexes E s _ vs ms Hi Hm Hne).
    assert (Hnil : exists acc : list vec,
        Some index = Some (mk_index (kind index) (d index) (xb index ++ acc)) /\
        (forall v, In v acc -> In v vs /\ is_duplicate E index v = false)).
    { exists []. split; [now rewrite index_nil_r | intros v []]. }
    destruct (negb (len ms =? len vs)); [exact Hnil |].
    destruct (screen E index ([], [], 0) (combine vs ms))
      as [[[av am] dc] | e] eqn:Hs; [| exact Hnil].
    apply screen_ret in Hs. injection Hs as Hav _ _. simpl in Hav.
    destruct av as [| v av']; [exact Hnil |].
    destruct (index_add index (v :: av')) as [index' | e] eqn:Ha;
      [| exact Hnil].
    apply index_add_cases in Ha. subst index'.
    exists (v :: av'). split; [reflexivity |].
    intros x Hx. rewrite Hav in Hx. split.
    - eapply accepted_in_batch, Hx.
    - eapply accepted_not_duplicate, Hx. }
  split.
  - destruct Hacc as [acc [Hidx Hall]]. exists acc.
    split; [exact Hidx |]. split; [intros v Hv; apply Hall, Hv |].
    intros v i dist rest Hs Hi' Hd Hin.
    apply Hall in Hin. destruct Hin as [_ Hnd].
    rewrite (near_neighbour_is_duplicate E index v Hs Hi' Hd) in Hnd.
    discriminate Hnd.
  - intros v e -> -> Hk Hin Hd Hw.
    pose proof (flat_present_is_duplicate E index v Hk Hin Hd) as Hdup.
    eexists. split;
      [apply (add_vectors_single_duplicate E s v e fp Hi Hm Hr Hne Hd Hdup Hw) |].
    repeat split.
    destruct Hacc as [acc [Hidx Hall]]. rewrite Hidx.
    destruct acc as [| x acc']; [now rewrite index_nil_r |].
    destruct (Hall x (or_introl eq_refl)) as [Hx Hnd].
    destruct Hx as [<- | []]. congruence.
Qed.

Lemma duplicate_candidates_discarded_witness :
  exists res,
    fst (add_vectors env0 [v1] [doc "again"] (Some "/docs/a.txt") kb_five)
    = Ret res /\
    status res = Success /\ count res = Some 0 /\ duplicates res = Some 1 /\
    indexes (snd (add_vectors env0 [v1] [doc "again"] (Some "/docs/a.txt")
                    kb_five))
    = Some (mk_index IndexFlatL2 4 [v1; v2; v3; v4; v5]).
Proof.
  destruct (@duplicate_candidates_discarded env0 kb_five _ _ _
              [v1] [doc "again"] (Some "/docs/a.txt")
              eq_refl eq_refl eq_refl) as [_ H].
  - discriminate.
  - apply (H v1 (doc "again") eq_refl eq_refl eq_refl).
    + now left.
    + reflexivity.
    + reflexivity.
Defined.

(** *** delete_vectors *)

(** C1, failing input. Five vectors inserted for [a.txt], ids 0 and 1
    deleted: [delete_vectors] returns [False] and changes nothing, so
    the index still holds five vectors, the file record still counts
    five, and its version still lists the ids 3 and 4. *)
Theorem delete_two_of_five_changes_nothing :
  delete_vectors env0 [0; 1] kb_five = (Ret false, kb_five) /\
  option_map ntotal (indexes kb_five) = Some 5 /\
  option_map vector_count (record_of kb_five "a.txt") = Some 5 /\
  option_map (fun f => map v_vector_ids (versions f))
             (record_of kb_five "a.txt") = Some [[0; 1; 2; 3; 4]].
Proof.
  split; [vm_compute; reflexivity |].
  split; [vm_compute; reflexivity |].
  split; vm_compute; reflexivity.
Qed.

(** *** add_vectors: a list metadata table keeps the size of the index *)

Lemma list_sized_sizes_agree (s : manager) : list_sized s -> sizes_agree s.
Proof.
  unfold list_sized, sizes_agree.
  destruct (indexes s); [| tauto].
  destruct (metadata s) as [[l | m] |]; simpl; tauto.
Qed.

Lemma list_update_length {A} (f : A -> A) : forall (l : list A) n,
  List.length (list_update l n f) = List.length l.
Proof.
  induction l as [| x t IH]; intros [| n]; simpl; try reflexivity.
  now rewrite IH.
Qed.

Lemma annotate_list_sized fname fpath idx :
  preserves list_sized
    (modify (fun s : manager =>
       match metadata s with
       | Some cm => set_metadata (Some (annotate_at fname fpath cm idx)) s
       | None => s
       end)).
Proof.
  intros s H. unfold modify. simpl. destruct s; unfold list_sized in *.
  simpl in *. destruct indexes0; [| tauto].
  destruct metadata0 as [[l | m] |]; simpl; try tauto.
  destruct (idx <? len l); simpl; [| exact H].
  unfold len in *. now rewrite list_update_length.
Qed.

#[local] Hint Resolve annotate_list_sized : pres.

Lemma run_modify_bind {B} (f : manager -> manager) (k : unit -> M B) s :
  bind (modify f) k s = k tt (f s).
Proof. reflexivity. Qed.

Lemma append_vectors_list_sized (E : env) index vs ms fpath dups (s : manager) :
  indexes s = Some index -> len ms = len vs -> list_sized s ->
  list_sized (snd (append_vectors E index vs ms fpath dups s)).
Proof.
  intros Hi Hl HI. unfold append_vectors. unfold bind at 1. unfold lift at 1.
  destruct (index_add index vs) as [index' | e] eqn:Ha; [| exact HI].
  apply index_add_cases in Ha. subst index'.
  rewrite run_modify_bind. cbv beta. rewrite run_modify_bind. cbv beta.
  apply run_preserves; [frame |].
  destruct s; unfold list_sized in *; simpl in *. subst.
  destruct metadata0 as [[l | m] |]; simpl; try tauto.
  unfold ntotal in *. simpl. unfold len in *. rewrite !length_app. lia.
Qed.

Lemma try_run {A} (I : manager -> Prop) (m : M A) h (s : manager) :
  I (snd (m s)) -> (forall e, preserves I (h e)) ->
  I (snd (try_except m h s)).
Proof.
  intros Hm Hh. unfold try_except.
  destruct (m s) as [[a | e] s']; simpl in *; [exact Hm | apply Hh, Hm].
Qed.

(** Whatever [add_vectors] returns, on a loaded collection whose
    metadata table is a list as long as the index it leaves one. *)
Lemma add_vectors_keeps_list_sized (E : env) vs ms fp (s : manager) :
  loaded s -> list_sized s -> list_sized (snd (add_vectors E vs ms fp s)).
Proof.
  intros [Hi [Hm Hr]] HI.
  destruct (indexes s) as [index |] eqn:Ei; [| congruence].
  destruct (metadata s) as [m |] eqn:Em; [| congruence].
  destruct (file_registry s) as [r |] eqn:Er; [| congruence].
  rewrite (add_vectors_loaded E s vs ms fp Ei Em Er).
  set (fpath := resolve_file_path E fp ms).
  apply try_run; [| intros e; frame].
  unfold insert_vectors. unfold bind at 1. unfold get at 1.
  rewrite Ei, Em.
  destruct (negb (len ms =? len vs)) eqn:Hlen; [exact HI |].
  apply negb_false_iff, Z.eqb_eq in Hlen.
  destruct (ntotal index =? 0).
  - apply try_run; [| intros e; frame].
    apply append_vectors_list_sized; assumption.
  - unfold bind at 1. unfold lift at 1.
    destruct (screen E index ([], [], 0) (combine vs ms))
      as [[[av am] dc] | e] eqn:Hs; [| exact HI].
    apply screen_ret in Hs. injection Hs as -> -> ->. simpl app.
    destruct (map fst (accepted_pairs E index (combine vs ms))) eqn:Hav.
    + apply run_preserves; [frame | exact HI].
    + rewrite <- Hav. apply try_run; [| intros e; frame].
      apply append_vectors_list_sized; [exact Ei | | exact HI].
      unfold len. now rewrite !length_map.
Qed.

(** C2, failing input. On the collection with a dict metadata table
    and an empty registry the sizes agree; [delete_vectors] of ids 0
    and 1 returns [True] and leaves an empty index beside three
    metadata entries. *)
Theorem delete_breaks_size_invariant :
  sizes_agree kb_dict /\
  fst (delete_vectors env0 [0; 1] kb_dict) = Ret true /\
  option_map ntotal (indexes (snd (delete_vectors env0 [0; 1] kb_dict)))
  = Some 0 /\
  option_map metadata_len (metadata (snd (delete_vectors env0 [0; 1] kb_dict)))
  = Some 3 /\
  ~ sizes_agree (snd (delete_vectors env0 [0; 1] kb_dict)).
Proof.
  split; [vm_compute; reflexivity |].
  split; [vm_compute; reflexivity |].
  split; [vm_compute; reflexivity |].
  split; [vm_compute; reflexivity |].
  intros H. vm_compute in H. discriminate H.
Qed.

(** *** diagnose_knowledge_base, repair_knowledge_base *)

(** [diagnose_knowledge_base] never reports a consistent collection:
    its locals hold the loaders' [bool] results. *)
Lemma diagnose_never_consistent (s : manager) :
  exists dg, fst (diagnose_knowledge_base s) = Ret dg /\
             is_consistent dg = false.
Proof.
  destruct s as [fi fm fr fh ci i md r h].
  destruct i, fi, fm, fr; eexists; split; vm_compute; reflexivity.
Qed.

(** C7, failing input. Index of five vectors, metadata file truncated
    to three entries: the diagnosis is inconsistent but lists no size
    mismatch, the repair fails without padding, and the diagnosis after
    it is still inconsistent. *)
Theorem diagnose_repair_truncated :
  (exists dg, fst (diagnose_knowledge_base kb_truncated) = Ret dg /\
     is_consistent dg = false /\
     issues dg = [IssueLoadIndex AttributeError; IssueLoadMetadata TypeError;
                  IssueLoadRegistry TypeError; IssueDiagnose AttributeError]) /\
  (exists rp, fst (repair_knowledge_base env0 kb_truncated) = Ret rp /\
     success rp = false /\ repairs_made rp = [] /\
     rp_message rp = RMsgRepairError AttributeError) /\
  option_map metadata_len
    (metadata (snd (repair_knowledge_base env0 kb_truncated))) = Some 3 /\
  option_map metadata_len
    (meta_file (snd (repair_knowledge_base env0 kb_truncated))) = Some 3 /\
  (exists dg, fst (diagnose_knowledge_base
                     (snd (repair_knowledge_base env0 kb_truncated))) = Ret dg /\
     is_consistent dg = false).
Proof.
  split.
  { eexists. split; [vm_compute; reflexivity |].
    split; vm_compute; reflexivity. }
  split.
  { eexists. split; [vm_compute; reflexivity |].
    split; [vm_compute; reflexivity |].
    split; vm_compute; reflexivity. }
  split; [vm_compute; reflexivity |].
  split; [vm_compute; reflexivity |].
  eexists. split; vm_compute; reflexivity.
Qed.

Lemma hoare_skip {S A B} (m : MS S A) (f : A -> MS S B)
      (Q : outcome B -> S -> Prop) :
  (forall e s, Q (Raise e) s) ->
  (forall a, hoare (fun _ => True) (f a) Q) ->
  hoare (fun _ => True) (bind m f) Q.
Proof.
  intros Hr Hf. apply hoare_bind with (R := fun _ _ => True); [| exact Hf].
  intros s _. destruct (m s) as [[a | e] s']; simpl; [exact I | apply Hr].
Qed.

Lemma emptied_raise e s : emptied (Raise e) s.
Proof. intros H; discriminate H. Qed.

Lemma delete_vectors_empties_index (E : env) (ids : list Z) :
  hoare (fun _ => True) (delete_vectors E ids) emptied.
Proof.
  unfold delete_vectors.
  apply hoare_skip; [apply emptied_raise | intros ex].
  destruct (negb ex); [intros s _ H; discriminate H |].
  do 8 (apply hoare_skip; [apply emptied_raise | intros ?]).
  intros s _.
  match goal with
  | |- emptied (fst ?X) (snd ?X) => remember X as res eqn:Hres
  end.
  assert (Hfalse : forall s', res = (Ret false, s') -> emptied (fst res) (snd res))
    by (intros s' ->; intros H; discriminate H).
  unfold try_except in Hres. unfold bind at 1 in Hres. unfold get at 1 in Hres.
  destruct (indexes s) as [index |] eqn:Hi; [| eapply Hfalse, Hres].
  destruct (ntotal index =? 0) eqn:H0.
  { subst res. intros _. exists index. split; [exact Hi | now apply Z.eqb_eq]. }
  unfold bind at 1 in Hres.
  destruct (metadata s) as [m |]; [| eapply Hfalse, Hres].
  unfold ret at 1 in Hres. unfold bind at 1 in Hres. unfold lift at 1 in Hres.
  destruct (rebuild_metadata m ids (range 0 (ntotal index)) [])
    as [new_metadata | e]; [| eapply Hfalse, Hres].
  unfold bind at 1 in Hres.
  destruct (file_registry s) as [r |]; [| eapply Hfalse, Hres].
  unfold ret at 1 in Hres. unfold bind at 1 in Hres.
  destruct (for_each r (prune_file E ids) s) as [[u | e] s1];
    [| eapply Hfalse, Hres].
  unfold bind at 1 in Hres. unfold modify at 1 in Hres.
  match type of Hres with
  | _ = (let (_, _) := ?rest ?s3 in _) =>
      assert (Hk : indexes (snd (rest s3)) = indexes s3)
        by (apply keeps_run; intros x; frame);
      destruct (rest s3) as [[b | e] s4]
  end; [| eapply Hfalse, Hres].
  subst res. simpl in *. intros _. eexists. split; [exact Hk | reflexivity].
Qed.

(** *** add_vectors: the returned dict *)

Lemma append_vectors_returns (E : env) index vs ms fpath dups :
  returns (success_keys (basename fpath) dups)
          (append_vectors E index vs ms fpath dups).
Proof.
  unfold append_vectors. repeat returns_step.
  - intros H. discriminate H.
  - intros _. repeat split. eexists. reflexivity.
Qed.


Lemma critical_error_returns (E : env) fname dups fpath e :
  returns (success_keys fname dups) (critical_error E fpath e).
Proof. unfold critical_error. repeat returns_step. intros H; discriminate H. Qed.

Lemma returns_run {S A} (P : A -> Prop) (m : MS S A) (s : S) a :
  returns P m -> fst (m s) = Ret a -> P a.
Proof. intros H Hm. specialize (H s). now rewrite Hm in H. Qed.






(** *** replace_file: version numbers of a file record *)

Lemma reg_get_set_same (r : registry) k v : reg_get (reg_set r k v) k = Some v.
Proof.
  unfold reg_get, reg_set. induction r as [| [k' v'] t IH]; simpl.
  - now rewrite String.eqb_refl.
  - destruct (String.eqb k k') eqn:Hk; simpl; rewrite Hk; [reflexivity | exact IH].
Qed.

Lemma reg_get_set_other (r : registry) k k' v :
  String.eqb k' k = false -> reg_get (reg_set r k v) k' = reg_get r k'.
Proof.
  intros Hne. unfold reg_get, reg_set.
  induction r as [| [k0 v0] t IH]; simpl.
  - now rewrite Hne.
  - destruct (String.eqb k k0) eqn:Hk; simpl.
    + apply String.eqb_eq in Hk. subst k0. now rewrite Hne.
    + destruct (String.eqb k' k0); [reflexivity | exact IH].
Qed.

Lemma not_underscore_key (fname k : string) :
  startswith_underscore fname = false -> startswith_underscore k = true ->
  String.eqb fname k = false.
Proof.
  intros Hf Hk. apply String.eqb_neq. intros ->. congruence.
Qed.

Lemma max_version_nums (vs vs' : list version) :
  map v_version vs = map v_version vs' -> max_version vs = max_version vs'.
Proof.
  unfold max_version. intros H.
  assert (Hhd : v_version (hd (mk_version 0 0 [] "") vs)
                = v_version (hd (mk_version 0 0 [] "") vs')).
  { destruct vs, vs'; simpl in *; try discriminate; congruence. }
  rewrite Hhd. clear Hhd. revert vs' H.
  induction vs as [| v t IH]; intros [| v' t'] H; simpl in *;
    try discriminate; [reflexivity |].
  injection H as Hv Ht.
  rewrite Hv. f_equal.
  generalize (v_version (hd (mk_version 0 0 [] "") (v' :: t'))). intros z.
  clear -Ht. revert t' Ht.
  induction t as [| a t IH]; intros [| a' t'] Ht; simpl in *;
    try discriminate; [reflexivity |].
  injection Ht as Ha Ht. rewrite Ha. f_equal. apply IH, Ht.
Qed.

Lemma next_version_nums (f f' : file_record) :
  map v_version (versions f) = map v_version (versions f') ->
  next_version f = next_version f'.
Proof.
  intros H. unfold next_version.
  pose proof (max_version_nums _ _ H) as Hm.
  destruct (versions f), (versions f'); simpl in H; try discriminate;
    [reflexivity | now rewrite Hm].
Qed.

Lemma map_list_update {A B} (g : A -> B) (l : list A) (j : nat) (v v' : A) :
  nth_error l j = Some v -> g v' = g v ->
  map g (list_update l j (fun _ => v')) = map g l.
Proof.
  revert j. induction l as [| x t IH]; intros [| j] Hn Hg; simpl in *;
    try discriminate.
  - injection Hn as ->. now rewrite Hg.
  - f_equal. apply IH; assumption.
Qed.

Lemma preserves_get_bind {S A} (I : S -> Prop) (f : S -> MS S A) :
  (forall s, I s -> I (snd (f s s))) -> preserves I (bind get f).
Proof. intros H s HI. unfold bind, get. apply H, HI. Qed.

Lemma record_nums_set_registry fname nums cur (s : manager) r r' :
  file_registry s = Some r ->
  reg_get r' fname = reg_get r fname ->
  record_nums fname nums cur s ->
  record_nums fname nums cur (set_file_registry (Some r') s).
Proof.
  intros Hr Hget [f [Hrec H]]. exists f. split; [| exact H].
  unfold record_of in *. rewrite Hr in Hrec. simpl. now rewrite Hget.
Qed.

Lemma update_registry_stats_record_nums (E : env) fname nums cur n :
  startswith_underscore fname = false ->
  preserves (record_nums fname nums cur) (update_registry_stats E n).
Proof.
  intros Hf. unfold update_registry_stats. apply preserves_get_bind.
  intros s HI. destruct (file_registry s) as [r |] eqn:Hr; [| exact HI].
  unfold modify. simpl.
  eapply record_nums_set_registry; [exact Hr | | exact HI].
  rewrite !reg_get_set_other by (apply not_underscore_key; auto).
  reflexivity.
Qed.

Lemma save_file_registry_record_nums (E : env) fname nums cur :
  startswith_underscore fname = false ->
  preserves (record_nums fname nums cur) (_save_file_registry E).
Proof.
  intros Hf. unfold _save_file_registry. apply preserves_try;
    [| intros e; apply preserves_ret].
  apply preserves_get_bind. intros s HI.
  destruct (file_registry s) as [r |] eqn:Hr; [| exact HI].
  assert (Hne : r <> []).
  { destruct HI as [f [Hrec _]]. unfold record_of in Hrec.
    rewrite Hr in Hrec. intros ->. discriminate Hrec. }
  destruct r as [| kv t]; [congruence |].
  set (r := kv :: t) in *.
  destruct (count_files (reg_set r "_last_updated" (RStr (now E)))) as [fc vc].
  unfold bind at 1. unfold modify at 1.
  apply (@run_preserves _ _ (record_nums fname nums cur)).
  - unfold write_file. frame.
  - eapply record_nums_set_registry; [exact Hr | | exact HI].
    rewrite !reg_get_set_other by (apply not_underscore_key; auto).
    reflexivity.
Qed.

Lemma prune_version_record_nums (E : env) fname nums cur fname' ids j :
  preserves (record_nums fname nums cur) (prune_version E fname' ids j).
Proof.
  unfold prune_version. apply preserves_get_bind. intros s HI.
  destruct (file_registry s) as [r |] eqn:Hr; [| exact HI].
  destruct (reg_get r fname') as [[f0 | |] |] eqn:Hg; try exact HI.
  destruct (nth_error (versions f0) j) as [v |] eqn:Hv; [| exact HI].
  unfold bind at 1. unfold modify at 1.
  apply (@run_preserves _ _ (record_nums fname nums cur)); [frame |].
  unfold set_version. rewrite Hg.
  destruct (String.eqb fname fname') eqn:Hk.
  - apply String.eqb_eq in Hk. subst fname'.
    destruct HI as [f [Hrec [Hn Hc]]]. unfold record_of in Hrec.
    rewrite Hr, Hg in Hrec. injection Hrec as <-.
    eexists. split; [| split].
    + unfold record_of. simpl. rewrite reg_get_set_same. reflexivity.
    + simpl. rewrite <- Hn. eapply map_list_update; [exact Hv | reflexivity].
    + exact Hc.
  - eapply record_nums_set_registry; [exact Hr | | exact HI].
    apply reg_get_set_other, Hk.
Qed.

#[local] Hint Resolve update_registry_stats_record_nums
  save_file_registry_record_nums prune_version_record_nums : pres.



Lemma preserves_delete_vectors_loaded (E : env) ids :
  preserves loaded (delete_vectors E ids).
Proof.
  unfold delete_vectors, collection_exists, _load_index, _load_metadata,
    _load_file_registry, _load_file_history, prune_file, prune_version.
  frame.
Qed.


Lemma on_return_raise {A} (J : manager -> Prop) e s :
  on_return (A := A) J (Raise e) s.
Proof. intros [a H]. discriminate H. Qed.

Lemma hoare_step_preserves {A B} (I J : manager -> Prop)
      (m : M A) (f : A -> M B) :
  preserves I m ->
  (forall a, hoare I (f a) (on_return J)) ->
  hoare I (bind m f) (on_return J).
Proof.
  intros Hm Hf. apply hoare_bind with (R := fun _ s => I s); [| exact Hf].
  intros s HI. specialize (Hm s HI).
  destruct (m s) as [[a | e] s']; simpl in *;
    [exact Hm | apply on_return_raise].
Qed.

Lemma hoare_step_change {A B} (I J K : manager -> Prop)
      (m : M A) (f : A -> M B) :
  (forall s, I s -> K (snd (m s))) ->
  (forall a, hoare K (f a) (on_return J)) ->
  hoare I (bind m f) (on_return J).
Proof.
  intros Hm Hf. apply hoare_bind with (R := fun _ s => K s); [| exact Hf].
  intros s HI. specialize (Hm s HI).
  destruct (m s) as [[a | e] s']; simpl in *;
    [exact Hm | apply on_return_raise].
Qed.

Lemma hoare_get_bind {S A} (I : S -> Prop) (f : S -> MS S A)
      (Q : outcome A -> S -> Prop) :
  (forall s0, I s0 -> hoare (fun s => s = s0) (f s0) Q) ->
  hoare I (bind get f) Q.
Proof. intros H s HI. unfold bind, get. apply (H s HI s eq_refl). Qed.

Lemma hoare_last {A} (J : manager -> Prop) (m : M A) :
  preserves J m -> hoare J m (on_return J).
Proof. intros Hm s HJ _. apply Hm, HJ. Qed.



Lemma error_event_status (E : env) ty dat msg :
  returns (fun res => status res = Error)
          (_record_collection_event E ty dat ;; ret (error_result msg)).
Proof. repeat returns_step. reflexivity. Qed.


Lemma append_vectors_count (E : env) index vs ms fpath dups (s : manager) res :
  fst (append_vectors E index vs ms fpath dups s) = Ret res ->
  status res = Success -> count res = Some (len vs) /\ vs <> [].
Proof.
  unfold append_vectors. unfold bind at 1. unfold lift at 1.
  destruct (index_add index vs) as [index' | e] eqn:Ha; [| discriminate].
  assert (Hne : vs <> []) by (intros ->; discriminate Ha).
  apply index_add_cases in Ha. subst index'.
  intros Hres Hok. split; [| exact Hne].
  assert (Hlen : ntotal (mk_index (kind index) (d index) (xb index ++ vs))
                 - ntotal index = len vs).
  { unfold ntotal, len. simpl. rewrite length_app. lia. }
  rewrite <- Hlen. clear Hlen. revert Hok.
  eapply (@returns_run _ _
           (fun r => status r = Success ->
                     count r = Some (ntotal (mk_index (kind index) (d index)
                                                      (xb index ++ vs))
                                     - ntotal index)));
    [| exact Hres].
  unfold update_registry_stats. repeat returns_step.
  - intros H. discriminate H.
  - intros _. reflexivity.
Qed.


Arguments delete_vectors : simpl never.
Arguments add_vectors : simpl never.


Lemma replace_file_unfold (E : env) (s : manager) index m r f fpath vs ms :
  indexes s = Some index -> metadata s = Some m -> file_registry s = Some r ->
  reg_get r (basename fpath) = Some (RFile f) ->
  replace_file E fpath vs ms s =
    match
      match find (fun v => v_version v =? current_version f) (versions f) with
      | Some cv => delete_vectors E (v_vector_ids cv) s
      | None => (Ret true, s)
      end
    with
    | (Ret _, s1) =>
        match add_vectors E vs ms (Some fpath) s1 with
        | (Ret res, s2) => (Ret (RDict res), s2)
        | (Raise _, s2) => (Ret RFalse, s2)
        end
    | (Raise _, s1) => (Ret RFalse, s1)
    end.
Proof.
  intros Hi Hm Hr Hg.
  destruct s as [fi fm fr fh ci i md rg h]; simpl in Hi, Hm, Hr; subst.
  unfold replace_file, collection_exists. unfold_monad. simpl.
  rewrite Hg.
  destruct (find (fun v => v_version v =? current_version f) (versions f))
    as [cv |].
  - destruct (delete_vectors E (v_vector_ids cv) _) as [[b | e] s1];
      [| reflexivity].
    destruct (add_vectors E vs ms (Some fpath) s1) as [[res | e] s2];
      reflexivity.
  - destruct (add_vectors E vs ms (Some fpath) _) as [[res | e] s2];
      reflexivity.
Qed.






(* ================================================================== *)
(** ** Further properties: names and paths *)

Lemma list_ascii_append (a b : string) :
  list_ascii_of_string (String.append a b)
  = list_ascii_of_string a ++ list_ascii_of_string b.
Proof. induction a as [| c a IH]; simpl; [reflexivity | now rewrite IH]. Qed.

Lemma list_ascii_inj (a b : string) :
  list_ascii_of_string a = list_ascii_of_string b -> a = b.
Proof.
  intros H. rewrite <- (string_of_list_ascii_of_string a),
                    <- (string_of_list_ascii_of_string b).
  now rewrite H.
Qed.

Lemma append_inv_head (p a b : string) :
  String.append p a = String.append p b -> a = b.
Proof. induction p as [| c p IH]; simpl; [auto | intros [= H]; auto]. Qed.

Lemma append_inv_tail (a b t : string) :
  String.append a t = String.append b t -> a = b.
Proof.
  intros H. apply list_ascii_inj. apply (f_equal list_ascii_of_string) in H.
  rewrite !list_ascii_append in H. now apply app_inv_tail in H.
Qed.

Lemma append_assoc (a b c : string) :
  String.append (String.append a b) c = String.append a (String.append b c).
Proof. induction a as [| x a IH]; simpl; [reflexivity | now rewrite IH]. Qed.

Lemma length_append (a b : string) :
  String.length (String.append a b) = (String.length a + String.length b)%nat.
Proof. induction a as [| x a IH]; simpl; [reflexivity | now rewrite IH]. Qed.

(** Decoding what [quote_byte] wrote gives the byte back. *)
Lemma unquote_quote_byte (c : ascii) (rest : string) :
  unquote (String.append (quote_byte c) rest) = String c (unquote rest).
Proof.
  destruct c as [[] [] [] [] [] [] [] []]; reflexivity.
Qed.

Lemma unquote_quote (name : string) : unquote (quote name) = name.
Proof.
  induction name as [| c t IH]; simpl; [reflexivity |].
  now rewrite unquote_quote_byte, IH.
Qed.

Lemma quote_byte_safe (c : ascii) :
  forallb (fun x => (unreserved x || Ascii.eqb x "%"%char)%bool)
          (list_ascii_of_string (quote_byte c)) = true.
Proof.
  destruct c as [[] [] [] [] [] [] [] []]; reflexivity.
Qed.

Lemma quote_length (name : string) :
  (String.length name <= String.length (quote name))%nat.
Proof.
  induction name as [| c t IH]; simpl; [lia |].
  rewrite length_append. unfold quote_byte.
  destruct (unreserved c); simpl; lia.
Qed.

Lemma quote_unreserved (name : string) :
  forallb (fun x => (unreserved x || Ascii.eqb x "%"%char)%bool)
          (list_ascii_of_string (quote name)) = true.
Proof.
  induction name as [| c t IH]; simpl; [reflexivity |].
  rewrite list_ascii_append, forallb_app, quote_byte_safe. exact IH.
Qed.

Lemma quote_no_slash (name : string) :
  forallb (fun x => negb (Ascii.eqb x "/"%char))
          (list_ascii_of_string (quote name)) = true.
Proof.
  induction name as [| c t IH]; simpl; [reflexivity |].
  rewrite list_ascii_append, forallb_app, IH, andb_true_r.
  destruct c as [[] [] [] [] [] [] [] []]; reflexivity.
Qed.

Lemma quote_fixed (name : string) :
  quote name = name <->
  forallb unreserved (list_ascii_of_string name) = true.
Proof.
  induction name as [| c t IH]; simpl; [tauto |].
  unfold quote_byte. destruct (unreserved c) eqn:Hc; simpl.
  - split; intros H.
    + injection H as H. now apply IH.
    + f_equal. now apply IH.
  - split; [| discriminate]. intros H. exfalso.
    injection H as _ H. apply (f_equal String.length) in H.
    simpl in H. pose proof (quote_length t). lia.
Qed.

(** [quote] writes only unreserved bytes and [%], so never a path
    separator, and it leaves a name as it is exactly when every byte
    of the name is unreserved. *)
Theorem quote_safe (name : string) :
  forallb (fun x => (unreserved x || Ascii.eqb x "%"%char)%bool)
          (list_ascii_of_string (quote name)) = true /\
  forallb (fun x => negb (Ascii.eqb x "/"%char))
          (list_ascii_of_string (quote name)) = true /\
  (quote name = name <->
   forallb unreserved (list_ascii_of_string name) = true).
Proof.
  split; [apply quote_unreserved |].
  split; [apply quote_no_slash | apply quote_fixed].
Qed.

Lemma quote_suffix_not_slash (name suffix : string) :
  starts_with_slash suffix = false ->
  starts_with_slash (String.append (quote name) suffix) = false.
Proof.
  intros Hs. destruct name as [| c t]; simpl; [exact Hs |].
  rewrite append_assoc.
  destruct c as [[] [] [] [] [] [] [] []]; reflexivity.
Qed.

Lemma path_join_inj (folder a b : string) :
  starts_with_slash a = false -> starts_with_slash b = false ->
  path_join folder a = path_join folder b -> a = b.
Proof.
  unfold path_join. intros -> ->.
  destruct folder as [| c t]; [auto |].
  destruct (ends_with_slash (String c t)); intros H.
  - now apply append_inv_head in H.
  - apply append_inv_head in H. now injection H.
Qed.

(** Two collections never share a file: the four paths of a
    collection determine its name. *)
Theorem collection_paths_injective (folder a b : string) :
  a <> b ->
  _get_index_path folder a <> _get_index_path folder b /\
  _get_metadata_path folder a <> _get_metadata_path folder b /\
  _get_file_registry_path folder a <> _get_file_registry_path folder b /\
  _get_file_history_path folder a <> _get_file_history_path folder b.
Proof.
  intros Hab.
  assert (Hinj : forall suffix, starts_with_slash suffix = false ->
            path_join folder (String.append (quote a) suffix)
            = path_join folder (String.append (quote b) suffix) -> False).
  { intros suffix Hs H. apply Hab.
    apply path_join_inj in H; try (apply quote_suffix_not_slash; exact Hs).
    apply append_inv_tail in H.
    rewrite <- (unquote_quote a), <- (unquote_quote b). now rewrite H. }
  repeat split; intros H; eapply Hinj; try exact H; reflexivity.
Qed.

Lemma collection_paths_injective_witness :
  _get_index_path "db" "kb" <> _get_index_path "db" "kb 2" /\
  _get_metadata_path "db" "kb" <> _get_metadata_path "db" "kb 2" /\
  _get_file_registry_path "db" "kb" <> _get_file_registry_path "db" "kb 2" /\
  _get_file_history_path "db" "kb" <> _get_file_history_path "db" "kb 2".
Proof.
  apply (@collection_paths_injective "db" "kb" "kb 2"). discriminate.
Defined.

(** *** list_collections *)

Lemma substring_all (s : string) : substring 0 (String.length s) s = s.
Proof. induction s as [| c t IH]; simpl; [reflexivity | now rewrite IH]. Qed.

Lemma substring_prefix (a b : string) :
  substring 0 (String.length a) (String.append a b) = a.
Proof.
  induction a as [| c t IH]; simpl.
  - destruct b; reflexivity.
  - now rewrite IH.
Qed.

Lemma substring_suffix (a b : string) :
  substring (String.length a) (String.length b) (String.append a b) = b.
Proof.
  induction a as [| c t IH]; simpl; [apply substring_all | exact IH].
Qed.

Lemma substring_split (s : string) : forall n,
  (n <= String.length s)%nat ->
  s = String.append (substring 0 n s) (substring n (String.length s - n) s).
Proof.
  induction s as [| c t IH]; intros [| n] Hn; simpl in *; try lia.
  - reflexivity.
  - now rewrite substring_all.
  - f_equal. apply IH. lia.
Qed.

Lemma endswith_append (a suffix : string) :
  endswith (String.append a suffix) suffix = true.
Proof.
  unfold endswith. rewrite length_append.
  replace (String.length a + String.length suffix - String.length suffix)%nat
    with (String.length a) by lia.
  rewrite substring_suffix, String.eqb_refl.
  rewrite andb_true_r. apply Nat.leb_le. lia.
Qed.

Lemma endswith_split (s suffix : string) :
  endswith s suffix = true -> exists p, s = String.append p suffix.
Proof.
  unfold endswith. intros H. apply andb_true_iff in H. destruct H as [Hl He].
  apply Nat.leb_le in Hl. apply String.eqb_eq in He.
  exists (substring 0 (String.length s - String.length suffix) s).
  pose proof (@substring_split s (String.length s - String.length suffix)) as Hs.
  replace (String.length s - (String.length s - String.length suffix))%nat
    with (String.length suffix) in Hs by lia.
  rewrite He in Hs. apply Hs. lia.
Qed.

(** A name whose last byte is not [x] does not end in [.index]. *)
Lemma endswith_index_last (p : string) (c : ascii) :
  c <> "x"%char ->
  endswith (String.append p (String c EmptyString)) ".index" = false.
Proof.
  intros Hc. destruct (endswith _ _) eqn:H; [| reflexivity].
  apply endswith_split in H. destruct H as [q H].
  apply (f_equal (fun s => rev (list_ascii_of_string s))) in H.
  rewrite !list_ascii_append, !rev_app_distr in H. simpl in H.
  injection H as H _. contradiction.
Qed.

Lemma basename_aux_append (a b acc : string) :
  basename_aux (String.append a b) acc = basename_aux b (basename_aux a acc).
Proof.
  revert acc. induction a as [| c t IH]; intros acc; simpl; [reflexivity |].
  destruct (Ascii.eqb c "/"); apply IH.
Qed.

Lemma basename_aux_plain (x : string) : forall acc,
  forallb (fun c => negb (Ascii.eqb c "/"%char)) (list_ascii_of_string x) = true ->
  basename_aux x acc = String.append acc x.
Proof.
  induction x as [| c t IH]; intros acc H; simpl in *.
  - induction acc as [| a acc IHa]; simpl; [reflexivity | now rewrite <- IHa].
  - apply andb_true_iff in H. destruct H as [Hc Ht].
    apply negb_true_iff in Hc. rewrite Hc, IH by exact Ht.
    apply append_assoc.
Qed.

Lemma basename_aux_slash (a : string) : forall acc,
  ends_with_slash a = true -> basename_aux a acc = EmptyString.
Proof.
  induction a as [| c t IH]; intros acc H; [discriminate |].
  simpl. destruct t as [| c' t'].
  - simpl in H. now rewrite H.
  - destruct (Ascii.eqb c "/"); apply IH; exact H.
Qed.

(** The directory entry of a file joined to the folder. *)
Lemma basename_path_join (folder x : string) :
  forallb (fun c => negb (Ascii.eqb c "/"%char)) (list_ascii_of_string x) = true ->
  basename (path_join folder x) = x.
Proof.
  intros Hx. unfold path_join.
  assert (Hs : starts_with_slash x = false).
  { destruct x as [| c t]; [reflexivity |]. simpl in *.
    apply andb_true_iff in Hx. destruct Hx as [Hc _].
    now apply negb_true_iff in Hc. }
  rewrite Hs. unfold basename.
  destruct folder as [| c t]; [now apply basename_aux_plain |].
  destruct (ends_with_slash (String c t)) eqn:He.
  - rewrite basename_aux_append.
    rewrite (@basename_aux_slash (String c t) EmptyString He).
    now apply basename_aux_plain.
  - change (String.append (String c t) (String "/"%char x))
      with (String.append (String c t) (String.append "/" x)).
    rewrite <- append_assoc, basename_aux_append.
    rewrite (@basename_aux_slash (String.append (String c t) "/") EmptyString);
      [now apply basename_aux_plain |].
    clear. generalize (String c t) as a.
    induction a as [| c' t' IH]; [reflexivity |].
    simpl. destruct t'; [reflexivity | exact IH].
Qed.

Lemma no_slash_append (a b : string) :
  forallb (fun c => negb (Ascii.eqb c "/"%char)) (list_ascii_of_string a) = true ->
  forallb (fun c => negb (Ascii.eqb c "/"%char)) (list_ascii_of_string b) = true ->
  forallb (fun c => negb (Ascii.eqb c "/"%char))
          (list_ascii_of_string (String.append a b)) = true.
Proof. intros Ha Hb. now rewrite list_ascii_append, forallb_app, Ha, Hb. Qed.

(** In a folder that holds the files of the collection [name],
    [list_collections] reports the written form [quote name] of the
    name, once; this is [name] itself exactly when every byte of the
    name is unreserved. *)
Theorem list_collections_reports_quoted_name (folder name : string) :
  list_collections
    (map basename
       [_get_index_path folder name; _get_metadata_path folder name;
        _get_file_registry_path folder name;
        _get_file_history_path folder name;
        _get_collection_info_path folder]) = [quote name] /\
  ([quote name] = [name] <->
   forallb unreserved (list_ascii_of_string name) = true).
Proof.
  pose proof (quote_no_slash name) as Hq.
  pose proof (quote_fixed name) as Hiff.
  split.
  - unfold _get_index_path, _get_metadata_path, _get_file_registry_path,
      _get_file_history_path, _get_collection_info_path. simpl map.
    rewrite !basename_path_join
      by (try apply no_slash_append; auto; reflexivity).
    unfold list_collections. simpl filter.
    rewrite endswith_append.
    change (String.append (quote name) ".meta")
      with (String.append (quote name) (String.append ".met" "a")).
    change (String.append (quote name) ".files.json")
      with (String.append (quote name) (String.append ".files.jso" "n")).
    change (String.append (quote name) ".history.json")
      with (String.append (quote name) (String.append ".history.jso" "n")).
    rewrite <- !append_assoc.
    rewrite !endswith_index_last by discriminate.
    change (endswith "collections_info.json" ".index") with false.
    simpl map. f_equal.
    rewrite length_append. simpl String.length.
    replace (String.length (quote name) + 6 - 6)%nat
      with (String.length (quote name)) by lia.
    apply substring_prefix.
  - split; intros H.
    + apply Hiff. now injection H.
    + f_equal. now apply Hiff.
Qed.

(* ================================================================== *)
(** ** Further properties: _match_filter_condition *)

Lemma conditions_hold_app (metadata : json) (c1 c2 : list (string * json)) :
  conditions_hold metadata (c1 ++ c2) =
    match conditions_hold metadata c1 with
    | Ret true => conditions_hold metadata c2
    | o => o
    end.
Proof.
  induction c1 as [| [key value] t IH]; simpl; [reflexivity |].
  destruct (condition_holds metadata key value) as [[|] | e]; auto.
Qed.

(** A filter is the conjunction of its conditions: the filter made of
    two lists of conditions matches exactly when both lists match. *)
Theorem match_filter_conjunction (metadata : json)
        (c1 c2 : list (string * json)) :
  _match_filter_condition metadata (c1 ++ c2) =
    (_match_filter_condition metadata c1 &&
     _match_filter_condition metadata c2)%bool.
Proof.
  unfold _match_filter_condition. rewrite conditions_hold_app.
  destruct (conditions_hold metadata c1) as [[|] | e]; reflexivity.
Qed.

Lemma split_dot_aux_cons (s : string) : forall acc,
  exists p rest, split_dot_aux s acc = p :: rest.
Proof.
  induction s as [| c t IH]; intros acc; simpl; [eauto |].
  destruct (Ascii.eqb c "."); [eauto | apply IH].
Qed.

Lemma split_dot_aux_two (s : string) : forall acc,
  has_dot s = true ->
  exists p q rest, split_dot_aux s acc = p :: q :: rest.
Proof.
  induction s as [| c t IH]; intros acc H; simpl in *; [discriminate |].
  destruct (Ascii.eqb c ".").
  - destruct (split_dot_aux_cons t EmptyString) as [q [rest ->]]. eauto.
  - apply IH. exact H.
Qed.

(** A key with a dot is always read as a path. On a metadata dict that
    lacks the first component of the path the filter fails, also when
    the dict holds the dotted key itself. *)
Theorem match_filter_dotted_key_is_a_path
        (m : list (string * json)) (key : string) (value : json)
        (before rest : list (string * json)) :
  has_dot key = true ->
  dict_mem String.eqb m (hd EmptyString (split_dot key)) = false ->
  _match_filter_condition (JDict m) (before ++ (key, value) :: rest) = false.
Proof.
  intros Hd Hm.
  assert (Hkey : conditions_hold (JDict m) ((key, value) :: rest) = Ret false).
  { simpl. unfold condition_holds. rewrite Hd.
    unfold split_dot in *.
    destruct (split_dot_aux_two key EmptyString Hd) as [p [q [tl Hs]]].
    rewrite Hs in *. simpl in Hm.
    change (removelast (p :: q :: tl)) with (p :: removelast (q :: tl)).
    simpl. rewrite Hm. reflexivity. }
  unfold _match_filter_condition. rewrite conditions_hold_app, Hkey.
  destruct (conditions_hold (JDict m) before) as [[|] | e]; reflexivity.
Qed.

Lemma match_filter_dotted_key_is_a_path_witness :
  _match_filter_condition (JDict [("a.b", JInt 1)]) [("a.b", JInt 1)] = false.
Proof.
  apply (@match_filter_dotted_key_is_a_path
           [("a.b", JInt 1)] "a.b" (JInt 1) [] []); reflexivity.
Defined.

Lemma holds_at_dict (m : list (string * json)) (key : string) (value : json) :
  holds_at (JDict m) key value =
    Ret match dict_get String.eqb m key with
        | Some v => py_eq v value
        | None => false
        end.
Proof.
  unfold holds_at, py_in, py_getitem, dict_mem.
  destruct (dict_get String.eqb m key); reflexivity.
Qed.

Lemma holds_at_other (current : json) (key : string) (value : json) :
  (forall m, current <> JDict m) ->
  holds_at current key value <> Ret true.
Proof.
  intros H. unfold holds_at, py_in, py_getitem.
  destruct current as [| b | z | s | l | m]; try discriminate.
  - destruct (is_substring key s); discriminate.
  - destruct (existsb (py_eq (JStr key)) l); discriminate.
  - now contradiction (H m).
Qed.

Lemma split_dot_aux_plain (a s : string) : forall acc,
  has_dot a = false ->
  split_dot_aux (String.append a s) acc = split_dot_aux s (String.append acc a).
Proof.
  induction a as [| c t IH]; intros acc H; simpl in *.
  - f_equal. induction acc as [| x acc IHa]; simpl; [reflexivity |].
    now rewrite <- IHa.
  - apply orb_false_iff in H. destruct H as [Hc Ht]. rewrite Hc.
    rewrite IH by exact Ht. f_equal.
    rewrite append_assoc. reflexivity.
Qed.

Lemma split_dot_pair (a b : string) :
  has_dot a = false -> has_dot b = false ->
  split_dot (String.append a (String "."%char b)) = [a; b].
Proof.
  intros Ha Hb. unfold split_dot.
  rewrite split_dot_aux_plain by exact Ha. simpl.
  f_equal.
  replace b with (String.append b EmptyString) at 1.
  - rewrite split_dot_aux_plain by exact Hb. reflexivity.
  - induction b as [| x b IH]; simpl; [reflexivity |].
    f_equal. apply IH. simpl in Hb. apply orb_false_iff in Hb. tauto.
Qed.

Lemma has_dot_append (a b : string) :
  has_dot (String.append a b) = (has_dot a || has_dot b)%bool.
Proof.
  induction a as [| c t IH]; simpl; [reflexivity |].
  now rewrite IH, orb_assoc.
Qed.

(** On a metadata dict, a filter whose keys have no dot matches
    exactly when each key is present with an equal value; a key [a.b]
    is looked up as [metadata[a][b]], and matches only when
    [metadata[a]] is a dict; on a value that is no dict nothing
    matches. *)
Theorem match_filter_lookup (m : list (string * json)) :
  (forall cond,
      forallb (fun kv => negb (has_dot (fst kv))) cond = true ->
      _match_filter_condition (JDict m) cond =
        forallb (fun kv => match dict_get String.eqb m (fst kv) with
                           | Some v => py_eq v (snd kv)
                           | None => false
                           end) cond) /\
  (forall a b value,
      has_dot a = false -> has_dot b = false ->
      _match_filter_condition (JDict m)
        [(String.append a (String "."%char b), value)] =
        match dict_get String.eqb m a with
        | Some (JDict inner) =>
            match dict_get String.eqb inner b with
            | Some v => py_eq v value
            | None => false
            end
        | _ => false
        end) /\
  (forall metadata key value rest,
      (forall m', metadata <> JDict m') ->
      _match_filter_condition metadata ((key, value) :: rest) = false).
Proof.
  split; [| split].
  - intros cond. unfold _match_filter_condition.
    induction cond as [| [key value] t IH]; intros H; simpl in *;
      [reflexivity |].
    apply andb_true_iff in H. destruct H as [Hk Ht].
    apply negb_true_iff in Hk. unfold condition_holds. rewrite Hk.
    rewrite holds_at_dict.
    destruct (dict_get String.eqb m key) as [v |]; [| reflexivity].
    destruct (py_eq v value); [apply IH, Ht | reflexivity].
  - intros a b value Ha Hb. unfold _match_filter_condition. simpl.
    unfold condition_holds.
    rewrite has_dot_append. simpl. rewrite orb_true_r.
    rewrite split_dot_pair by assumption. simpl.
    unfold dict_mem.
    destruct (dict_get String.eqb m a) as [v |]; [| reflexivity].
    destruct v as [| x | z | s | l | inner];
      try (unfold holds_at, py_in, py_getitem;
           repeat match goal with
                  | |- context [if ?c then _ else _] => destruct c
                  end; reflexivity).
    rewrite holds_at_dict.
    destruct (dict_get String.eqb inner b) as [v |]; [| reflexivity].
    destruct (py_eq v value); reflexivity.
  - intros metadata key value rest Hmd. unfold _match_filter_condition. simpl.
    assert (H : condition_holds metadata key value <> Ret true).
    { unfold condition_holds. destruct (has_dot key) eqn:Hd.
      - unfold split_dot.
        destruct (split_dot_aux_two key EmptyString Hd) as [p [q [tl ->]]].
        change (removelast (p :: q :: tl)) with (p :: removelast (q :: tl)).
        simpl. unfold py_in, py_getitem.
        destruct metadata as [| x | z | s | l | m']; try discriminate.
        + destruct (is_substring p s); discriminate.
        + destruct (existsb (py_eq (JStr p)) l); discriminate.
        + now contradiction (Hmd m').
      - now apply holds_at_other. }
    destruct (condition_holds metadata key value) as [[|] | e];
      [contradiction | reflexivity | reflexivity].
Qed.

Lemma match_filter_lookup_witness :
  _match_filter_condition
    (JDict [("file", JDict [("type", JStr "pdf")]); ("page", JInt 1)])
    [("page", JBool true)] = true /\
  _match_filter_condition
    (JDict [("file", JDict [("type", JStr "pdf")]); ("page", JInt 1)])
    [("file.type", JStr "pdf")] = true /\
  _match_filter_condition (JStr "page") [("page", JInt 1)] = false.
Proof.
  pose proof (match_filter_lookup
                [("file", JDict [("type", JStr "pdf")]); ("page", JInt 1)])
    as [H1 [H2 H3]].
  split; [| split].
  - rewrite (H1 [("page", JBool true)]); reflexivity.
  - apply (H2 "file" "type" (JStr "pdf")); reflexivity.
  - apply H3. discriminate.
Defined.

(* ================================================================== *)
(** ** Further properties: existence, creation, deletion, loading *)

(** [check_and_fix_collection_consistency] only compares: on a cached
    collection it returns whether the metadata table has as many
    entries as the index has vectors, and changes nothing. *)
Theorem check_consistency_only_compares (s : manager)
        (index : faiss_index) (m : metadata_table) :
  indexes s = Some index -> metadata s = Some m ->
  check_and_fix_collection_consistency s
  = (Ret (ntotal index =? metadata_len m), s).
Proof.
  intros Hi Hm. destruct s as [fi fm fr fh ci i md rg h].
  simpl in Hi, Hm. subst i md.
  unfold check_and_fix_collection_consistency. unfold_monad. simpl.
  destruct (ntotal index =? 0) eqn:H0;
    destruct (0 <? metadata_len m) eqn:H1;
    destruct (ntotal index =? metadata_len m) eqn:H2; simpl;
    try reflexivity; exfalso; lia.
Qed.

Lemma check_consistency_only_compares_witness :
  check_and_fix_collection_consistency kb_five = (Ret true, kb_five) /\
  check_and_fix_collection_consistency
    (snd (delete_vectors env0 [0; 1] kb_dict))
  = (Ret false, snd (delete_vectors env0 [0; 1] kb_dict)).
Proof.
  split.
  - apply (@check_consistency_only_compares kb_five
             (mk_index IndexFlatL2 4 [v1; v2; v3; v4; v5])
             (MList (map (annotate "a.txt" "/docs/a.txt")
                         [doc "a"; doc "b"; doc "c"; doc "d"; doc "e"])));
      vm_compute; reflexivity.
  - apply (@check_consistency_only_compares
             (snd (delete_vectors env0 [0; 1] kb_dict))
             (mk_index IndexFlatL2 4 [])
             (MDict [(KInt 2, empty_entry); (KInt 3, empty_entry);
                     (KInt 4, empty_entry)]));
      vm_compute; reflexivity.
Defined.




(** [delete_collection] answers whether the collection existed; after
    it the collection does not exist and nothing of it is cached,
    while its entry in [collections_info.json] is left as it was; the
    name can then be created again. *)
Theorem delete_collection_clears (s : manager) :
  let existed := (is_some (indexes s)
                  || (is_some (index_file s) && is_some (meta_file s)))%bool in
  let s' := snd (delete_collection s) in
  fst (delete_collection s) = Ret existed /\
  (existed = false -> s' = s) /\
  (existed = true ->
   s' = mk_manager None None None None (collections_info s)
                   None None None None) /\
  fst (collection_exists s') = Ret false /\
  fst (kb_exists s') = Ret false /\
  collections_info s' = collections_info s /\
  (forall E dimension index_type index,
      existed = true ->
      index_of_type index_type dimension = Some index ->
      (forall a, writable E a = true) ->
      fst (create_collection E dimension index_type s') = Ret true).
Proof.
  destruct s as [fi fm fr fh ci i md rg h].
  unfold delete_collection, collection_exists, kb_exists, remove_index,
    remove_metadata, remove_registry, remove_history.
  unfold_monad. simpl.
  destruct i as [i |]; simpl.
  - repeat split; try reflexivity; try discriminate.
    intros E dimension index_type index _ Hty Hw.
    erewrite create_collection_cases; [| reflexivity | exact Hty].
    now rewrite !Hw.
  - destruct fi as [fi |], fm as [fm |]; simpl;
      repeat split; try reflexivity; try discriminate.
    intros E dimension index_type index _ Hty Hw.
    erewrite create_collection_cases; [| reflexivity | exact Hty].
    now rewrite !Hw.
Qed.

(** [load_collection] never raises. It succeeds exactly when the index
    file exists and each missing companion file can be created; after
    a success the four caches hold what the four files hold, and a
    companion file that was missing exists and is empty; after a
    failure with the index file present no index is cached any more. *)
Theorem load_collection_loads (E : env) (s : manager) :
  exists (b : bool) (s' : manager),
    load_collection E s = (Ret b, s') /\
    (b = true <->
     index_file s <> None /\
     (meta_file s <> None \/ writable E AMeta = true) /\
     (registry_file s <> None \/ writable E ARegistry = true) /\
     (history_file s <> None \/ writable E AHistory = true)) /\
    (b = true ->
     indexes s' = index_file s /\ index_file s' = index_file s /\
     metadata s' = meta_file s' /\
     file_registry s' = registry_file s' /\
     file_change_history s' = history_file s' /\
     meta_file s' = Some match meta_file s with
                         | Some m => m
                         | None => MList []
                         end /\
     registry_file s' = Some match registry_file s with
                             | Some r => r
                             | None => []
                             end /\
     history_file s' = Some match history_file s with
                            | Some h => h
                            | None => []
                            end) /\
    (b = false -> index_file s <> None -> indexes s' = None).
Proof.
  destruct s as [fi fm fr fh ci i md rg h].
  unfold load_collection, _update_collection_stats, write_file.
  unfold_monad. cbn [index_file meta_file registry_file history_file
                     collections_info indexes metadata file_registry
                     file_change_history].
  destruct fi as [fi |]; simpl;
    [| do 2 eexists; split; [reflexivity |];
       repeat split; try discriminate; intuition congruence].
  destruct fm as [fm |], fr as [fr |], fh as [fh |], ci as [ci |]; simpl;
    repeat match goal with
           | |- context [writable E ?a] => destruct (writable E a) eqn:?; simpl
           end;
    (do 2 eexists; split; [reflexivity |]); simpl;
    (split; [| split]);
    try (intros _; repeat split; reflexivity);
    try (intros H; discriminate H);
    try (intros _ _; reflexivity);
    try (split; [intros _; repeat split;
                 first [discriminate | left; discriminate | right; reflexivity]
                | reflexivity]);
    try (split; [intros H; discriminate H
                | intros (_ & [H2|H2] & [H3|H3] & [H4|H4]); congruence]).
Qed.


(* ================================================================== *)
(** ** Further properties: the registry and the change log *)

Arguments reg_set : simpl never.
Arguments reg_get : simpl never.

Lemma save_file_registry_frame (E : env) (s : manager) :
  let s' := snd (_save_file_registry E s) in
  indexes s' = indexes s /\ metadata s' = metadata s /\
  index_file s' = index_file s /\ meta_file s' = meta_file s /\
  history_file s' = history_file s /\
  file_change_history s' = file_change_history s /\
  collections_info s' = collections_info s /\
  exists b, fst (_save_file_registry E s) = Ret b.
Proof.
  destruct s as [fi fm fr fh ci i md rg h].
  unfold _save_file_registry, write_file. unfold_monad. simpl.
  destruct rg as [[| kv t] |]; simpl;
    try destruct (count_files _) as [fc vc];
    destruct (writable E ARegistry); simpl; repeat split; eauto.
Qed.

Lemma save_file_registry_keeps_record (E : env) (fname : string) (s : manager) :
  startswith_underscore fname = false ->
  record_of (snd (_save_file_registry E s)) fname = record_of s fname.
Proof.
  intros Hf. destruct s as [fi fm fr fh ci i md rg h].
  unfold _save_file_registry, write_file. unfold_monad. simpl.
  destruct rg as [[| kv t] |]; simpl; [| | reflexivity].
  - destruct (writable E ARegistry); simpl; unfold record_of; simpl;
      unfold reg_get, registry_stub, dict_get;
      rewrite !(@not_underscore_key fname) by (auto; reflexivity);
      reflexivity.
  - destruct (count_files _) as [fc vc].
    destruct (writable E ARegistry); simpl; unfold record_of; simpl;
      rewrite !reg_get_set_other by (apply not_underscore_key; auto);
      reflexivity.
Qed.




(** The change log answers what was recorded: after an event of a file
    is recorded the history of that file ends with the event, the
    whole history as well (which is also what an empty file name asks
    for), the history of any other file is as before; an event of the
    collection is in no file's history. *)
Theorem change_history_records_events (E : env) (s : manager)
        (h : list event) (c : ascii) (t : string)
        (ty : string) (dat : list (string * dval)) :
  indexes s <> None -> file_change_history s = Some h ->
  let fname := String c t in
  let ev := {| event_type := ty; ev_file_name := Some fname;
               timestamp := now E; data := dat |} in
  let s1 := snd (_record_file_event E fname ty dat s) in
  fst (get_file_change_history (Some fname) s1)
  = Ret (filter (event_of_file fname) h ++ [ev]) /\
  fst (get_file_change_history None s1) = Ret (h ++ [ev]) /\
  fst (get_file_change_history (Some EmptyString) s1) = Ret (h ++ [ev]) /\
  (forall c' t',
      String c' t' <> fname ->
      fst (get_file_change_history (Some (String c' t')) s1)
      = Ret (filter (event_of_file (String c' t')) h)) /\
  (forall ty' dat' c' t',
      fst (get_file_change_history (Some (String c' t'))
             (snd (_record_collection_event E ty' dat' s)))
      = Ret (filter (event_of_file (String c' t')) h)).
Proof.
  intros Hi Hh. cbv zeta.
  destruct s as [fi fm fr fh ci i md rg hh]. simpl in Hi, Hh. subst hh.
  destruct i as [i |]; [clear Hi | congruence].
  unfold _record_file_event, _record_collection_event, append_event,
    _save_file_history, write_file, get_file_change_history, collection_exists.
  unfold_monad. simpl.
  assert (Hsame : forall ev, ev_file_name ev = Some (String c t) ->
            filter (event_of_file (String c t)) (h ++ [ev])
            = filter (event_of_file (String c t)) h ++ [ev]).
  { intros ev Hev. rewrite filter_app. simpl. unfold event_of_file at 2.
    now rewrite Hev, String.eqb_refl. }
  assert (Hother : forall name ev,
            ev_file_name ev <> Some name ->
            filter (event_of_file name) (h ++ [ev])
            = filter (event_of_file name) h).
  { intros name ev Hev. rewrite filter_app. simpl. unfold event_of_file at 2.
    destruct (ev_file_name ev) as [n |]; [| now rewrite app_nil_r].
    destruct (String.eqb n name) eqn:Hn; [| now rewrite app_nil_r].
    apply String.eqb_eq in Hn. congruence. }
  destruct (writable E AHistory); simpl;
    (split; [now rewrite Hsame | split; [reflexivity | split; [reflexivity |]]]);
    (split; [intros c' t' Hne | intros ty' dat' c' t']);
    rewrite Hother; simpl; congruence.
Qed.

Lemma change_history_records_events_witness :
  fst (get_file_change_history (Some "b.txt")
         (snd (_record_file_event env0 "b.txt" "delete" [] kb_five)))
  = Ret [mk_event "delete" (Some "b.txt") (now env0) []].
Proof.
  assert (Hh : exists h, file_change_history kb_five = Some h /\
                         filter (event_of_file "b.txt") h = []).
  { vm_compute. eexists. split; reflexivity. }
  destruct Hh as (h & Hh & Hf).
  assert (Hi : indexes kb_five <> None) by (vm_compute; discriminate).
  destruct (@change_history_records_events env0 kb_five h "b"%char ".txt"
              "delete" [] Hi Hh) as [H _].
  rewrite H, Hf. reflexivity.
Defined.

(* ================================================================== *)
(** ** Further properties: synchronize_index_and_metadata *)

Lemma to_int_proper (z : Z) :
  Z.to_int z <> Decimal.Pos Decimal.Nil /\ Z.to_int z <> Decimal.Neg Decimal.Nil.
Proof.
  destruct z as [| p | p]; simpl; split; try discriminate;
    intros [= H]; now apply (Unsigned.to_uint_nonnil p).
Qed.

(** Reading the decimal string of an int gives the int. *)
Lemma int_of_str (z : Z) :
  option_map Z.of_int (NilZero.int_of_string (str z)) = Some z.
Proof.
  unfold str. destruct (to_int_proper z) as [H1 H2].
  rewrite NilZero.isi by assumption. simpl. now rewrite DecimalZ.of_to.
Qed.

Lemma str_inj (a b : Z) : str a = str b -> a = b.
Proof.
  intros H. pose proof (int_of_str a) as Ha. rewrite H, int_of_str in Ha.
  now injection Ha.
Qed.

Lemma mkey_eqb_str (a b : Z) :
  mkey_eqb (KStr (str a)) (KStr (str b)) = (a =? b).
Proof.
  simpl. destruct (a =? b) eqn:H.
  - apply Z.eqb_eq in H. subst. apply String.eqb_refl.
  - apply String.eqb_neq. intros Hs. apply str_inj in Hs.
    apply Z.eqb_neq in H. contradiction.
Qed.

Lemma dict_set_fresh {K V} (keq : K -> K -> bool) (m : list (K * V)) k v :
  dict_get keq m k = None -> dict_set keq m k v = m ++ [(k, v)].
Proof.
  induction m as [| [k' v'] t IH]; simpl; [reflexivity |].
  destruct (keq k k'); [discriminate |]. intros H. now rewrite IH.
Qed.

Section Synchronize.
Variable l : list entry.

Lemma table_get_str (k : nat) (i : Z) :
  0 <= i ->
  dict_get mkey_eqb (aligned_table l k) (KStr (str i))
  = if i <? Z.of_nat k then Some (snd (aligned_slot l i)) else None.
Proof.
  intros Hi. unfold aligned_table. induction k as [| k IH].
  - simpl. destruct (Z.ltb_spec i 0); [lia | reflexivity].
  - rewrite Nat2Z.inj_succ, seq_S, map_app. simpl.
    assert (Hget : forall (m m' : list (mkey * entry)) key,
              dict_get mkey_eqb (m ++ m') key =
              match dict_get mkey_eqb m key with
              | Some v => Some v
              | None => dict_get mkey_eqb m' key
              end).
    { intros m m' key. induction m as [| [k' v'] t IHm]; simpl; [reflexivity |].
      destruct (mkey_eqb key k'); [reflexivity | exact IHm]. }
    rewrite Hget, IH. simpl.
    change (String.eqb (str i) (str (Z.of_nat k)))
      with (mkey_eqb (KStr (str i)) (KStr (str (Z.of_nat k)))).
    rewrite mkey_eqb_str.
    destruct (Z.ltb_spec i (Z.of_nat k)); destruct (Z.eqb_spec i (Z.of_nat k));
      destruct (Z.ltb_spec i (Z.succ (Z.of_nat k))); try reflexivity;
      try (exfalso; lia).
    now subst.
Qed.

Lemma table_get_int (k : nat) (i : Z) :
  dict_get mkey_eqb (aligned_table l k) (KInt i) = None.
Proof.
  unfold aligned_table.
  induction (seq 0 k) as [| x t IH]; simpl; [reflexivity | exact IH].
Qed.

Lemma table_S (k : nat) :
  aligned_table l (S k) = aligned_table l k ++ [aligned_slot l (Z.of_nat k)].
Proof. unfold aligned_table. now rewrite seq_S, map_app. Qed.

Lemma dict_of_list_table (index_size : Z) :
  0 <= index_size ->
  dict_of_list index_size l
  = aligned_table l (Nat.min (Z.to_nat index_size) (List.length l)).
Proof.
  intros Hn. unfold dict_of_list.
  assert (H : forall (t : list entry) (k : nat),
             (k + List.length t = List.length l)%nat ->
             (forall j, (j < List.length t)%nat ->
                        nth j t empty_entry = nth (k + j) l empty_entry) ->
             fold_left
               (fun new_metadata (im : Z * entry) =>
                  if fst im <? index_size
                  then dict_set mkey_eqb new_metadata (KStr (str (fst im))) (snd im)
                  else new_metadata)
               (enumerate_from (Z.of_nat k) t)
               (aligned_table l (Nat.min (Z.to_nat index_size) k))
             = aligned_table l (Nat.min (Z.to_nat index_size) (List.length l))).
  { induction t as [| e t IH]; intros k Hk Hnth; simpl in *.
    - now replace k with (List.length l) by lia.
    - replace (Z.of_nat k + 1) with (Z.of_nat (S k)) by lia.
      destruct (Z.ltb_spec (Z.of_nat k) index_size) as [Hlt | Hlt].
      + rewrite dict_set_fresh.
        * replace (Nat.min (Z.to_nat index_size) k) with k by lia.
          assert (He : (KStr (str (Z.of_nat k)), e) = aligned_slot l (Z.of_nat k)).
          { unfold aligned_slot. f_equal. rewrite Nat2Z.id.
            specialize (Hnth 0%nat ltac:(lia)). simpl in Hnth.
            rewrite Nat.add_0_r in Hnth. rewrite Hnth.
            apply nth_indep. lia. }
          rewrite He, <- table_S.
          replace (aligned_table l (S k))
            with (aligned_table l (Nat.min (Z.to_nat index_size) (S k)))
            by (f_equal; lia).
          apply IH; [lia |].
          intros j Hj. specialize (Hnth (S j) ltac:(lia)). simpl in Hnth.
          rewrite Hnth. f_equal. lia.
        * rewrite table_get_str by lia.
          destruct (Z.ltb_spec (Z.of_nat k)
                                  (Z.of_nat (Nat.min (Z.to_nat index_size) k)));
            [lia | reflexivity].
      + replace (Nat.min (Z.to_nat index_size) k)
          with (Nat.min (Z.to_nat index_size) (S k)) by lia.
        apply IH; [lia |].
        intros j Hj. specialize (Hnth (S j) ltac:(lia)). simpl in Hnth.
        rewrite Hnth. f_equal. lia. }
  specialize (H l 0%nat eq_refl (fun _ _ => eq_refl)).
  rewrite Nat.min_0_r in H. exact H.
Qed.

Lemma fill_missing_table (index_size : Z) :
  0 <= index_size ->
  fill_missing index_size
    (aligned_table l (Nat.min (Z.to_nat index_size) (List.length l)))
  = aligned_table l (Z.to_nat index_size).
Proof.
  intros Hn. unfold fill_missing, range.
  rewrite Z.sub_0_r.
  set (n := Z.to_nat index_size). set (k0 := Nat.min n (List.length l)).
  assert (H : forall (c b : nat),
             (b + c = n)%nat ->
             fold_left
               (fun (metadata : list (mkey * entry)) (i : Z) =>
                  if (negb (dict_mem mkey_eqb metadata (KStr (str i)))
                      && negb (dict_mem mkey_eqb metadata (KInt i)))%bool
                  then dict_set mkey_eqb metadata (KStr (str i)) (missing_entry i)
                  else metadata)
               (map (fun i => 0 + Z.of_nat i) (seq b c))
               (aligned_table l (Nat.max k0 b))
             = aligned_table l n).
  { induction c as [| c IH]; intros b Hb; cbn [seq map fold_left].
    - f_equal. lia.
    - rewrite Z.add_0_l.
      assert (Hmem : forall key,
                dict_mem mkey_eqb (aligned_table l (Nat.max k0 b)) key
                = match dict_get mkey_eqb (aligned_table l (Nat.max k0 b)) key with
                  | Some _ => true
                  | None => false
                  end) by reflexivity.
      rewrite !Hmem, table_get_str, table_get_int by lia. clear Hmem.
      cbn [negb]. rewrite andb_true_r.
      destruct (Z.ltb_spec (Z.of_nat b) (Z.of_nat (Nat.max k0 b))) as [Hlt | Hlt];
        cbn [negb].
      + replace (Nat.max k0 b) with (Nat.max k0 (S b)) by lia.
        apply IH. lia.
      + rewrite dict_set_fresh.
        * assert (He : (KStr (str (Z.of_nat b)), missing_entry (Z.of_nat b))
                       = aligned_slot l (Z.of_nat b)).
          { unfold aligned_slot. f_equal. rewrite Nat2Z.id.
            symmetry. apply nth_overflow. lia. }
          rewrite He.
          replace (Nat.max k0 b) with b by lia.
          rewrite <- table_S.
          replace (aligned_table l (S b))
            with (aligned_table l (Nat.max k0 (S b)))
            by (f_equal; lia).
          apply IH. lia.
        * rewrite table_get_str by lia.
          destruct (Z.ltb_spec (Z.of_nat b) (Z.of_nat (Nat.max k0 b)));
            [lia | reflexivity]. }
  replace k0 with (Nat.max k0 0) by lia.
  apply H. lia.
Qed.

Lemma table_keys_kept (py_int : string -> option Z) (k : nat) (index_size : Z) :
  (forall i, 0 <= i -> py_int (str i) = Some i) ->
  Z.of_nat k <= index_size ->
  keys_to_remove py_int index_size (aligned_table l k) = [].
Proof.
  intros Hint Hk. unfold keys_to_remove, aligned_table.
  rewrite map_map. simpl.
  induction k as [| k IH]; [reflexivity |].
  rewrite seq_S, map_app, filter_app, IH by lia. simpl.
  rewrite Hint by lia.
  destruct (Z.leb_spec index_size (Z.of_nat k)); [lia | reflexivity].
Qed.

Lemma table_length (k : nat) : List.length (aligned_table l k) = k.
Proof. unfold aligned_table. now rewrite length_map, length_seq. Qed.

(** [synchronize_index_and_metadata] on a cached collection whose
    metadata table is a list: it returns [True] and leaves a dict
    with exactly the keys [str(0)], ..., [str(ntotal - 1)], in this
    order, holding the entries of the list at their positions and the
    placeholder where the list was too short; the table then has the
    size of the index. *)
Theorem synchronize_list_metadata (E : env) (py_int : string -> option Z)
        (s : manager) (index : faiss_index) :
  (forall i, 0 <= i -> py_int (str i) = Some i) ->
  indexes s = Some index -> metadata s = Some (MList l) ->
  let s' := snd (synchronize_index_and_metadata E py_int s) in
  fst (synchronize_index_and_metadata E py_int s) = Ret true /\
  metadata s'
  = Some (MDict (map (fun i => (KStr (str i),
                                nth (Z.to_nat i) l (missing_entry i)))
                     (range 0 (ntotal index)))) /\
  indexes s' = Some index /\
  sizes_agree s'.
Proof.
  intros Hint Hi Hm.
  assert (Hn : 0 <= ntotal index) by (unfold ntotal, len; lia).
  assert (Htab : map (fun i => (KStr (str i),
                                nth (Z.to_nat i) l (missing_entry i)))
                     (range 0 (ntotal index))
                 = aligned_table l (Z.to_nat (ntotal index))).
  { unfold range, aligned_table. rewrite Z.sub_0_r, map_map. reflexivity. }
  rewrite Htab. clear Htab.
  destruct s as [fi fm fr fh ci i md rg h]. simpl in Hi, Hm. subst i md.
  unfold synchronize_index_and_metadata. unfold_monad. simpl.
  rewrite dict_of_list_table, fill_missing_table by exact Hn.
  rewrite table_keys_kept by (auto; lia). simpl.
  unfold _save_metadata, write_file. unfold_monad. simpl.
  destruct (writable E AMeta); simpl;
    (repeat split; try reflexivity);
    unfold sizes_agree; simpl; unfold len; rewrite table_length; lia.
Qed.

End Synchronize.

Lemma synchronize_list_metadata_witness :
  fst (synchronize_index_and_metadata env0
         (fun s => option_map Z.of_int (NilZero.int_of_string s))
         (set_metadata (Some (MList [doc "a"; doc "b"; doc "c"])) kb_five))
  = Ret true /\
  sizes_agree
    (snd (synchronize_index_and_metadata env0
            (fun s => option_map Z.of_int (NilZero.int_of_string s))
            (set_metadata (Some (MList [doc "a"; doc "b"; doc "c"])) kb_five))).
Proof.
  destruct (@synchronize_list_metadata [doc "a"; doc "b"; doc "c"] env0
              (fun s => option_map Z.of_int (NilZero.int_of_string s))
              (set_metadata (Some (MList [doc "a"; doc "b"; doc "c"])) kb_five)
              (mk_index IndexFlatL2 4 [v1; v2; v3; v4; v5])
              (fun i _ => int_of_str i) eq_refl eq_refl) as (H1 & _ & _ & H4).
  split; assumption.
Defined.


(* ================================================================== *)
(** ** Further properties: add_vectors *)


Section Succeeds.
Context {S : Type}.

Lemma succeeds_ret {A} (P : S -> Prop) (a : A) (Q : A -> S -> Prop) :
  (forall s, P s -> Q a s) -> succeeds P (ret a) Q.
Proof. intros H s Hs. exists a. split; [reflexivity | apply H, Hs]. Qed.

Lemma succeeds_lift {A} (P : S -> Prop) (a : A) (Q : A -> S -> Prop) :
  (forall s, P s -> Q a s) -> succeeds P (lift (Ret a)) Q.
Proof. intros H s Hs. exists a. split; [reflexivity | apply H, Hs]. Qed.

Lemma succeeds_modify (P : S -> Prop) (f : S -> S) (Q : unit -> S -> Prop) :
  (forall s, P s -> Q tt (f s)) -> succeeds P (modify f) Q.
Proof. intros H s Hs. exists tt. split; [reflexivity | apply H, Hs]. Qed.

Lemma succeeds_bind {A B} (P : S -> Prop) (R : A -> S -> Prop)
      (m : MS S A) (f : A -> MS S B) (Q : B -> S -> Prop) :
  succeeds P m R -> (forall a, succeeds (R a) (f a) Q) ->
  succeeds P (bind m f) Q.
Proof.
  intros Hm Hf s Hs. destruct (Hm s Hs) as [a [Ha HR]]. unfold bind.
  destruct (m s) as [[a' | e] s']; simpl in *; [| discriminate].
  injection Ha as ->. apply Hf, HR.
Qed.

Lemma succeeds_get_bind {A} (P : S -> Prop) (f : S -> MS S A)
      (Q : A -> S -> Prop) :
  (forall s0, P s0 -> succeeds (fun s => s = s0) (f s0) Q) ->
  succeeds P (bind get f) Q.
Proof. intros H s Hs. unfold bind, get. apply (H s Hs s eq_refl). Qed.

Lemma succeeds_try {A} (P : S -> Prop) (m : MS S A) h (Q : A -> S -> Prop) :
  succeeds P m Q -> succeeds P (try_except m h) Q.
Proof.
  intros Hm s Hs. destruct (Hm s Hs) as [a [Ha HQ]]. unfold try_except.
  destruct (m s) as [[a' | e] s']; simpl in *; [| discriminate].
  injection Ha as Ha. subst a'. exists a. split; [reflexivity | exact HQ].
Qed.

Lemma succeeds_weaken {A} (P P' : S -> Prop) (m : MS S A)
      (Q Q' : A -> S -> Prop) :
  succeeds P' m Q' -> (forall s, P s -> P' s) ->
  (forall a s, Q' a s -> Q a s) -> succeeds P m Q.
Proof.
  intros Hm HP HQ s Hs. destruct (Hm s (HP s Hs)) as [a [Ha Hq]].
  exists a. split; [exact Ha | apply HQ, Hq].
Qed.

Lemma succeeds_for_each {A} (I : S -> Prop) (l : list A) body :
  (forall x, succeeds I (body x) (fun _ => I)) ->
  succeeds I (for_each l body) (fun _ => I).
Proof.
  intros Hb. induction l as [| x t IH]; simpl.
  - apply succeeds_ret. auto.
  - eapply succeeds_bind; [apply Hb | intros ?; exact IH].
Qed.

Lemma succeeds_run {A} (P : S -> Prop) (m : MS S A) (Q : A -> S -> Prop) s :
  succeeds P m Q -> P s -> exists a, fst (m s) = Ret a /\ Q a (snd (m s)).
Proof. intros H. apply H. Qed.
End Succeeds.

(** Side conditions on the manager: what a setter leaves true. *)
Ltac solve_state :=
  let s := fresh "s" in let H := fresh "H" in
  intros s H; destruct s;
  unfold loaded, registrable, index_saved in *; simpl in *;
  intuition (try congruence).

(** The same for an update of the cached metadata table, if any. *)
Ltac solve_metadata :=
  let s := fresh "s" in let H := fresh "H" in
  intros s H; destruct s as [? ? ? ? ? ? [?|] ? ?];
  unfold loaded, registrable, index_saved in *; simpl in *;
  intuition (try congruence).

Section Writes.
Variable E : env.

Lemma write_file_succeeds (a : artifact) (f : manager -> manager)
      (P : manager -> Prop) (Q : unit -> manager -> Prop) :
  writable E a = true -> (forall s, P s -> Q tt (f s)) ->
  succeeds P (write_file E a f) Q.
Proof. intros Hw H. unfold write_file. rewrite Hw. now apply succeeds_modify. Qed.

Lemma append_event_succeeds (I : manager -> Prop) ev :
  (forall s v, I s -> I (set_file_change_history v s)) ->
  succeeds I (append_event ev) (fun _ s => I s /\ file_change_history s <> None).
Proof.
  intros H. apply succeeds_modify. intros s Hs. split; [apply H, Hs |].
  destruct s; simpl. discriminate.
Qed.

Lemma save_file_history_succeeds (I : manager -> Prop) :
  writable E AHistory = true ->
  (forall s v, I s -> I (set_history_file v s)) ->
  succeeds I (_save_file_history E) (fun _ => I).
Proof.
  intros Hw H. unfold _save_file_history. apply succeeds_get_bind.
  intros s0 Hs0. destruct (file_change_history s0).
  - apply write_file_succeeds; [exact Hw | intros s ->; apply H, Hs0].
  - apply succeeds_ret. now intros s ->.
Qed.

Lemma record_collection_event_succeeds (I : manager -> Prop) ty dat :
  writable E AHistory = true ->
  (forall s v, I s -> I (set_file_change_history v s)) ->
  (forall s v, I s -> I (set_history_file v s)) ->
  succeeds I (_record_collection_event E ty dat) (fun _ => I).
Proof.
  intros Hw H1 H2. unfold _record_collection_event.
  eapply succeeds_bind; [apply append_event_succeeds; exact H1 | intros ?].
  eapply succeeds_weaken;
    [apply save_file_history_succeeds; [exact Hw | exact H2]
    | simpl; tauto | auto].
Qed.

Lemma record_file_event_succeeds (I : manager -> Prop) fname ty dat :
  writable E AHistory = true ->
  (forall s v, I s -> I (set_file_change_history v s)) ->
  (forall s v, I s -> I (set_history_file v s)) ->
  succeeds I (_record_file_event E fname ty dat) (fun _ => I).
Proof.
  intros Hw H1 H2. unfold _record_file_event.
  eapply succeeds_bind; [apply append_event_succeeds; exact H1 | intros ?].
  eapply succeeds_weaken;
    [apply save_file_history_succeeds; [exact Hw | exact H2]
    | simpl; tauto | auto].
Qed.

Lemma save_index_succeeds (index : faiss_index) :
  writable E AIndex = true ->
  succeeds (fun s => loaded s /\ indexes s = Some index)
           (_save_index E)
           (fun b s => b = true /\ loaded s /\ indexes s = Some index /\
                       index_file s = Some index).
Proof.
  intros Hw s [Hl Hi]. destruct s as [fi fm fr fh ci i md rg h].
  simpl in Hi. subst i.
  unfold _save_index, write_file. unfold_monad. simpl. rewrite Hw. simpl.
  rewrite Z.eqb_refl. simpl. exists true.
  split; [reflexivity |]. split; [reflexivity |].
  split; [unfold loaded in *; simpl in *; tauto |].
  split; reflexivity.
Qed.

Lemma save_metadata_succeeds (I : manager -> Prop) :
  writable E AMeta = true ->
  (forall s v, I s -> I (set_meta_file v s)) ->
  succeeds (fun s => loaded s /\ I s) (_save_metadata E)
           (fun b s => b = true /\ loaded s /\ I s).
Proof.
  intros Hw H s [Hl Hs]. pose proof (H s) as H'.
  destruct s as [fi fm fr fh ci i md rg h].
  unfold _save_metadata, write_file. unfold_monad. simpl. rewrite Hw.
  destruct md as [md |]; [| unfold loaded in Hl; simpl in Hl; tauto].
  simpl. exists true. split; [reflexivity |]. split; [reflexivity |]. split.
  - unfold loaded in *; simpl in *; tauto.
  - exact (H' (Some (json_metadata md)) Hs).
Qed.

Lemma save_file_registry_succeeds (I : manager -> Prop) :
  writable E ARegistry = true ->
  (forall s v, I s -> I (set_file_registry v s)) ->
  (forall s v, I s -> I (set_registry_file v s)) ->
  succeeds (fun s => loaded s /\ I s) (_save_file_registry E)
           (fun b s => b = true /\ loaded s /\ I s).
Proof.
  intros Hw H1 H2 s [Hl Hs].
  destruct s as [fi fm fr fh ci i md rg h].
  unfold _save_file_registry, write_file. unfold_monad. simpl. rewrite Hw.
  destruct rg as [rg |]; [| unfold loaded in Hl; simpl in Hl; tauto].
  assert (Hgo : forall r',
    I (mk_manager fi fm (Some r') fh ci i md (Some r') h)).
  { intros r'.
    exact (H2 (mk_manager fi fm fr fh ci i md (Some r') h) (Some r')
              (H1 _ (Some r') Hs)). }
  destruct rg as [| kv t]; simpl.
  - exists true. split; [reflexivity |]. split; [reflexivity |].
    split; [| apply Hgo].
    unfold loaded in *; simpl in *. intuition congruence.
  - destruct (count_files _) as [fc vc]. simpl.
    exists true. split; [reflexivity |]. split; [reflexivity |].
    split; [| apply Hgo].
    unfold loaded in *; simpl in *. intuition congruence.
Qed.

End Writes.

Lemma succeeds_lift_bind {S A B} (P : S -> Prop) (a : A) (f : A -> MS S B)
      (Q : B -> S -> Prop) :
  succeeds P (f a) Q -> succeeds P (bind (lift (Ret a)) f) Q.
Proof. intros H s Hs. apply (H s Hs). Qed.

Lemma succeeds_modify_bind {S B} (P P' : S -> Prop) (g : S -> S)
      (f : unit -> MS S B) (Q : B -> S -> Prop) :
  (forall s, P s -> P' (g s)) -> succeeds P' (f tt) Q ->
  succeeds P (bind (modify g) f) Q.
Proof. intros Hg H s Hs. apply (H (g s) (Hg s Hs)). Qed.

Lemma succeeds_assume {S A} (fact : Prop) (P : S -> Prop) (m : MS S A)
      (Q : A -> S -> Prop) :
  (forall s, P s -> fact) -> (fact -> succeeds P m Q) -> succeeds P m Q.
Proof. intros H1 H2 s Hs. apply (H2 (H1 s Hs) s Hs). Qed.

Section Register.
Variable E : env.
Hypothesis Hh : writable E AHistory = true.

Lemma register_file_succeeds (I : manager -> Prop) fname fpath n c dups :
  (forall s r, I s -> I (set_file_registry (Some r) s)) ->
  (forall s v, I s -> I (set_file_change_history v s)) ->
  (forall s v, I s -> I (set_history_file v s)) ->
  succeeds (fun s => registrable fname s /\ I s)
           (register_file E fname fpath n c dups)
           (fun _ s => file_registry s <> None /\ I s).
Proof.
  intros H1 H2 H3. unfold register_file.
  apply succeeds_get_bind. intros s0 [Hr Hs0].
  unfold registrable in Hr.
  destruct (file_registry s0) as [r |] eqn:Er; [| contradiction].
  set (J := fun s : manager => file_registry s <> None /\ I s).
  assert (HJ1 : forall s v, J s -> J (set_file_change_history v s)).
  { intros s v [Ha Hb]. split; [destruct s; exact Ha | now apply H2]. }
  assert (HJ2 : forall s v, J s -> J (set_history_file v s)).
  { intros s v [Ha Hb]. split; [destruct s; exact Ha | now apply H3]. }
  assert (HJ0 : forall s r', s = s0 -> J (set_file_registry (Some r') s)).
  { intros s r' ->. split; [destruct s0; discriminate | now apply H1]. }
  destruct (reg_get r fname) as [[f | x | x] |]; try contradiction.
  - eapply succeeds_modify_bind; [intros s Hs; apply (HJ0 s _ Hs) |].
    apply record_file_event_succeeds; auto.
  - eapply succeeds_modify_bind; [intros s Hs; apply (HJ0 s _ Hs) |].
    apply record_file_event_succeeds; auto.
Qed.

Lemma update_registry_stats_succeeds (I : manager -> Prop) n :
  (forall s r, I s -> I (set_file_registry (Some r) s)) ->
  succeeds (fun s => file_registry s <> None /\ I s)
           (update_registry_stats E n)
           (fun _ s => file_registry s <> None /\ I s).
Proof.
  intros H1. unfold update_registry_stats.
  apply succeeds_get_bind. intros s0 [Hr Hs0].
  destruct (file_registry s0) as [r |] eqn:Er; [| congruence].
  apply succeeds_modify. intros s ->.
  split; [destruct s0; discriminate | now apply H1].
Qed.

End Register.

Section Append.
Variable E : env.
Hypothesis Hw : forall a, writable E a = true.

(** With every file writable, an append of vectors that the index
    takes returns success, and leaves the grown index cached and
    saved. *)
Lemma append_vectors_succeeds index index' vs ms fpath dups :
  index_add index vs = Ret index' ->
  succeeds (fun s => loaded s /\ registrable (basename fpath) s)
           (append_vectors E index vs ms fpath dups)
           (fun res s => status res = Success /\ loaded s /\
                         indexes s = Some index' /\
                         index_file s = Some index').
Proof.
  intros Hadd. unfold append_vectors. rewrite Hadd.
  set (fname := basename fpath).
  set (P1 := fun s => loaded s /\ registrable fname s /\
                      indexes s = Some index').
  set (I2 := fun s => indexes s = Some index' /\ metadata s <> None).
  set (P2 := fun s => file_registry s <> None /\ I2 s).
  set (I3 := fun s => indexes s = Some index' /\ index_file s = Some index').
  apply succeeds_lift_bind.
  apply succeeds_modify_bind with (P' := P1); [unfold P1; solve_state |].
  apply succeeds_modify_bind with (P' := P1).
  { unfold P1. solve_metadata. }
  apply succeeds_get_bind. intros s0 H0.
  apply succeeds_bind with (R := fun _ s => registrable fname s /\ I2 s).
  { destruct (file_registry s0) eqn:Er.
    - apply succeeds_ret. intros s ->. unfold P1, I2, loaded in *. tauto.
    - exfalso. unfold P1, loaded in H0. tauto. }
  intros _.
  apply succeeds_bind with (R := fun _ => P2).
  { apply register_file_succeeds; [apply Hw | ..]; unfold I2; solve_state. }
  intros _.
  apply succeeds_bind with (R := fun _ => P2).
  { apply succeeds_for_each. intros x. apply succeeds_modify.
    unfold P2, I2. solve_metadata. }
  intros _.
  apply succeeds_bind with (R := fun _ => P2).
  { apply update_registry_stats_succeeds. unfold I2. solve_state. }
  intros _.
  apply succeeds_bind
    with (R := fun b s => b = true /\ loaded s /\ I3 s).
  { eapply succeeds_weaken; [apply (@save_index_succeeds E index' (Hw AIndex)) | |].
    - unfold P2, I2, loaded. intros s H. intuition congruence.
    - unfold I3. intros b s H. tauto. }
  intros b1.
  apply succeeds_assume with (fact := b1 = true); [tauto | intros ->].
  apply succeeds_bind
    with (R := fun b s => b = true /\ loaded s /\ I3 s).
  { eapply succeeds_weaken;
      [apply (@save_metadata_succeeds E I3 (Hw AMeta)) | |].
    - unfold I3. solve_state.
    - simpl. tauto.
    - simpl. tauto. }
  intros b2.
  apply succeeds_assume with (fact := b2 = true); [tauto | intros ->].
  apply succeeds_bind
    with (R := fun b s => b = true /\ loaded s /\ I3 s).
  { eapply succeeds_weaken;
      [apply (@save_file_registry_succeeds E I3 (Hw ARegistry)) | |].
    - unfold I3. solve_state.
    - unfold I3. solve_state.
    - simpl. tauto.
    - simpl. tauto. }
  intros b3.
  apply succeeds_assume with (fact := b3 = true); [tauto | intros ->].
  simpl negb. cbv iota.
  apply succeeds_bind with (R := fun _ s => loaded s /\ I3 s).
  { eapply succeeds_weaken;
      [apply (@record_collection_event_succeeds E
                (fun s => loaded s /\ I3 s)) | |].
    - apply Hw.
    - unfold I3. solve_state.
    - unfold I3. solve_state.
    - simpl. tauto.
    - simpl. tauto. }
  intros _. apply succeeds_ret. unfold I3. intros s H. simpl. tauto.
Qed.

End Append.

Lemma try_except_ret {S A} (m : MS S A) h (s : S) a :
  fst (m s) = Ret a -> try_except m h s = m s.
Proof.
  unfold try_except. destruct (m s) as [[a' | e] s']; simpl;
    [reflexivity | discriminate].
Qed.

Lemma first_insert_run (E : env) (s : manager) (index : faiss_index)
      (m : metadata_table) (vs : list vec) (ms : list entry) (fpath : string) :
  (forall a, writable E a = true) ->
  indexes s = Some index -> metadata s = Some m ->
  ntotal index = 0 ->
  List.length ms = List.length vs -> vs <> [] ->
  Forall (fun v : vec => len v = d index) vs ->
  registrable (basename fpath) s ->
  let run := try_except (insert_vectors E fpath vs ms)
                        (critical_error E fpath) s in
  exists res,
    fst run = Ret res /\
    status res = Success /\ count res = Some (len vs) /\
    duplicates res = None /\
    result_file_name res = Some (basename fpath) /\
    indexes (snd run) = Some (mk_index (kind index) (d index) vs) /\
    index_file (snd run) = Some (mk_index (kind index) (d index) vs).
Proof.
  intros Hw Hi Hm H0 Hlen Hne Hdim Hreg run. subst run.
  assert (Hx : xb index = []).
  { unfold ntotal, len in H0. destruct (xb index); [reflexivity | discriminate]. }
  pose proof (index_add_ret index Hne Hdim) as Hadd. rewrite Hx in Hadd.
  simpl in Hadd.
  assert (Hl : loaded s).
  { unfold loaded. rewrite Hi, Hm. unfold registrable in Hreg.
    destruct (file_registry s); [| contradiction].
    repeat split; discriminate. }
  destruct (@append_vectors_succeeds E Hw index _ vs ms fpath None Hadd s
              (conj Hl Hreg)) as [res (Hres & Hok & _ & Hidx & Hfile)].
  assert (Hins : insert_vectors E fpath vs ms s
                 = append_vectors E index vs ms fpath None s).
  { unfold insert_vectors. unfold bind at 1. unfold get at 1.
    rewrite Hi, Hm, (len_eq_length _ _ Hlen), H0. simpl.
    now apply try_except_ret with (a := res). }
  assert (Hrun : try_except (insert_vectors E fpath vs ms)
                            (critical_error E fpath) s
                 = append_vectors E index vs ms fpath None s).
  { rewrite <- Hins. apply try_except_ret with (a := res). now rewrite Hins. }
  rewrite Hrun. exists res.
  destruct (append_vectors_count E index vs ms fpath None s Hres Hok) as [Hc _].
  pose proof (append_vectors_returns E index vs ms fpath None s) as Hret.
  rewrite Hres in Hret. destruct (Hret Hok) as (_ & Hname & Hdups).
  repeat split; assumption.
Qed.

(** The first insert into an empty collection is not screened: with
    every file writable, vectors of the dimension of the index and as
    many metadata entries, [add_vectors] returns success with the
    count of all vectors given and no duplicates counter, and the
    cached and the saved index hold exactly these vectors, in order,
    also when the batch holds one vector several times. *)
Theorem first_insert_stores_every_vector (E : env) (s : manager)
        (index : faiss_index) (m : metadata_table) (r : registry)
        (vs : list vec) (ms : list entry) (fp : option string) :
  (forall a, writable E a = true) ->
  indexes s = Some index -> metadata s = Some m -> file_registry s = Some r ->
  ntotal index = 0 ->
  List.length ms = List.length vs -> vs <> [] ->
  Forall (fun v : vec => len v = d index) vs ->
  registrable (basename (resolve_file_path E fp ms)) s ->
  exists res,
    fst (add_vectors E vs ms fp s) = Ret res /\
    status res = Success /\ count res = Some (len vs) /\
    duplicates res = None /\
    result_file_name res = Some (basename (resolve_file_path E fp ms)) /\
    indexes (snd (add_vectors E vs ms fp s))
    = Some (mk_index (kind index) (d index) vs) /\
    index_file (snd (add_vectors E vs ms fp s))
    = Some (mk_index (kind index) (d index) vs).
Proof.
  intros Hw Hi Hm Hr H0 Hlen Hne Hdim Hreg.
  rewrite (add_vectors_loaded E s vs ms fp Hi Hm Hr).
  now apply first_insert_run with (m := m).
Qed.

Lemma first_insert_stores_every_vector_witness :
  exists res,
    fst (add_vectors env0 [v1; v1] [doc "a"; doc "b"] (Some "/docs/a.txt")
           (snd (load_collection env0 kb_created))) = Ret res /\
    status res = Success /\ count res = Some 2 /\
    indexes (snd (add_vectors env0 [v1; v1] [doc "a"; doc "b"]
                    (Some "/docs/a.txt")
                    (snd (load_collection env0 kb_created))))
    = Some (mk_index IndexFlatL2 4 [v1; v1]).
Proof.
  destruct (@first_insert_stores_every_vector env0
              (snd (load_collection env0 kb_created))
              (new_index IndexFlatL2 4) (MList []) []
              [v1; v1] [doc "a"; doc "b"] (Some "/docs/a.txt")
              (fun _ => eq_refl) eq_refl eq_refl eq_refl eq_refl eq_refl)
    as [res (H1 & H2 & H3 & _ & _ & H6 & _)].
  - discriminate.
  - repeat constructor.
  - vm_compute. exact I.
  - exists res. repeat split; assumption.
Defined.

(* ================================================================== *)
(** ** Further properties: delete_vectors *)

Lemma for_each_raises {S A} (body : A -> MS S unit) (x : A) :
  (forall s, exists e, fst (body x s) = Raise e) ->
  forall l, In x l ->
  forall s, exists e, fst (for_each l body s) = Raise e.
Proof.
  intros Hx. induction l as [| a t IH]; intros Hin s; [destruct Hin |].
  simpl. unfold bind.
  destruct Hin as [-> | Hin].
  - destruct (Hx s) as [e He].
    destruct (body x s) as [[u | e'] s']; simpl in *; [discriminate |].
    now exists e'.
  - destruct (body a s) as [[u | e'] s']; simpl; [apply IH, Hin |].
    now exists e'.
Qed.

Lemma in_range (a b i : Z) : a <= i < b -> In i (range a b).
Proof.
  intros H. unfold range. apply in_map_iff.
  exists (Z.to_nat (i - a)). split; [lia |].
  apply in_seq. lia.
Qed.

Lemma rebuild_metadata_list (l : list entry) (ids : list Z) (i : Z) :
  in_ids i ids = false ->
  forall rng acc, In i rng ->
  rebuild_metadata (MList l) ids rng acc = Raise AttributeError.
Proof.
  intros Hi. induction rng as [| j t IH]; intros acc Hin; [destruct Hin |].
  simpl. destruct (in_ids j ids) eqn:Hj; simpl.
  - destruct Hin as [-> | Hin]; [congruence | now apply IH].
  - reflexivity.
Qed.

Lemma prune_file_same_vectors (E : env) (ids : list Z) (s0 : manager)
      (r : registry) :
  preserves (same_vectors s0) (for_each r (prune_file E ids)).
Proof.
  unfold same_vectors. apply preserves_for_each. intros [k v].
  unfold prune_file, prune_version. frame.
Qed.

(** [delete_vectors] needs a metadata table that is a dict: with the
    list that [create_collection] and [add_vectors] keep, a non-empty
    index and at least one id to retain, it returns [False] and
    changes nothing at all. *)
Theorem delete_vectors_list_metadata (E : env) (ids : list Z) (s : manager)
        (index : faiss_index) (l : list entry) (r : registry)
        (h : list event) (i : Z) :
  indexes s = Some index -> metadata s = Some (MList l) ->
  file_registry s = Some r -> file_change_history s = Some h ->
  0 <= i < ntotal index -> in_ids i ids = false ->
  delete_vectors E ids s = (Ret false, s).
Proof.
  intros Hi Hm Hr Hh Hrange Hkeep.
  destruct s as [fi fm fr fh ci ix md rg hs]. simpl in Hi, Hm, Hr, Hh. subst.
  unfold delete_vectors, collection_exists. unfold_monad. simpl.
  destruct (ntotal index =? 0) eqn:H0; [apply Z.eqb_eq in H0; lia |].
  rewrite (@rebuild_metadata_list l ids i Hkeep _ [] (in_range Hrange)).
  reflexivity.
Qed.

Lemma delete_vectors_list_metadata_witness :
  delete_vectors env0 [0; 1; 2; 3] kb_five = (Ret false, kb_five).
Proof.
  eapply (@delete_vectors_list_metadata env0 [0; 1; 2; 3] kb_five _ _ _ _ 4);
    try (vm_compute; reflexivity).
  vm_compute. split; [discriminate | reflexivity].
Defined.

Lemma delete_vectors_scalar_value (E : env) (ids : list Z) (s : manager)
        (index : faiss_index) (m : metadata_table) (r : registry)
        (key : string) (v : reg_value) :
  indexes s = Some index -> metadata s = Some m -> file_registry s = Some r ->
  ntotal index <> 0 ->
  In (key, v) r -> (forall f, v <> RFile f) ->
  fst (delete_vectors E ids s) = Ret false /\
  same_vectors s (snd (delete_vectors E ids s)).
Proof.
  intros Hi Hm Hr Hne Hin Hv.
  assert (Hraise : forall s1, exists e,
             fst (for_each r (prune_file E ids) s1) = Raise e).
  { apply for_each_raises with (x := (key, v)); [| exact Hin].
    intros s1. unfold prune_file. simpl.
    destruct v as [f | x | x]; [destruct (Hv f eq_refl) | |];
      exists TypeError; reflexivity. }
  destruct s as [fi fm fr fh ci ix md rg hs]. simpl in Hi, Hm, Hr. subst.
  assert (Hgo : forall hs',
    let s1 := mk_manager fi fm fr fh ci (Some index) (Some m) (Some r) hs' in
    let s0 := mk_manager fi fm fr fh ci (Some index) (Some m) (Some r) hs in
    forall res,
      res = try_except
        (s <- get ;;
         match indexes s with
         | None => raise KeyError
         | Some index =>
             let total := ntotal index in
             if total =? 0 then ret true else
             let new_index := new_index IndexFlatL2 (d index) in
             m <- match metadata s with
                  | Some m => ret m
                  | None => raise KeyError
                  end ;;
             new_metadata <- lift (rebuild_metadata m ids (range 0 total) []) ;;
             r <- match file_registry s with
                  | Some r => ret r
                  | None => raise KeyError
                  end ;;
             for_each r (prune_file E ids) ;;
             modify (set_indexes (Some new_index)) ;;
             modify (set_metadata (Some (MDict new_metadata))) ;;
             _save_index E ;;
             _save_metadata E ;;
             _save_file_registry E ;;
             _record_collection_event E "vector_delete"
               [("deleted_count", DInt (len ids));
                ("remaining_count", DInt (total - len ids))] ;;
             ret true
         end)
        (fun _ => ret false) s1 ->
      fst res = Ret false /\ same_vectors s0 (snd res)).
  { intros hs' s1 s0 res ->. subst s1 s0.
    destruct (ntotal index =? 0) eqn:H0; [apply Z.eqb_eq in H0; contradiction |].
    match goal with
    | |- context [try_except _ _ ?s1] =>
        destruct (Hraise s1) as [e He];
        pose proof (fun s0 => @prune_file_same_vectors E ids s0 r s1) as Hp
    end.
    unfold try_except, bind, get, ret, lift.
    cbn [indexes metadata file_registry]. rewrite H0.
    destruct (rebuild_metadata m ids (range 0 (ntotal index)) [])
      as [nm | e0].
    2:{ simpl. split; [reflexivity |]. unfold same_vectors. simpl. tauto. }
    destruct (for_each r (prune_file E ids) _) as [[u | e'] s2];
      simpl in He; [discriminate |].
    simpl. split; [reflexivity |]. apply Hp. unfold same_vectors. simpl. tauto. }
  unfold delete_vectors, collection_exists.
  unfold bind at 1. unfold bind at 1. unfold get at 1. simpl indexes.
  cbv iota. unfold ret at 1. simpl negb. cbv iota.
  unfold bind at 1. unfold get at 1. unfold bind at 1. simpl indexes.
  cbv iota. unfold ret at 1.
  unfold bind at 1. unfold get at 1. unfold bind at 1. simpl metadata.
  cbv iota. unfold ret at 1.
  unfold bind at 1. unfold get at 1. unfold bind at 1. simpl file_registry.
  cbv iota. unfold ret at 1.
  unfold bind at 1. unfold get at 1. unfold bind at 1.
  simpl file_change_history.
  destruct hs as [hs |].
  - unfold ret at 1. apply (Hgo (Some hs)). reflexivity.
  - unfold _load_file_history. unfold bind at 1. unfold get at 1.
    simpl history_file.
    destruct fh as [fh |]; unfold bind at 1; unfold modify at 1;
      unfold ret at 1; unfold set_file_change_history; simpl;
      eapply Hgo; reflexivity.
Qed.

(** [delete_vectors] walks every value of the registry as a file
    record: when the registry holds one of the aggregate fields
    ([_created_at], [_last_updated], [_file_count], [_vector_count]) or
    any other value that is no record, the deletion from a non-empty
    index returns [False] and leaves index and metadata table, cached
    and on disk, as they were. *)
Theorem delete_vectors_aggregate_keys (E : env) (ids : list Z) (s : manager)
        (index : faiss_index) (m : metadata_table) (r : registry) :
  indexes s = Some index -> metadata s = Some m -> file_registry s = Some r ->
  ntotal index <> 0 ->
  Exists (fun kv => match snd kv with RFile _ => False | _ => True end) r ->
  fst (delete_vectors E ids s) = Ret false /\
  same_vectors s (snd (delete_vectors E ids s)).
Proof.
  intros Hi Hm Hr Hne Hex.
  apply Exists_exists in Hex. destruct Hex as [[key v] [Hin Hv]].
  apply (@delete_vectors_scalar_value E ids s index m r key v); auto.
  intros f ->. exact Hv.
Qed.

Lemma delete_vectors_aggregate_keys_witness :
  fst (delete_vectors env0 [0] kb_dict_added) = Ret false /\
  same_vectors kb_dict_added (snd (delete_vectors env0 [0] kb_dict_added)).
Proof.
  eapply (@delete_vectors_aggregate_keys env0 [0] kb_dict_added);
    try (vm_compute; reflexivity).
  - vm_compute. discriminate.
  - vm_compute. apply Exists_cons_tl, Exists_cons_hd. exact I.
Defined.

(* ================================================================== *)
(** ** Further properties: what add_vectors leaves in the registry *)

Lemma hoare_step_return {A B} (I K J : manager -> Prop)
      (m : M A) (f : A -> M B) :
  hoare I m (on_return K) ->
  (forall a, hoare K (f a) (on_return J)) ->
  hoare I (bind m f) (on_return J).
Proof.
  intros Hm Hf. apply hoare_bind with (R := fun _ s => K s); [| exact Hf].
  intros s HI. specialize (Hm s HI).
  destruct (m s) as [[a | e] s']; simpl in *.
  - apply Hm. now exists a.
  - apply on_return_raise.
Qed.

Lemma hoare_lift_bind {A B} (P : manager -> Prop) (a : A) (f : A -> M B)
      (Q : outcome B -> manager -> Prop) :
  hoare P (f a) Q -> hoare P (bind (lift (Ret a)) f) Q.
Proof. intros H s Hs. apply (H s Hs). Qed.

Lemma hoare_raise_bind {A B} (P J : manager -> Prop) e (f : A -> M B) :
  hoare P (bind (lift (Raise e)) f) (on_return J).
Proof. intros s _. apply on_return_raise. Qed.

Lemma hoare_forget {A} (P : manager -> Prop) (m : M A)
      (Q : outcome A -> manager -> Prop) :
  hoare (fun _ => True) m Q -> hoare P m Q.
Proof. intros H s _. now apply H. Qed.

Lemma preserves_true {S A} (m : MS S A) : preserves (fun _ => True) m.
Proof. intros s _. exact I. Qed.

(** [frame] for the invariants on the registry of this part. *)
Ltac frame_registry :=
  repeat (first [ solve [eauto 3 with pres nocore]
                | preserve_step
                | progress unfold_store ]);
  try (let s := fresh "s" in let H := fresh "H" in
       intros s H; destruct s; simpl in *;
       repeat match goal with
              | |- context [match ?x with _ => _ end] => destruct x; simpl in *
              end;
       unfold latest_version, stamped, record_of in *; simpl in *;
       solve [auto | congruence | intuition congruence]).

Lemma max_version_ge (vs : list version) (u : version) :
  In u vs -> v_version u <= max_version vs.
Proof.
  unfold max_version. generalize (v_version (hd (mk_version 0 0 [] "") vs)).
  induction vs as [| a t IH]; intros z Hin; [destruct Hin |].
  simpl. destruct Hin as [-> | Hin]; [lia |].
  specialize (IH z Hin). lia.
Qed.

Lemma update_registry_stats_keeps_record (E : env) fname n (s : manager) :
  startswith_underscore fname = false ->
  record_of (snd (update_registry_stats E n s)) fname = record_of s fname.
Proof.
  intros Hf. destruct s as [fi fm fr fh ci i md rg h].
  unfold update_registry_stats. unfold_monad. simpl.
  destruct rg as [rg |]; simpl; [| reflexivity].
  unfold record_of. simpl.
  rewrite !reg_get_set_other by (apply not_underscore_key; auto).
  reflexivity.
Qed.

Lemma update_registry_stats_latest (E : env) fname n c k :
  startswith_underscore fname = false ->
  preserves (latest_version fname n c) (update_registry_stats E k).
Proof.
  intros Hf s H. unfold latest_version in *.
  now rewrite update_registry_stats_keeps_record.
Qed.

Lemma save_file_registry_latest (E : env) fname n c :
  startswith_underscore fname = false ->
  preserves (latest_version fname n c) (_save_file_registry E).
Proof.
  intros Hf s H. unfold latest_version in *.
  now rewrite save_file_registry_keeps_record.
Qed.

#[local] Hint Resolve update_registry_stats_latest
  save_file_registry_latest : pres.

Lemma register_file_latest (E : env) fname fpath n c dups :
  hoare (fun _ => True) (register_file E fname fpath n c dups)
        (on_return (latest_version fname n c)).
Proof.
  unfold register_file. apply hoare_get_bind. intros s0 _.
  destruct (file_registry s0) as [r |] eqn:Hr;
    [| intros s _; apply on_return_raise].
  destruct (reg_get r fname) as [[f | x | x] |] eqn:Hg;
    try (intros s _; apply on_return_raise).
  - apply hoare_step_change with (K := latest_version fname n c).
    + intros s ->. unfold modify. simpl.
      eexists. exists (versions f). eexists.
      split; [unfold record_of; destruct s0; simpl;
              rewrite reg_get_set_same; reflexivity |].
      simpl. repeat split.
      apply Forall_forall. intros u Hu. simpl.
      destruct (versions f) as [| v0 t] eqn:Hv; [destruct Hu |].
      pose proof (@max_version_ge (v0 :: t) u Hu). lia.
    + intros _. apply hoare_last. frame_registry.
  - apply hoare_step_change with (K := latest_version fname n c).
    + intros s ->. unfold modify. simpl.
      eexists. exists []. eexists.
      split; [unfold record_of; destruct s0; simpl;
              rewrite reg_get_set_same; reflexivity |].
      simpl. repeat split. constructor.
    + intros _. apply hoare_last. frame_registry.
Qed.

Lemma append_vectors_latest (E : env) index vs ms fpath dups :
  startswith_underscore (basename fpath) = false ->
  hoare (fun _ => True) (append_vectors E index vs ms fpath dups)
        (on_return (latest_version (basename fpath) (ntotal index) (len vs))).
Proof.
  intros Hf. unfold append_vectors.
  destruct (index_add index vs) as [index' | e] eqn:Ha;
    [| apply hoare_raise_bind].
  apply index_add_cases in Ha. subst index'.
  assert (Hlen : ntotal (mk_index (kind index) (d index) (xb index ++ vs))
                 - ntotal index = len vs).
  { unfold ntotal, len. simpl. rewrite length_app. lia. }
  apply hoare_lift_bind. cbv beta zeta. rewrite !Hlen.
  apply hoare_step_preserves; [apply preserves_true | intros _].
  apply hoare_step_preserves; [apply preserves_true | intros _].
  apply hoare_get_bind. intros s0 _. apply hoare_forget.
  apply hoare_step_preserves; [apply preserves_true | intros _].
  apply hoare_step_return
    with (K := latest_version (basename fpath) (ntotal index) (len vs));
    [apply register_file_latest | intros _].
  apply hoare_last. frame_registry.
Qed.

Lemma update_registry_stats_stamps (E : env) k :
  hoare (fun _ => True) (update_registry_stats E k) (on_return (stamped E)).
Proof.
  unfold update_registry_stats. apply hoare_get_bind. intros s0 _.
  destruct (file_registry s0) as [r |] eqn:Hr;
    [| intros s _; apply on_return_raise].
  intros s -> _. unfold modify. simpl. eexists.
  split; [destruct s0; reflexivity |].
  rewrite !reg_get_set_other by reflexivity. apply reg_get_set_same.
Qed.

Lemma save_file_registry_stamped (E : env) :
  preserves (stamped E) (_save_file_registry E).
Proof.
  intros s [r [Hr Hg]]. destruct s as [fi fm fr fh ci i md rg h].
  simpl in Hr. subst rg.
  unfold _save_file_registry, write_file. unfold_monad. simpl.
  assert (Hset : forall r' a b,
    reg_get (reg_set (reg_set (reg_set r' "_last_updated" (RStr (now E)))
                              "_file_count" a) "_vector_count" b)
            "_last_updated" = Some (RStr (now E))).
  { intros r' a b. rewrite !reg_get_set_other by reflexivity.
    apply reg_get_set_same. }
  destruct r as [| kv t]; simpl.
  - destruct (writable E ARegistry); simpl; eexists;
      (split; [reflexivity |]); reflexivity.
  - destruct (count_files _) as [fc vc].
    destruct (writable E ARegistry); simpl; eexists;
      (split; [reflexivity |]); apply Hset.
Qed.

#[local] Hint Resolve save_file_registry_stamped : pres.

Lemma append_vectors_stamps (E : env) index vs ms fpath dups :
  hoare (fun _ => True) (append_vectors E index vs ms fpath dups)
        (on_return (stamped E)).
Proof.
  unfold append_vectors.
  destruct (index_add index vs) as [index' | e] eqn:Ha;
    [| apply hoare_raise_bind].
  apply hoare_lift_bind.
  apply hoare_step_preserves; [apply preserves_true | intros _].
  apply hoare_step_preserves; [apply preserves_true | intros _].
  apply hoare_get_bind. intros s0 _. apply hoare_forget.
  apply hoare_step_preserves; [apply preserves_true | intros _].
  apply hoare_step_preserves; [apply preserves_true | intros _].
  apply hoare_step_preserves; [apply preserves_true | intros _].
  apply hoare_step_return with (K := stamped E);
    [apply update_registry_stats_stamps | intros _].
  apply hoare_last. frame_registry.
Qed.

(** A successful [add_vectors] that stored vectors went through the
    append of some accepted vectors. *)
Lemma add_vectors_success_inv (E : env) (s : manager) index m r fp vs ms
      res c :
  indexes s = Some index -> metadata s = Some m -> file_registry s = Some r ->
  fst (add_vectors E vs ms fp s) = Ret res ->
  status res = Success -> count res = Some c -> c <> 0 ->
  exists vs' ms' dups,
    add_vectors E vs ms fp s
    = append_vectors E index vs' ms' (resolve_file_path E fp ms) dups s /\
    c = len vs' /\ vs' <> [].
Proof.
  intros Hi Hm Hr Hres Hok Hc Hc0.
  rewrite (add_vectors_loaded E s vs ms fp Hi Hm Hr) in *.
  set (fpath := resolve_file_path E fp ms) in *.
  assert (Happend : forall vs' ms' dups h,
    (forall e, returns (fun res => status res = Error) (h e)) ->
    fst (try_except (append_vectors E index vs' ms' fpath dups) h s) = Ret res ->
    try_except (append_vectors E index vs' ms' fpath dups) h s
    = append_vectors E index vs' ms' fpath dups s /\
    c = len vs' /\ vs' <> []).
  { intros vs' ms' dups h Hh Hrun. unfold try_except in *.
    pose proof (@append_vectors_count E index vs' ms' fpath dups s) as Hcount.
    destruct (append_vectors E index vs' ms' fpath dups s) as [[a | e] s2].
    - simpl in Hrun. injection Hrun as ->.
      destruct (Hcount res eq_refl Hok) as [Hc' Hne].
      split; [reflexivity |]. split; [congruence | exact Hne].
    - exfalso. pose proof (Hh e s2) as He.
      destruct (h e s2) as [[a | e'] s3]; simpl in *; [| discriminate].
      injection Hrun as ->. congruence. }
  revert Hres. unfold try_except at 1 2.
  destruct (insert_vectors E fpath vs ms s) as [[a | e] s'] eqn:Hrun.
  2:{ unfold critical_error. unfold bind at 1 2.
      destruct (try_except _ _ s') as [[u | e'] s'']; simpl; [| discriminate].
      unfold ret. simpl. intros [= <-]. discriminate Hok. }
  simpl. intros [= ->].
  unfold insert_vectors in Hrun. unfold bind at 1 in Hrun.
  unfold get at 1 in Hrun. rewrite Hi, Hm in Hrun.
  destruct (negb (len ms =? len vs)).
  { injection Hrun as <- _. discriminate Hok. }
  destruct (ntotal index =? 0).
  - exists vs, ms, None. rewrite <- Hrun.
    apply Happend; [intros e; apply error_event_status |].
    now rewrite Hrun.
  - unfold bind at 1 in Hrun. unfold lift at 1 in Hrun.
    destruct (screen E index ([], [], 0) (combine vs ms))
      as [[[av am] dc] | e]; [| discriminate Hrun].
    destruct av as [| v av'].
    + exfalso. revert Hrun. unfold _record_collection_event, append_event,
        _save_file_history, write_file. unfold_monad. simpl.
      destruct (writable E AHistory); simpl; [| discriminate].
      intros [= <- _]. simpl in Hc. congruence.
    + exists (v :: av'), am, (Some dc). rewrite <- Hrun.
      apply Happend; [intros e; apply error_event_status |].
      now rewrite Hrun.
Qed.

Lemma reg_get_in (r : registry) k v : reg_get r k = Some v -> In (k, v) r.
Proof.
  unfold reg_get. induction r as [| [k' v'] t IH]; simpl; [discriminate |].
  destruct (String.eqb k k') eqn:Hk.
  - apply String.eqb_eq in Hk. subst k'. intros [= ->]. now left.
  - intros H. right. apply IH, H.
Qed.

Lemma find_app_last {A} (p : A -> bool) (older : list A) (v : A) :
  Forall (fun u => p u = false) older -> p v = true ->
  find p (older ++ [v]) = Some v.
Proof.
  intros Ho Hv. induction Ho as [| u t Hu _ IH]; simpl.
  - now rewrite Hv.
  - now rewrite Hu.
Qed.

Lemma list_files_loaded getsize (s : manager) index r :
  indexes s = Some index -> file_registry s = Some r ->
  list_files getsize s = (Ret (flat_map (list_item getsize) r), s).
Proof.
  intros Hi Hr. destruct s as [fi fm fr fh ci i md rg h].
  simpl in Hi, Hr. subst.
  unfold list_files, collection_exists. unfold_monad. reflexivity.
Qed.

Lemma get_file_info_loaded (s : manager) index r fname v :
  indexes s = Some index -> file_registry s = Some r ->
  reg_get r fname = Some v ->
  get_file_info fname s = (Ret (FIValue v), s).
Proof.
  intros Hi Hr Hg. destruct s as [fi fm fr fh ci i md rg h].
  simpl in Hi, Hr. subst.
  unfold get_file_info, collection_exists. unfold_monad. simpl.
  now rewrite Hg.
Qed.

(** The record a successful [add_vectors] leaves.  When the call
    stored [c > 0] vectors in an index that held [n], the registry has a
    record under the base name of the path whose last version lists
    exactly the ids [n], ..., [n + c - 1], counts [c] and is the
    current one; [get_file_info] returns this record and [list_files]
    lists the file with [c] chunks. *)
Theorem add_vectors_registers_file (E : env) getsize (s : manager)
        (index : faiss_index) (m : metadata_table) (r : registry)
        (fp : option string) (vs : list vec) (ms : list entry)
        (res : add_result) (c : Z) :
  indexes s = Some index -> metadata s = Some m -> file_registry s = Some r ->
  startswith_underscore (basename (resolve_file_path E fp ms)) = false ->
  fst (add_vectors E vs ms fp s) = Ret res ->
  status res = Success -> count res = Some c -> c <> 0 ->
  let fname := basename (resolve_file_path E fp ms) in
  let s' := snd (add_vectors E vs ms fp s) in
  latest_version fname (ntotal index) c s' /\
  (exists f, record_of s' fname = Some f /\
             get_file_info fname s' = (Ret (FIValue (RFile f)), s')) /\
  (exists files fd,
      list_files getsize s' = (Ret files, s') /\ In fd files /\
      fd_file_name fd = fname /\ fd_chunks_count fd = c).
Proof.
  intros Hi Hm Hr Hf Hres Hok Hc Hc0 fname s'.
  destruct (@add_vectors_success_inv E s index m r fp vs ms res c
              Hi Hm Hr Hres Hok Hc Hc0)
    as (vs' & ms' & dups & Heq & Hlen & Hne).
  assert (Hlatest : latest_version fname (ntotal index) c s').
  { subst s' fname c. rewrite Heq.
    apply (@append_vectors_latest E index vs' ms' _ dups Hf s I).
    rewrite <- Heq. now exists res. }
  assert (Hidx : exists index', indexes s' = Some index').
  { subst s'. rewrite Heq, append_vectors_indexes.
    destruct (index_add index vs'); eauto. }
  destruct Hidx as [index' Hidx].
  split; [exact Hlatest |].
  destruct Hlatest as (f & older & v & Hrec & Hvers & Hids & Hcount & Hcur & Hold).
  unfold record_of in Hrec.
  destruct (file_registry s') as [r' |] eqn:Hr'; [| discriminate].
  destruct (reg_get r' fname) as [[f' | |] |] eqn:Hg; try discriminate.
  injection Hrec as ->.
  split.
  - exists f. split; [unfold record_of; now rewrite Hr', Hg |].
    apply (get_file_info_loaded s' fname Hidx Hr' Hg).
  - exists (flat_map (list_item getsize) r'), (file_entry getsize fname f).
    split; [apply (list_files_loaded getsize s' Hidx Hr') |].
    split.
    + apply in_flat_map. exists (fname, RFile f).
      split; [apply reg_get_in, Hg |].
      unfold list_item. simpl. fold fname in Hf. rewrite Hf. now left.
    + split; [reflexivity |]. simpl. unfold chunks_count_of.
      assert (Hfind : find (fun u => v_version u =? current_version f)
                           (versions f) = Some v).
      { rewrite Hvers, Hcur. apply find_app_last; [| apply Z.eqb_refl].
        eapply Forall_impl; [| exact Hold].
        intros u Hu. now apply Z.eqb_neq. }
      destruct (versions f) as [| v0 t] eqn:Hv0.
      * now destruct older.
      * rewrite Hfind. exact Hcount.
Qed.

Lemma add_vectors_registers_file_witness :
  let s := snd (load_collection env0 kb_created) in
  let s' := snd (add_vectors env0 [v1; v2] [doc "a"; doc "b"]
                   (Some "/docs/a.txt") s) in
  latest_version "a.txt" 0 2 s' /\
  exists files fd,
    list_files (fun _ => None) s' = (Ret files, s') /\ In fd files /\
    fd_file_name fd = "a.txt" /\ fd_chunks_count fd = 2.
Proof.
  intros s s'.
  destruct (@add_vectors_registers_file env0 (fun _ => None) s
              (new_index IndexFlatL2 4) (MList []) []
              (Some "/docs/a.txt") [v1; v2] [doc "a"; doc "b"]
              (match fst (add_vectors env0 [v1; v2] [doc "a"; doc "b"]
                            (Some "/docs/a.txt") s) with
               | Ret res => res
               | Raise _ => error_result MsgLengthMismatch
               end) 2)
    as (H1 & _ & H3); try (vm_compute; reflexivity).
  - discriminate.
  - split; [exact H1 | exact H3].
Defined.

Lemma append_vectors_metadata (E : env) index vs ms fpath dups :
  preserves (fun s => metadata s <> None)
            (append_vectors E index vs ms fpath dups).
Proof. unfold append_vectors. frame. Qed.

(** Once [add_vectors] has stored vectors, [delete_vectors] cannot
    delete any: the registry then carries the stamp [_last_updated],
    which the deletion takes for a file record, so that every call
    returns [False] and leaves index and metadata table, cached and on
    disk, as they were. *)
Theorem delete_after_add_fails (E : env) (s : manager)
        (index : faiss_index) (m : metadata_table) (r : registry)
        (fp : option string) (vs : list vec) (ms : list entry)
        (res : add_result) (c : Z) (ids : list Z) :
  indexes s = Some index -> metadata s = Some m -> file_registry s = Some r ->
  fst (add_vectors E vs ms fp s) = Ret res ->
  status res = Success -> count res = Some c -> c <> 0 ->
  let s' := snd (add_vectors E vs ms fp s) in
  fst (delete_vectors E ids s') = Ret false /\
  same_vectors s' (snd (delete_vectors E ids s')).
Proof.
  intros Hi Hm Hr Hres Hok Hc Hc0 s'.
  destruct (@add_vectors_success_inv E s index m r fp vs ms res c
              Hi Hm Hr Hres Hok Hc Hc0)
    as (vs' & ms' & dups & Heq & Hlen & Hne).
  assert (Hst : stamped E s').
  { subst s'. rewrite Heq.
    apply (@append_vectors_stamps E index vs' ms' _ dups s I).
    rewrite <- Heq. now exists res. }
  assert (Hmd : metadata s' <> None).
  { subst s'. rewrite Heq. apply append_vectors_metadata. congruence. }
  assert (Hidx : exists index', indexes s' = Some index' /\ ntotal index' <> 0).
  { subst s'. rewrite Heq, append_vectors_indexes.
    rewrite Heq in Hres.
    unfold append_vectors in Hres. unfold bind at 1 in Hres.
    unfold lift at 1 in Hres.
    destruct (index_add index vs') as [index' |] eqn:Ha; [| discriminate].
    exists index'. split; [reflexivity |].
    apply index_add_cases in Ha. subst index'. unfold ntotal, len. simpl.
    rewrite length_app. destruct vs'; [congruence | simpl; lia]. }
  destruct Hidx as (index' & Hidx & Hn).
  destruct Hst as (r' & Hr' & Hg).
  destruct (metadata s') as [m' |] eqn:Hm'; [| congruence].
  apply (@delete_vectors_scalar_value E ids s' index' m' r'
           "_last_updated" (RStr (now E))); auto.
  - apply reg_get_in, Hg.
  - discriminate.
Qed.

Lemma delete_after_add_fails_witness :
  let s := snd (load_collection env0 kb_created) in
  let s' := snd (add_vectors env0 [v1; v2] [doc "a"; doc "b"]
                   (Some "/docs/a.txt") s) in
  fst (delete_vectors env0 [] s') = Ret false /\
  same_vectors s' (snd (delete_vectors env0 [] s')).
Proof.
  intros s s'.
  apply (@delete_after_add_fails env0 s
           (new_index IndexFlatL2 4) (MList []) []
           (Some "/docs/a.txt") [v1; v2] [doc "a"; doc "b"]
           (match fst (add_vectors env0 [v1; v2] [doc "a"; doc "b"]
                         (Some "/docs/a.txt") s) with
            | Ret res => res
            | Raise _ => error_result MsgLengthMismatch
            end) 2 []);
    try (vm_compute; reflexivity).
  discriminate.
Defined.

(* ================================================================== *)
(** ** Further properties: delete_file *)

Lemma dict_del_other (r : registry) k k' :
  String.eqb k' k = false ->
  reg_get (dict_del String.eqb r k) k' = reg_get r k'.
Proof.
  intros Hne. unfold reg_get. induction r as [| [k0 v0] t IH]; simpl.
  - reflexivity.
  - destruct (String.eqb k k0) eqn:Hk; simpl.
    + apply String.eqb_eq in Hk. subst k0. now rewrite Hne.
    + destruct (String.eqb k' k0); [reflexivity | exact IH].
Qed.

Lemma reg_get_not_in (r : registry) k :
  ~ In k (map fst r) -> reg_get r k = None.
Proof.
  unfold reg_get. induction r as [| [k0 v0] t IH]; simpl; [reflexivity |].
  intros Hn. destruct (String.eqb k k0) eqn:Hk.
  - apply String.eqb_eq in Hk. subst k0. tauto.
  - apply IH. tauto.
Qed.

Lemma dict_del_same (r : registry) k :
  NoDup (map fst r) -> reg_get (dict_del String.eqb r k) k = None.
Proof.
  unfold reg_get. induction r as [| [k0 v0] t IH]; simpl; [reflexivity |].
  intros Hnd. inversion Hnd as [| ? ? Hn Hnd']. subst.
  destruct (String.eqb k k0) eqn:Hk; simpl.
  - apply String.eqb_eq in Hk. subst k0. now apply reg_get_not_in.
  - rewrite Hk. now apply IH.
Qed.

Lemma record_set_scalar (r : registry) k k' v :
  (forall f, v <> RFile f) ->
  match reg_get r k' with Some (RFile f) => Some f | _ => None end = None ->
  match reg_get (reg_set r k v) k' with Some (RFile f) => Some f | _ => None end
  = None.
Proof.
  intros Hv H. destruct (String.eqb k' k) eqn:Hk.
  - apply String.eqb_eq in Hk. subst k'. rewrite reg_get_set_same.
    destruct v; try reflexivity. destruct (Hv f eq_refl).
  - now rewrite reg_get_set_other.
Qed.

Lemma save_file_registry_no_record (E : env) fname :
  preserves (fun s => record_of s fname = None) (_save_file_registry E).
Proof.
  intros s H. destruct s as [fi fm fr fh ci i md rg h].
  unfold _save_file_registry, write_file. unfold_monad. simpl.
  unfold record_of in *. simpl in *.
  destruct rg as [[| kv t] |]; simpl; [| | reflexivity].
  - assert (Hstub : match reg_get (registry_stub E) fname with
                    | Some (RFile f) => Some f
                    | _ => None
                    end = None).
    { unfold reg_get, registry_stub. simpl.
      repeat match goal with
             | |- context [String.eqb ?a ?b] => destruct (String.eqb a b)
             end; reflexivity. }
    destruct (writable E ARegistry); simpl; exact Hstub.
  - destruct (count_files _) as [fc vc].
    destruct (writable E ARegistry); simpl;
      repeat (apply record_set_scalar; [discriminate |]); exact H.
Qed.

Lemma save_file_registry_same_record (E : env) fname x :
  startswith_underscore fname = false ->
  preserves (fun s => record_of s fname = x) (_save_file_registry E).
Proof.
  intros Hf s H. now rewrite save_file_registry_keeps_record.
Qed.

Lemma save_file_registry_returns (E : env) (P : manager -> Prop) :
  succeeds P (_save_file_registry E) (fun _ _ => True).
Proof.
  intros s _. destruct (save_file_registry_frame E s) as (_ & _ & _ & _ & _ & _ & _ & b & Hb).
  exists b. split; [exact Hb | exact I].
Qed.

Lemma update_collection_stats_returns (E : env) (P : manager -> Prop) vc fc :
  succeeds P (_update_collection_stats E vc fc) (fun _ _ => True).
Proof.
  intros s _. unfold _update_collection_stats, write_file. unfold_monad.
  destruct (collections_info s); [| now exists false].
  destruct (writable E AInfo); simpl; eauto.
Qed.

Lemma delete_file_known (E : env) (s : manager) index m r f fname :
  indexes s = Some index -> metadata s = Some m -> file_registry s = Some r ->
  reg_get r fname = Some (RFile f) ->
  delete_file E fname s =
    try_except
      (modify (set_file_registry (Some (dict_del String.eqb r fname))) ;;
       _save_file_registry E ;;
       _record_file_event E fname "delete"
         [("file_name", DStr fname); ("timestamp", DStr (now E));
          ("action", DStr "delete"); ("vector_count", DInt 0)] ;;
       _update_collection_stats E None None ;;
       ret true)
      (fun _ => ret false) s.
Proof.
  intros Hi Hm Hr Hg.
  destruct s as [fi fm fr fh ci i md rg h]; simpl in Hi, Hm, Hr; subst.
  unfold delete_file, _ensure_collection_exists, collection_exists.
  unfold_monad. simpl. rewrite Hg. reflexivity.
Qed.

(** [delete_file] forgets the file and keeps its vectors.  On a cached
    collection, for a name the registry does not hold it returns
    [False] and changes nothing; for a registered file it removes the
    record from the registry and leaves the records of the other files
    and the index and the metadata table, cached and on disk, as they
    were, so the vectors of the file stay in the index; it returns
    [True] when the change log can be written. *)
Theorem delete_file_keeps_vectors (E : env) (s : manager)
        (index : faiss_index) (m : metadata_table) (r : registry)
        (fname : string) :
  indexes s = Some index -> metadata s = Some m -> file_registry s = Some r ->
  NoDup (map fst r) ->
  (reg_get r fname = None -> delete_file E fname s = (Ret false, s)) /\
  (forall f, reg_get r fname = Some (RFile f) ->
     let s' := snd (delete_file E fname s) in
     same_vectors s s' /\ record_of s' fname = None /\
     (forall g, String.eqb g fname = false ->
                startswith_underscore g = false ->
                record_of s' g = record_of s g) /\
     (writable E AHistory = true -> fst (delete_file E fname s) = Ret true)).
Proof.
  intros Hi Hm Hr Hnd. split.
  - intros Hg.
    destruct s as [fi fm fr fh ci i md rg h]; simpl in Hi, Hm, Hr; subst.
    unfold delete_file, _ensure_collection_exists, collection_exists.
    unfold_monad. simpl. rewrite Hg. reflexivity.
  - intros f Hg s'. subst s'.
    rewrite (@delete_file_known E s index m r f fname Hi Hm Hr Hg).
    split; [| split; [| split]].
    + apply run_preserves; [| unfold same_vectors; tauto].
      unfold same_vectors, _update_collection_stats. frame.
    + apply try_run; [| intros e; frame].
      rewrite run_modify_bind. cbv beta.
      apply run_preserves.
      * apply preserves_bind;
          [apply save_file_registry_no_record | intros _].
        unfold _update_collection_stats. frame.
      * unfold record_of. destruct s; simpl.
        now rewrite dict_del_same.
    + intros g Hne Hu.
      apply (@try_run _ (fun s1 => record_of s1 g = record_of s g));
        [| intros e; frame].
      rewrite run_modify_bind. cbv beta.
      apply run_preserves.
      * apply preserves_bind;
          [apply save_file_registry_same_record, Hu | intros _].
        unfold _update_collection_stats. frame.
      * unfold record_of. destruct s; simpl in *. subst.
        now rewrite dict_del_other.
    + intros Hw.
      assert (Hs : succeeds (fun _ : manager => True)
                (modify (set_file_registry
                           (Some (dict_del String.eqb r fname))) ;;
                 _save_file_registry E ;;
                 _record_file_event E fname "delete"
                   [("file_name", DStr fname); ("timestamp", DStr (now E));
                    ("action", DStr "delete"); ("vector_count", DInt 0)] ;;
                 _update_collection_stats E None None ;;
                 ret true)
                (fun b _ => b = true)).
      { eapply succeeds_modify_bind with (P' := fun _ => True); [auto |].
        eapply succeeds_bind;
          [apply save_file_registry_returns | intros ?; cbv beta].
        eapply succeeds_bind with (R := fun _ _ => True).
        { apply (@record_file_event_succeeds E (fun _ => True)); auto. }
        intros ?.
        eapply succeeds_bind;
          [apply update_collection_stats_returns | intros ?; cbv beta].
        apply succeeds_ret. auto. }
      destruct (Hs s I) as [b [Hb ->]].
      rewrite (@try_except_ret _ _ _ _ s true Hb). exact Hb.
Qed.

Lemma delete_file_keeps_vectors_witness :
  let s' := snd (delete_file env0 "a.txt" kb_five) in
  same_vectors kb_five s' /\ record_of s' "a.txt" = None /\
  fst (delete_file env0 "a.txt" kb_five) = Ret true.
Proof.
  intros s'.
  destruct (@delete_file_keeps_vectors env0 kb_five
              (match indexes kb_five with
               | Some i => i
               | None => new_index IndexFlatL2 4
               end)
              (match metadata kb_five with Some m => m | None => MList [] end)
              (match file_registry kb_five with Some r => r | None => [] end)
              "a.txt") as [_ H].
  - vm_compute. reflexivity.
  - vm_compute. reflexivity.
  - vm_compute. reflexivity.
  - vm_compute. repeat constructor; simpl; intuition discriminate.
  - edestruct H as (H1 & H2 & _ & H4); [vm_compute; reflexivity |].
    split; [exact H1 |]. split; [exact H2 |]. apply H4. reflexivity.
Defined.

(* ================================================================== *)
(** ** Further properties: add_vectors, rejected input *)

Lemma critical_error_total (E : env) fpath e (s : manager) :
  fst (critical_error E fpath e s) = Ret (error_result (MsgCritical e)).
Proof.
  unfold critical_error. unfold bind, try_except, ret.
  destruct (_record_collection_event E _ _ s) as [[u | e'] s']; reflexivity.
Qed.

(** The outermost handler of [add_vectors] around a body that, from
    [s], raises or returns an error. *)
Lemma guarded_error (E : env) fpath (m : M add_result) (I : manager -> Prop)
      (s : manager) :
  (forall a, fst (m s) = Ret a -> status a = Error) ->
  I (snd (m s)) ->
  (forall e, preserves I (critical_error E fpath e)) ->
  exists res,
    fst (try_except m (critical_error E fpath) s) = Ret res /\
    status res = Error /\
    I (snd (try_except m (critical_error E fpath) s)).
Proof.
  intros Hret HI Hc. unfold try_except.
  destruct (m s) as [[a | e] s'] eqn:Hm; simpl in *.
  - exists a. split; [reflexivity |]. split; [now apply Hret | exact HI].
  - exists (error_result (MsgCritical e)).
    split; [apply critical_error_total |].
    split; [reflexivity | now apply Hc].
Qed.

Lemma screen_wrong_dimension (E : env) index (l : list (vec * entry)) :
  Exists (fun vm => len (fst vm) <> d index) l ->
  forall acc, exists e, screen E index acc l = Raise e.
Proof.
  induction 1 as [vm t Hbad | vm t _ IH]; intros [[av am] dc];
    cbn [screen].
  - unfold screen_step, index_search.
    apply Z.eqb_neq in Hbad. unfold vec in *. rewrite Hbad. simpl. eauto.
  - destruct (screen_step E index (av, am, dc) vm) as [acc' | e]; eauto.
Qed.

Lemma exists_combine {A B} (P : A -> Prop) (l : list A) (l' : list B) :
  List.length l' = List.length l -> Exists P l ->
  Exists (fun ab => P (fst ab)) (combine l l').
Proof.
  intros Hlen Hex. revert l' Hlen.
  induction Hex as [a t Ha | a t _ IH]; intros [| b t'] Hlen;
    try discriminate; simpl.
  - now apply Exists_cons_hd.
  - apply Exists_cons_tl, IH. simpl in Hlen. congruence.
Qed.

Lemma index_add_wrong_dimension index (vs : list vec) :
  Exists (fun v : vec => len v <> d index) vs ->
  exists e, index_add index vs = Raise e.
Proof.
  intros Hex. unfold index_add. destruct vs as [| v t]; [eauto |].
  destruct (forallb (fun v0 : vec => len v0 =? d index) (v :: t)) eqn:Hall;
    [| unfold vec in *; rewrite Hall; eauto].
  exfalso. apply Exists_exists in Hex. destruct Hex as [x [Hin Hx]].
  rewrite forallb_forall in Hall. apply Hall, Z.eqb_eq in Hin. contradiction.
Qed.

Lemma insert_wrong_dimension (E : env) (s : manager)
      (index : faiss_index) (m : metadata_table)
      (vs : list vec) (ms : list entry) (fpath : string) :
  indexes s = Some index -> metadata s = Some m ->
  Exists (fun v : vec => len v <> d index) vs ->
  let run := try_except (insert_vectors E fpath vs ms)
                        (critical_error E fpath) s in
  exists res,
    fst run = Ret res /\ status res = Error /\
    same_vectors s (snd run) /\
    file_registry (snd run) = file_registry s /\
    registry_file (snd run) = registry_file s.
Proof.
  intros Hi Hm Hex run. subst run.
  set (I := fun s1 : manager =>
              (indexes s1 = indexes s /\ metadata s1 = metadata s /\
               index_file s1 = index_file s /\ meta_file s1 = meta_file s) /\
              file_registry s1 = file_registry s /\
              registry_file s1 = registry_file s).
  assert (HI : I s) by (unfold I; tauto).
  assert (Hgo : exists res,
    fst (try_except (insert_vectors E fpath vs ms)
                    (critical_error E fpath) s) = Ret res /\
    status res = Error /\
    I (snd (try_except (insert_vectors E fpath vs ms)
                       (critical_error E fpath) s))).
  { apply guarded_error; [| | intros e; unfold I; frame].
    - unfold insert_vectors. unfold bind at 1. unfold get at 1.
      rewrite Hi, Hm.
      destruct (negb (len ms =? len vs)) eqn:Hlen;
        [intros a [= <-]; reflexivity |].
      destruct (ntotal index =? 0).
      + destruct (index_add_wrong_dimension index Hex) as [e0 He0].
        unfold try_except at 1. unfold append_vectors.
        rewrite He0. unfold bind at 1. unfold lift at 1.
        intros a Ha.
        eapply (@returns_run _ _ (fun res => status res = Error));
          [apply error_event_status | exact Ha].
      + apply negb_false_iff, Z.eqb_eq in Hlen.
        assert (Hl : List.length ms = List.length vs)
          by (unfold len in Hlen; lia).
        destruct (@screen_wrong_dimension E index (combine vs ms)
                    (exists_combine _ Hl Hex) ([], [], 0)) as [e He].
        rewrite He. intros a Ha. discriminate Ha.
    - unfold insert_vectors. unfold bind at 1. unfold get at 1.
      rewrite Hi, Hm.
      destruct (negb (len ms =? len vs)) eqn:Hlen; [exact HI |].
      destruct (ntotal index =? 0).
      + destruct (index_add_wrong_dimension index Hex) as [e0 He0].
        unfold try_except at 1. unfold append_vectors.
        rewrite He0. unfold bind at 1. unfold lift at 1.
        apply run_preserves; [unfold I; frame | exact HI].
      + apply negb_false_iff, Z.eqb_eq in Hlen.
        assert (Hl : List.length ms = List.length vs)
          by (unfold len in Hlen; lia).
        destruct (@screen_wrong_dimension E index (combine vs ms)
                    (exists_combine _ Hl Hex) ([], [], 0)) as [e He].
        rewrite He. exact HI. }
  destruct Hgo as (res & H1 & H2 & H3 & H4 & H5).
  exists res. unfold same_vectors. tauto.
Qed.

(** A vector of the wrong dimension makes the whole call fail: on a
    cached collection, when one of the vectors given has not the
    dimension of the index, [add_vectors] returns an error result and
    index, metadata table and registry, cached and on disk, are as they
    were: nothing of the batch is stored. *)
Theorem add_vectors_wrong_dimension (E : env) (s : manager)
        (index : faiss_index) (m : metadata_table) (r : registry)
        (vs : list vec) (ms : list entry) (fp : option string) :
  indexes s = Some index -> metadata s = Some m -> file_registry s = Some r ->
  Exists (fun v : vec => len v <> d index) vs ->
  exists res,
    fst (add_vectors E vs ms fp s) = Ret res /\ status res = Error /\
    same_vectors s (snd (add_vectors E vs ms fp s)) /\
    file_registry (snd (add_vectors E vs ms fp s)) = Some r /\
    registry_file (snd (add_vectors E vs ms fp s)) = registry_file s.
Proof.
  intros Hi Hm Hr Hex.
  rewrite (add_vectors_loaded E s vs ms fp Hi Hm Hr).
  destruct (@insert_wrong_dimension E s index m vs ms
              (resolve_file_path E fp ms) Hi Hm Hex)
    as (res & H1 & H2 & H3 & H4 & H5).
  exists res. rewrite <- Hr. tauto.
Qed.

Lemma add_vectors_wrong_dimension_witness :
  exists res,
    fst (add_vectors env0 [v6; [1; 2]%Q] [doc "f"; doc "g"] None kb_five)
    = Ret res /\ status res = Error /\
    same_vectors kb_five
      (snd (add_vectors env0 [v6; [1; 2]%Q] [doc "f"; doc "g"] None kb_five)).
Proof.
  destruct (@add_vectors_wrong_dimension env0 kb_five
              (match indexes kb_five with
               | Some i => i
               | None => new_index IndexFlatL2 4
               end)
              (match metadata kb_five with Some m => m | None => MList [] end)
              (match file_registry kb_five with Some r => r | None => [] end)
              [v6; [1; 2]%Q] [doc "f"; doc "g"] None)
    as (res & H1 & H2 & H3 & _).
  - vm_compute. reflexivity.
  - vm_compute. reflexivity.
  - vm_compute. reflexivity.
  - apply Exists_cons_tl, Exists_cons_hd. vm_compute. discriminate.
  - exists res. split; [exact H1 |]. split; [exact H2 | exact H3].
Defined.

(* ================================================================== *)
(** ** Further properties: add_vectors when the index cannot be saved *)

Lemma save_index_unwritable (E : env) (s : manager) :
  writable E AIndex = false -> _save_index E s = (Ret false, s).
Proof.
  intros Hw. unfold _save_index, write_file. unfold_monad. rewrite Hw.
  destruct (indexes s); reflexivity.
Qed.

Lemma save_metadata_writes (E : env) (I : manager -> Prop) :
  writable E AMeta = true ->
  (forall s v, I s -> I (set_meta_file v s)) ->
  succeeds (fun s => loaded s /\ I s) (_save_metadata E)
           (fun b s => b = true /\ loaded s /\ I s /\
                       meta_file s = option_map json_metadata (metadata s)).
Proof.
  intros Hw H s [Hl Hs]. pose proof (H s) as H'.
  destruct s as [fi fm fr fh ci i md rg h].
  unfold _save_metadata, write_file. unfold_monad. simpl. rewrite Hw.
  destruct md as [md |]; [| unfold loaded in Hl; simpl in Hl; tauto].
  simpl. exists true. split; [reflexivity |]. split; [reflexivity |]. split.
  - unfold loaded in *; simpl in *; tauto.
  - split; [exact (H' (Some (json_metadata md)) Hs) | reflexivity].
Qed.

Lemma save_file_registry_writes (E : env) (I : manager -> Prop) :
  writable E ARegistry = true ->
  (forall s v, I s -> I (set_file_registry v s)) ->
  (forall s v, I s -> I (set_registry_file v s)) ->
  succeeds (fun s => loaded s /\ I s) (_save_file_registry E)
           (fun b s => b = true /\ loaded s /\ I s /\
                       registry_file s = file_registry s).
Proof.
  intros Hw H1 H2 s [Hl Hs].
  destruct s as [fi fm fr fh ci i md rg h].
  unfold _save_file_registry, write_file. unfold_monad. simpl. rewrite Hw.
  destruct rg as [rg |]; [| unfold loaded in Hl; simpl in Hl; tauto].
  assert (Hgo : forall r',
    I (mk_manager fi fm (Some r') fh ci i md (Some r') h)).
  { intros r'.
    exact (H2 (mk_manager fi fm fr fh ci i md (Some r') h) (Some r')
              (H1 _ (Some r') Hs)). }
  destruct rg as [| kv t]; simpl.
  - exists true. split; [reflexivity |]. split; [reflexivity |].
    split; [| split; [apply Hgo | reflexivity]].
    unfold loaded in *; simpl in *. intuition congruence.
  - destruct (count_files _) as [fc vc]. simpl.
    exists true. split; [reflexivity |]. split; [reflexivity |].
    split; [| split; [apply Hgo | reflexivity]].
    unfold loaded in *; simpl in *. intuition congruence.
Qed.

Section SaveFailure.
Variable E : env.
Hypothesis Hindex : writable E AIndex = false.
Hypothesis Hmeta : writable E AMeta = true.
Hypothesis Hregistry : writable E ARegistry = true.
Hypothesis Hhistory : writable E AHistory = true.

Lemma append_vectors_index_unsaved index index' vs ms fpath dups fi0 :
  index_add index vs = Ret index' ->
  succeeds (fun s => loaded s /\ registrable (basename fpath) s /\
                     index_file s = fi0)
           (append_vectors E index vs ms fpath dups)
           (fun res s => res = error_result MsgSaveFailed /\
                         indexes s = Some index' /\ index_file s = fi0 /\
                         meta_file s = option_map json_metadata (metadata s) /\
                         registry_file s = file_registry s).
Proof.
  intros Hadd. unfold append_vectors. rewrite Hadd.
  set (fname := basename fpath).
  set (P1 := fun s => loaded s /\ registrable fname s /\
                      indexes s = Some index' /\ index_file s = fi0).
  set (I2 := fun s => indexes s = Some index' /\ metadata s <> None /\
                      index_file s = fi0).
  set (P2 := fun s => file_registry s <> None /\ I2 s).
  set (I3 := fun s => indexes s = Some index' /\ index_file s = fi0).
  set (I4 := fun s => I3 s /\
                      meta_file s = option_map json_metadata (metadata s)).
  set (I5 := fun s => I4 s /\ registry_file s = file_registry s).
  apply succeeds_lift_bind.
  apply succeeds_modify_bind with (P' := P1); [unfold P1; solve_state |].
  apply succeeds_modify_bind with (P' := P1).
  { unfold P1. solve_metadata. }
  apply succeeds_get_bind. intros s0 H0.
  apply succeeds_bind with (R := fun _ s => registrable fname s /\ I2 s).
  { destruct (file_registry s0) eqn:Er.
    - apply succeeds_ret. intros s ->. unfold P1, I2, loaded in *. tauto.
    - exfalso. unfold P1, loaded in H0. tauto. }
  intros _.
  apply succeeds_bind with (R := fun _ => P2).
  { apply register_file_succeeds; [exact Hhistory | ..];
      unfold I2; solve_state. }
  intros _.
  apply succeeds_bind with (R := fun _ => P2).
  { apply succeeds_for_each. intros x. apply succeeds_modify.
    unfold P2, I2. solve_metadata. }
  intros _.
  apply succeeds_bind with (R := fun _ => P2).
  { apply update_registry_stats_succeeds. unfold I2. solve_state. }
  intros _.
  apply succeeds_bind
    with (R := fun b s => b = false /\ loaded s /\ I3 s).
  { intros s Hs. rewrite (save_index_unwritable E s Hindex). simpl.
    exists false. split; [reflexivity |].
    unfold P2, I2, I3, loaded in *. intuition congruence. }
  intros b1.
  apply succeeds_assume with (fact := b1 = false); [tauto | intros ->].
  apply succeeds_bind
    with (R := fun _ s => loaded s /\ I4 s).
  { eapply succeeds_weaken;
      [apply (@save_metadata_writes E I3 Hmeta) | |].
    - unfold I3. solve_state.
    - simpl. tauto.
    - unfold I4. simpl. tauto. }
  intros b2.
  apply succeeds_bind
    with (R := fun _ s => I5 s).
  { eapply succeeds_weaken;
      [apply (@save_file_registry_writes E I4 Hregistry) | |].
    - unfold I4, I3. solve_state.
    - unfold I4, I3. solve_state.
    - simpl. tauto.
    - unfold I5. simpl. tauto. }
  intros b3. simpl andb. simpl negb. cbv iota.
  apply succeeds_bind with (R := fun _ s => I5 s).
  { eapply succeeds_weaken;
      [apply (@record_collection_event_succeeds E I5) | |].
    - exact Hhistory.
    - unfold I5, I4, I3. solve_state.
    - unfold I5, I4, I3. solve_state.
    - simpl. tauto.
    - simpl. tauto. }
  intros _. apply succeeds_ret. unfold I5, I4, I3. intros s H. tauto.
Qed.

End SaveFailure.

(** No rollback when the index cannot be saved.  On the first insert
    into an empty cached collection, with an index file that cannot be
    written while the other files can, [add_vectors] returns the error
    that the data could not be saved, yet the vectors stay in the
    cached index and the metadata and registry files are written: the
    index file keeps its old content and no longer agrees with them. *)
Theorem add_vectors_index_unsaved (E : env) (s : manager)
        (index : faiss_index) (m : metadata_table) (r : registry)
        (vs : list vec) (ms : list entry) (fp : option string) :
  writable E AIndex = false -> writable E AMeta = true ->
  writable E ARegistry = true -> writable E AHistory = true ->
  indexes s = Some index -> metadata s = Some m -> file_registry s = Some r ->
  ntotal index = 0 ->
  List.length ms = List.length vs -> vs <> [] ->
  Forall (fun v : vec => len v = d index) vs ->
  registrable (basename (resolve_file_path E fp ms)) s ->
  let s' := snd (add_vectors E vs ms fp s) in
  fst (add_vectors E vs ms fp s) = Ret (error_result MsgSaveFailed) /\
  indexes s' = Some (mk_index (kind index) (d index) vs) /\
  index_file s' = index_file s /\
  meta_file s' = option_map json_metadata (metadata s') /\
  registry_file s' = file_registry s'.
Proof.
  intros Hwi Hwm Hwr Hwh Hi Hm Hr H0 Hlen Hne Hdim Hreg s'. subst s'.
  rewrite (add_vectors_loaded E s vs ms fp Hi Hm Hr).
  set (fpath := resolve_file_path E fp ms) in *.
  assert (Hx : xb index = []).
  { unfold ntotal, len in H0. destruct (xb index); [reflexivity | discriminate]. }
  pose proof (index_add_ret index Hne Hdim) as Hadd. rewrite Hx in Hadd.
  simpl in Hadd.
  assert (Hl : loaded s) by (unfold loaded; rewrite Hi, Hm, Hr;
                             repeat split; discriminate).
  destruct (@append_vectors_index_unsaved E Hwi Hwm Hwr Hwh index _ vs ms
              fpath None (index_file s) Hadd s
              (conj Hl (conj Hreg eq_refl)))
    as [res (Hres & -> & Hidx & Hfile & Hmeta & Hregf)].
  assert (Hins : insert_vectors E fpath vs ms s
                 = append_vectors E index vs ms fpath None s).
  { unfold insert_vectors. unfold bind at 1. unfold get at 1.
    rewrite Hi, Hm, (len_eq_length _ _ Hlen), H0. simpl.
    now apply try_except_ret with (a := error_result MsgSaveFailed). }
  assert (Hrun : try_except (insert_vectors E fpath vs ms)
                            (critical_error E fpath) s
                 = append_vectors E index vs ms fpath None s).
  { rewrite <- Hins. apply try_except_ret with (a := error_result MsgSaveFailed).
    now rewrite Hins. }
  rewrite Hrun. repeat split; assumption.
Qed.

Lemma add_vectors_index_unsaved_witness :
  let s := snd (load_collection env0 kb_created) in
  let s' := snd (add_vectors env_index_ro [v1; v2] [doc "a"; doc "b"]
                   (Some "/docs/a.txt") s) in
  fst (add_vectors env_index_ro [v1; v2] [doc "a"; doc "b"]
         (Some "/docs/a.txt") s) = Ret (error_result MsgSaveFailed) /\
  indexes s' = Some (mk_index IndexFlatL2 4 [v1; v2]) /\
  index_file s' = Some (new_index IndexFlatL2 4).
Proof.
  intros s s'.
  destruct (@add_vectors_index_unsaved env_index_ro s
              (new_index IndexFlatL2 4) (MList []) []
              [v1; v2] [doc "a"; doc "b"] (Some "/docs/a.txt")
              eq_refl eq_refl eq_refl eq_refl eq_refl eq_refl eq_refl
              eq_refl eq_refl)
    as (H1 & H2 & H3 & _).
  - discriminate.
  - repeat constructor.
  - vm_compute. exact I.
  - split; [exact H1 |]. split; [exact H2 |].
    transitivity (index_file s); [exact H3 | vm_compute; reflexivity].
Defined.

(* ================================================================== *)
(** ** Further properties: add_vectors on a collection that does not exist *)

Lemma add_vectors_fresh (E : env) (s : manager) vs ms fp :
  (forall a, writable E a = true) ->
  index_file s = None -> indexes s = None -> metadata s = None ->
  file_registry s = None ->
  add_vectors E vs ms fp s =
    try_except (insert_vectors E (resolve_file_path E fp ms) vs ms)
               (critical_error E (resolve_file_path E fp ms))
               (created_on_demand E s).
Proof.
  intros Hw Hf Hi Hm Hr.
  destruct s as [fi fm fr fh ci i md rg h]; simpl in Hf, Hi, Hm, Hr; subst.
  unfold add_vectors, collection_exists, _ensure_collection_exists,
    create_collection, attempt, _save_collection_info, write_file,
    _load_index, _load_metadata, _load_file_registry, created_on_demand.
  rewrite !Hw. unfold_monad. simpl. reflexivity.
Qed.

(** [add_vectors] creates a collection that does not exist as a flat
    collection of dimension 512, whatever the vectors are.  With every
    file writable: vectors of dimension 512 are stored; when a vector
    has another dimension the call returns an error and leaves the
    empty collection of dimension 512 behind, cached and on disk. *)
Theorem add_vectors_creates_collection (E : env) (s : manager)
        (vs : list vec) (ms : list entry) (fp : option string) :
  (forall a, writable E a = true) ->
  index_file s = None -> indexes s = None -> metadata s = None ->
  file_registry s = None ->
  let s' := snd (add_vectors E vs ms fp s) in
  (Exists (fun v : vec => len v <> 512) vs ->
   exists res,
     fst (add_vectors E vs ms fp s) = Ret res /\ status res = Error /\
     indexes s' = Some (new_index IndexFlatL2 512) /\
     index_file s' = Some (new_index IndexFlatL2 512)) /\
  (List.length ms = List.length vs -> vs <> [] ->
   Forall (fun v : vec => len v = 512) vs ->
   exists res,
     fst (add_vectors E vs ms fp s) = Ret res /\ status res = Success /\
     count res = Some (len vs) /\
     indexes s' = Some (mk_index IndexFlatL2 512 vs) /\
     index_file s' = Some (mk_index IndexFlatL2 512 vs)).
Proof.
  intros Hw Hf Hi Hm Hr s'. subst s'.
  rewrite (@add_vectors_fresh E s vs ms fp Hw Hf Hi Hm Hr).
  set (fpath := resolve_file_path E fp ms).
  split.
  - intros Hex.
    destruct (@insert_wrong_dimension E (created_on_demand E s)
                (new_index IndexFlatL2 512) (MList []) vs ms fpath
                eq_refl eq_refl Hex)
      as (res & H1 & H2 & (H3 & _ & H4 & _) & _).
    exists res. repeat split; assumption.
  - intros Hlen Hne Hdim.
    destruct (@first_insert_run E (created_on_demand E s)
                (new_index IndexFlatL2 512) (MList []) vs ms fpath
                Hw eq_refl eq_refl eq_refl Hlen Hne Hdim I)
      as (res & H1 & H2 & H3 & _ & _ & H6 & H7).
    exists res. repeat split; assumption.
Qed.

Lemma add_vectors_creates_collection_witness :
  exists res,
    fst (add_vectors env0 [v1] [doc "a"] None fresh_manager) = Ret res /\
    status res = Error /\
    indexes (snd (add_vectors env0 [v1] [doc "a"] None fresh_manager))
    = Some (new_index IndexFlatL2 512).
Proof.
  destruct (@add_vectors_creates_collection env0 fresh_manager
              [v1] [doc "a"] None (fun _ => eq_refl)
              eq_refl eq_refl eq_refl eq_refl) as [H _].
  destruct H as (res & H1 & H2 & H3 & _).
  - apply Exists_cons_hd. vm_compute. discriminate.
  - exists res. repeat split; assumption.
Defined.

(* ================================================================== *)
(** ** Further properties: search on a flat index *)

Lemma insert_hit_sorted (x : hit) (l : list hit) :
  StronglySorted closer l -> StronglySorted closer (insert_hit x l).
Proof.
  induction l as [| a t IH]; intros Hs; simpl.
  - constructor; constructor.
  - inversion Hs as [| ? ? Ht Ha]. subst.
    destruct (Qle_bool (snd x) (snd a)) eqn:Hle.
    + apply Qle_bool_iff in Hle. constructor; [exact Hs |].
      constructor; [exact Hle |].
      eapply Forall_impl; [| exact Ha].
      intros b Hb. unfold closer in *. eapply Qle_trans; eauto.
    + constructor; [apply IH, Ht |].
      apply Forall_forall. intros b Hb. apply in_insert_hit in Hb.
      destruct Hb as [-> | Hb].
      * unfold closer. apply Qlt_le_weak, Qnot_le_lt. intros H.
        apply Qle_bool_iff in H. congruence.
      * rewrite Forall_forall in Ha. now apply Ha.
Qed.

Lemma sort_hits_sorted (l : list hit) : StronglySorted closer (sort_hits l).
Proof.
  induction l as [| x t IH].
  - constructor.
  - change (sort_hits (x :: t)) with (insert_hit x (sort_hits t)).
    now apply insert_hit_sorted.
Qed.

Lemma firstn_sorted {A} (R : A -> A -> Prop) (l : list A) :
  StronglySorted R l -> forall n, StronglySorted R (firstn n l).
Proof.
  induction 1 as [| a t Ht IH Ha]; intros [| n]; simpl; try constructor.
  - apply IH.
  - apply Forall_forall. intros b Hb. rewrite Forall_forall in Ha.
    apply Ha. eapply in_firstn, Hb.
Qed.

Lemma map_sorted {A B} (R : A -> A -> Prop) (R' : B -> B -> Prop)
      (f : A -> B) (l : list A) :
  (forall a b, R a b -> R' (f a) (f b)) ->
  StronglySorted R l -> StronglySorted R' (map f l).
Proof.
  intros Hf. induction 1 as [| a t Ht IH Ha]; simpl; constructor.
  - exact IH.
  - apply Forall_forall. intros b Hb. apply in_map_iff in Hb.
    destruct Hb as [x [<- Hx]]. rewrite Forall_forall in Ha. auto.
Qed.

Lemma similarity_monotone (a b : Q) :
  (a <= b)%Q -> (similarity b <= similarity a)%R.
Proof.
  intros H. unfold similarity. apply Qle_Rle in H.
  destruct (Rle_lt_or_eq_dec _ _ H) as [Hlt | Heq].
  - left. apply exp_increasing. lra.
  - right. now rewrite Heq.
Qed.

Lemma similarity_zero (a : Q) : (a == 0)%Q -> similarity a = 1%R.
Proof.
  intros H. unfold similarity. rewrite (Qeq_eqR _ _ H).
  replace (- Q2R 0)%R with 0%R by (unfold Q2R; simpl; lra).
  apply exp_0.
Qed.

Lemma map_fst_insert_hit (x : hit) (l : list hit) :
  NoDup (map fst l) -> ~ In (fst x) (map fst l) ->
  NoDup (map fst (insert_hit x l)).
Proof.
  induction l as [| a t IH]; intros Hnd Hx; simpl.
  - constructor; [tauto | constructor].
  - destruct (Qle_bool (snd x) (snd a)).
    + simpl. constructor; assumption.
    + simpl in *. inversion Hnd as [| ? ? Ha Ht]. subst.
      constructor.
      * intros Hin. apply in_map_iff in Hin. destruct Hin as [h [Hh Hin]].
        apply in_insert_hit in Hin. destruct Hin as [-> | Hin].
        -- apply Hx. now left.
        -- apply Ha. rewrite <- Hh. now apply in_map.
      * apply IH; [assumption | intros H; apply Hx; now right].
Qed.

Lemma map_fst_sort_hits (l : list hit) :
  NoDup (map fst l) -> NoDup (map fst (sort_hits l)).
Proof.
  induction l as [| x t IH]; intros Hnd.
  - constructor.
  - change (sort_hits (x :: t)) with (insert_hit x (sort_hits t)).
    simpl in Hnd. inversion Hnd as [| ? ? Hx Ht]. subst.
    apply map_fst_insert_hit; [now apply IH |].
    intros Hin. apply Hx. apply in_map_iff in Hin.
    destruct Hin as [h [Hh Hin]]. apply (proj1 (in_sort_hits h t)) in Hin.
    rewrite <- Hh. now apply in_map.
Qed.

Lemma nodup_map_injective {A B} (f : A -> B) (l : list A) :
  (forall a b, f a = f b -> a = b) -> NoDup l -> NoDup (map f l).
Proof.
  intros Hf. induction 1 as [| a t Ha Ht IH]; simpl; constructor.
  - intros Hin. apply in_map_iff in Hin. destruct Hin as [b [Hb Hin]].
    apply Hf in Hb. subst b. contradiction.
  - exact IH.
Qed.

Lemma nodup_firstn {A} (l : list A) :
  NoDup l -> forall n, NoDup (firstn n l).
Proof.
  induction 1 as [| a t Ha Ht IH]; intros [| n]; simpl; try constructor.
  - intros Hin. apply Ha. eapply in_firstn, Hin.
  - apply IH.
Qed.

Lemma score_ids_flat (xs : list vec) (q : vec) (h : hit) :
  In h (score_ids xs q (seq 0 (List.length xs))) ->
  0 <= fst h < len xs /\ snd h = l2sqr q (nth (Z.to_nat (fst h)) xs []).
Proof.
  unfold score_ids. intros Hin. apply in_map_iff in Hin.
  destruct Hin as [i [<- Hi]]. apply in_seq in Hi. simpl.
  rewrite Nat2Z.id. unfold len. split; [lia | reflexivity].
Qed.

(** Search on a flat index ranks all stored vectors.  On a cached,
    non-empty flat collection, for a query of the index dimension and
    [top_k >= 1], [search] returns exactly [min(top_k, ntotal)] results
    with distinct ids of the index, each score being
    [exp(-distance)] of the squared distance between the query and the
    stored vector of that id, in order of non-increasing score; when
    the query is one of the stored vectors the first score is 1. *)
Theorem search_flat_ranks (E : env) (s : manager) (index : faiss_index)
        (m : metadata_table) (q : vec) (top_k : Z) :
  indexes s = Some index -> metadata s = Some m ->
  kind index = IndexFlatL2 -> ntotal index <> 0 ->
  len q = d index -> 1 <= top_k ->
  exists ids metas,
    search E q top_k s
    = (Ret (ids,
            map (fun i => similarity (l2sqr q (nth (Z.to_nat i) (xb index) [])))
                ids,
            metas), s) /\
    List.length ids = Z.to_nat (Z.min top_k (ntotal index)) /\
    NoDup ids /\
    (forall i, In i ids -> 0 <= i < ntotal index) /\
    StronglySorted (fun a b => (b <= a)%R)
      (map (fun i => similarity (l2sqr q (nth (Z.to_nat i) (xb index) [])))
           ids) /\
    (In q (xb index) ->
     exists i rest,
       ids = i :: rest /\
       similarity (l2sqr q (nth (Z.to_nat i) (xb index) [])) = 1%R).
Proof.
  intros Hi Hm Hk Hne Hd Hk1.
  rewrite (search_unfold E s q top_k Hi Hm).
  unfold search_answer.
  destruct (ntotal index =? 0) eqn:H0; [apply Z.eqb_eq in H0; contradiction |].
  rewrite <- Hd, Z.eqb_refl. simpl negb. cbv iota.
  unfold index_search, candidates. rewrite Hd, Z.eqb_refl, Hk.
  simpl negb. cbv iota.
  set (k := Z.min top_k (ntotal index)).
  assert (Hkpos : 1 <= k <= ntotal index).
  { unfold k. assert (0 <= ntotal index) by (unfold ntotal, len; lia). lia. }
  destruct (k <=? 0) eqn:Hk0; [apply Z.leb_le in Hk0; lia |].
  set (S0 := score_ids (xb index) q (seq 0 (List.length (xb index)))).
  set (L := sort_hits S0).
  assert (HL : List.length L = List.length (xb index)).
  { unfold L, S0, score_ids. now rewrite length_sort_hits, length_map, length_seq. }
  assert (Hin : forall h, In h L ->
            0 <= fst h < ntotal index /\
            snd h = l2sqr q (nth (Z.to_nat (fst h)) (xb index) [])).
  { intros h Hh. apply (proj1 (in_sort_hits h S0)) in Hh.
    now apply score_ids_flat. }
  assert (Hpad : pad_hits (Z.to_nat k) L = firstn (Z.to_nat k) L).
  { unfold pad_hits. rewrite firstn_length_le.
    - rewrite Nat.sub_diag. simpl. apply app_nil_r.
    - rewrite HL. unfold ntotal, len in Hkpos. lia. }
  rewrite Hpad.
  set (F := firstn (Z.to_nat k) L).
  assert (HF : forall h, In h F -> In h L) by (intros h; apply in_firstn).
  assert (Hfilter : filter (fun h : Z * Q => negb (fst h =? -1)) F = F).
  { apply forallb_filter_id. apply forallb_forall. intros h Hh.
    apply negb_true_iff, Z.eqb_neq. destruct (Hin h (HF h Hh)). lia. }
  rewrite Hfilter.
  assert (HlenF : List.length F = Z.to_nat k).
  { unfold F. apply firstn_length_le. rewrite HL.
    unfold ntotal, len in Hkpos. lia. }
  assert (Hdists : map snd F
                   = map (fun i => l2sqr q (nth (Z.to_nat i) (xb index) []))
                         (map fst F)).
  { rewrite map_map. apply map_ext_in. intros h Hh.
    now destruct (Hin h (HF h Hh)). }
  assert (Hsorted : StronglySorted closer F)
    by (apply firstn_sorted, sort_hits_sorted).
  assert (Hnodup : NoDup (map fst F)).
  { unfold F. rewrite <- firstn_map. apply nodup_firstn.
    apply map_fst_sort_hits. unfold S0, score_ids. rewrite map_map. simpl.
    apply nodup_map_injective; [intros a b; apply Nat2Z.inj |].
    apply seq_NoDup. }
  assert (Hhead : forall h0 F', F = h0 :: F' -> exists t, L = h0 :: t).
  { unfold F. intros h0 F' HFeq.
    destruct L as [| a t]; [now destruct (Z.to_nat k) |].
    destruct (Z.to_nat k); [discriminate |]. simpl in HFeq.
    injection HFeq as -> _. now exists t. }
  clearbody F.
  destruct F as [| h0 F']; [simpl in HlenF; lia |]. cbn [fst snd].
  set (F := h0 :: F') in *.
  exists (map fst F), (map (lookup_metadata m) (map fst F)).
  split.
  { apply f_equal2; [| reflexivity]. apply f_equal.
    apply f_equal2; [| reflexivity]. apply f_equal2; [reflexivity |].
    rewrite !map_map. apply map_ext_in. intros h Hh. f_equal.
    now destruct (Hin h (HF h Hh)). }
  split; [now rewrite length_map |].
  split; [exact Hnodup |].
  split.
  { intros i Hi'. apply in_map_iff in Hi'. destruct Hi' as [h [<- Hh]].
    now destruct (Hin h (HF h Hh)). }
  split.
  { rewrite <- (map_map (fun i => l2sqr q (nth (Z.to_nat i) (xb index) []))
                        similarity), <- Hdists, map_map.
    eapply map_sorted; [| exact Hsorted].
    intros a b Hab. now apply similarity_monotone. }
  intros Hq. exists (fst h0), (map fst F').
  split; [reflexivity |].
  apply similarity_zero.
  assert (Hh0 : In h0 L) by (apply HF; now left).
  destruct (Hin h0 Hh0) as [_ <-].
  destruct (in_score_ids_nth (xb index) q q Hq) as [j Hj].
  fold S0 in Hj.
  destruct (Hhead h0 F' eq_refl) as [t Ht].
  pose proof (sort_hits_head_min S0 Ht _ Hj) as Hmin. simpl in Hmin.
  rewrite l2sqr_self in Hmin.
  apply Qle_antisym; [exact Hmin |].
  apply (proj1 (in_sort_hits h0 S0)) in Hh0.
  destruct (in_score_ids _ _ _ _ Hh0). assumption.
Qed.

Lemma search_flat_ranks_witness :
  exists ids scores metas,
    search env0 v3 2 kb_five = (Ret (ids, scores, metas), kb_five) /\
    List.length ids = 2%nat /\ exists rest, scores = 1%R :: rest.
Proof.
  destruct (@search_flat_ranks env0 kb_five
              (mk_index IndexFlatL2 4 [v1; v2; v3; v4; v5])
              (match metadata kb_five with Some m => m | None => MList [] end)
              v3 2)
    as (ids & metas & H1 & H2 & _ & _ & _ & H6);
    try (vm_compute; reflexivity).
  - vm_compute. discriminate.
  - lia.
  - destruct H6 as (i & rest & -> & Hone).
    { simpl. right. right. left. reflexivity. }
    eexists. eexists. exists metas.
    split; [exact H1 |]. split; [exact H2 |].
    rewrite map_cons, Hone. eexists. reflexivity.
Defined.

(* ================================================================== *)
(** ** Further properties: collections_info *)

Lemma insert_vectors_keeps_info (E : env) fpath vs ms :
  keeps collections_info (insert_vectors E fpath vs ms).
Proof. intros x. unfold insert_vectors, append_vectors. frame. Qed.

Lemma critical_error_keeps_info (E : env) fpath e :
  keeps collections_info (critical_error E fpath e).
Proof. intros x. frame. Qed.

Lemma delete_vectors_keeps_info (E : env) ids :
  keeps collections_info (delete_vectors E ids).
Proof.
  intros x.
  unfold delete_vectors, collection_exists, _load_index, _load_metadata,
    _load_file_registry, _load_file_history, prune_file, prune_version.
  frame.
Qed.

Lemma add_vectors_keeps_info (E : env) vs ms fp (s : manager) :
  loaded s ->
  collections_info (snd (add_vectors E vs ms fp s)) = collections_info s.
Proof.
  intros [Hi [Hm Hr]].
  destruct (indexes s) as [index |] eqn:Ei; [| congruence].
  destruct (metadata s) as [m |] eqn:Em; [| congruence].
  destruct (file_registry s) as [r |] eqn:Er; [| congruence].
  rewrite (add_vectors_loaded E s vs ms fp Ei Em Er).
  rewrite try_except_keeps by (intros e; apply critical_error_keeps_info).
  apply keeps_run, insert_vectors_keeps_info.
Qed.

Lemma update_collection_stats_noop (E : env) (s : manager) :
  collections_info (snd (_update_collection_stats E None None s))
  = collections_info s.
Proof.
  destruct s as [fi fm fr fh ci i md rg h].
  unfold _update_collection_stats, write_file. unfold_monad. simpl.
  destruct ci as [[n dm ty cr vc fc] |]; [| reflexivity].
  destruct (writable E AInfo); reflexivity.
Qed.

Lemma delete_file_keeps_info (E : env) fname (s : manager) :
  loaded s ->
  collections_info (snd (delete_file E fname s)) = collections_info s.
Proof.
  intros [Hi [Hm Hr]].
  destruct (indexes s) as [index |] eqn:Ei; [| congruence].
  destruct (metadata s) as [m |] eqn:Em; [| congruence].
  destruct (file_registry s) as [r |] eqn:Er; [| congruence].
  destruct (reg_get r fname) as [[f | x | x] |] eqn:Hg.
  - rewrite (@delete_file_known E s index m r f fname Ei Em Er Hg).
    apply (@try_run _ (fun s1 => collections_info s1 = collections_info s));
      [| intros e; frame].
    rewrite run_modify_bind. cbv beta.
    apply run_preserves; [| destruct s; reflexivity].
    apply preserves_bind; [frame | intros _].
    apply preserves_bind; [frame | intros _].
    apply preserves_bind; [| intros _; frame].
    intros s1 H1. now rewrite update_collection_stats_noop.
  - destruct s as [fi fm fr fh ci i md rg h]; simpl in Ei, Em, Er; subst.
    unfold delete_file, _ensure_collection_exists, collection_exists.
    unfold_monad. simpl. rewrite Hg. reflexivity.
  - destruct s as [fi fm fr fh ci i md rg h]; simpl in Ei, Em, Er; subst.
    unfold delete_file, _ensure_collection_exists, collection_exists.
    unfold_monad. simpl. rewrite Hg. reflexivity.
  - destruct s as [fi fm fr fh ci i md rg h]; simpl in Ei, Em, Er; subst.
    unfold delete_file, _ensure_collection_exists, collection_exists.
    unfold_monad. simpl. rewrite Hg. reflexivity.
Qed.

Lemma replace_file_keeps_info (E : env) fpath vs ms (s : manager) :
  loaded s ->
  collections_info (snd (replace_file E fpath vs ms s)) = collections_info s.
Proof.
  intros Hl. pose proof Hl as [Hi [Hm Hr]].
  destruct (indexes s) as [index |] eqn:Ei; [| congruence].
  destruct (metadata s) as [m |] eqn:Em; [| congruence].
  destruct (file_registry s) as [r |] eqn:Er; [| congruence].
  assert (Hadd : forall s1, loaded s1 ->
            collections_info s1 = collections_info s ->
            collections_info
              (snd (match add_vectors E vs ms (Some fpath) s1 with
                    | (Ret res, s2) => (Ret (RDict res), s2)
                    | (Raise _, s2) => (Ret RFalse, s2)
                    end)) = collections_info s).
  { intros s1 Hl1 H1.
    pose proof (@add_vectors_keeps_info E vs ms (Some fpath) s1 Hl1) as Hk.
    destruct (add_vectors E vs ms (Some fpath) s1) as [[res | e] s2];
      simpl in *; congruence. }
  destruct (reg_get r (basename fpath)) as [[f | x | x] |] eqn:Hg.
  - rewrite (@replace_file_unfold E s index m r f fpath vs ms Ei Em Er Hg).
    destruct (find (fun v => v_version v =? current_version f) (versions f))
      as [cv |].
    + pose proof (@preserves_delete_vectors_loaded E (v_vector_ids cv) s Hl)
        as Hl1.
      pose proof (@keeps_run _ _ _ collections_info
                    (delete_vectors E (v_vector_ids cv)) s
                    (@delete_vectors_keeps_info E (v_vector_ids cv))) as Hk.
      destruct (delete_vectors E (v_vector_ids cv) s) as [[b | e] s1];
        simpl in *; [now apply Hadd | exact Hk].
    + apply Hadd; [| reflexivity].
      unfold loaded. rewrite Ei, Em, Er. repeat split; discriminate.
  - destruct s as [fi fm fr fh ci i md rg h]; simpl in Ei, Em, Er; subst.
    unfold replace_file, collection_exists. unfold_monad. simpl.
    rewrite Hg. reflexivity.
  - destruct s as [fi fm fr fh ci i md rg h]; simpl in Ei, Em, Er; subst.
    unfold replace_file, collection_exists. unfold_monad. simpl.
    rewrite Hg. reflexivity.
  - destruct s as [fi fm fr fh ci i md rg h]; simpl in Ei, Em, Er; subst.
    set (s0 := mk_manager fi fm fr fh ci (Some index) (Some m) (Some r) h).
    specialize (Hadd s0 Hl eq_refl).
    unfold replace_file, collection_exists. unfold_monad. simpl.
    rewrite Hg. fold s0.
    destruct (add_vectors E vs ms (Some fpath) s0) as [[res | e] s2];
      exact Hadd.
Qed.

(** The mutating operations do not refresh the statistics in
    [collections_info.json].  On a cached collection, [add_vectors],
    [delete_vectors], [replace_file] and [delete_file] leave the entry
    of the collection in that file as it is, so its [vectors_count] and
    [files_count] keep their values whatever is stored or removed
    ([delete_file] rewrites the file with the same values). *)
Theorem mutations_keep_collection_stats (E : env) (s : manager)
        (vs : list vec) (ms : list entry) (fp : option string)
        (fpath fname : string) (ids : list Z) :
  loaded s ->
  collections_info (snd (add_vectors E vs ms fp s)) = collections_info s /\
  collections_info (snd (delete_vectors E ids s)) = collections_info s /\
  collections_info (snd (replace_file E fpath vs ms s)) = collections_info s /\
  collections_info (snd (delete_file E fname s)) = collections_info s.
Proof.
  intros Hl.
  split; [now apply add_vectors_keeps_info |].
  split; [apply keeps_run, delete_vectors_keeps_info |].
  split; [now apply replace_file_keeps_info |].
  now apply delete_file_keeps_info.
Qed.

Lemma mutations_keep_collection_stats_witness :
  option_map vectors_count
    (collections_info
       (snd (add_vectors env0 [v6] [doc "f"] (Some "/docs/b.txt") kb_five)))
  = Some 0 /\
  option_map ntotal
    (indexes
       (snd (add_vectors env0 [v6] [doc "f"] (Some "/docs/b.txt") kb_five)))
  = Some 6.
Proof.
  destruct (@mutations_keep_collection_stats env0 kb_five [v6] [doc "f"]
              (Some "/docs/b.txt") "/docs/b.txt" "a.txt" [0]) as [H _].
  - vm_compute. repeat split; discriminate.
  - split; [rewrite H; vm_compute; reflexivity | vm_compute; reflexivity].
Defined.

(* ================================================================== *)
(** ** Further properties: the counts of files *)

Lemma get_collection_info_loaded (E : env) (s : manager) index r :
  indexes s = Some index -> file_registry s = Some r ->
  get_collection_info E s
  = (Ret (InfoOk {| cs_name := collection_name E;
                    cs_vector_count := ntotal index;
                    cs_dimension := d index;
                    cs_index_type := kind index;
                    cs_file_count := len r |}), s).
Proof.
  intros Hi Hr. destruct s as [fi fm fr fh ci i md rg h].
  simpl in Hi, Hr. subst.
  unfold get_collection_info, collection_exists. unfold_monad. reflexivity.
Qed.

Lemma count_files_listed getsize (r : registry) :
  fst (count_files r) = len (flat_map (list_item getsize) r).
Proof.
  induction r as [| [k v] t IH]; [reflexivity |].
  change (flat_map (list_item getsize) ((k, v) :: t))
    with (list_item getsize (k, v) ++ flat_map (list_item getsize) t).
  simpl count_files. destruct (count_files t) as [fc vc]. simpl in IH.
  set (L := flat_map (list_item getsize) t) in *.
  unfold list_item. cbn [fst snd]. unfold len in *. rewrite length_app.
  destruct v as [f | x | x]; destruct (startswith_underscore k); simpl;
    lia.
Qed.

Lemma listed_reg_set getsize (r : registry) k v :
  startswith_underscore k = true ->
  flat_map (list_item getsize) (reg_set r k v)
  = flat_map (list_item getsize) r.
Proof.
  intros Hk. unfold reg_set. induction r as [| [k' v'] t IH]; simpl.
  - unfold list_item. simpl. now rewrite Hk.
  - destruct (String.eqb k k') eqn:He; simpl.
    + apply String.eqb_eq in He. subst k'.
      unfold list_item. simpl. now rewrite Hk.
    + now rewrite IH.
Qed.

Lemma listed_length getsize (r : registry) :
  (List.length (flat_map (list_item getsize) r)
   + List.length (filter (fun kv => startswith_underscore (fst kv)) r)
   <= List.length r)%nat.
Proof.
  induction r as [| [k v] t IH]; [simpl; lia |].
  change (flat_map (list_item getsize) ((k, v) :: t))
    with (list_item getsize (k, v) ++ flat_map (list_item getsize) t).
  set (L := flat_map (list_item getsize) t) in *.
  rewrite length_app. unfold list_item. cbn [fst snd filter].
  destruct (startswith_underscore k); simpl; [lia |].
  destruct v; simpl; lia.
Qed.

Lemma three_underscore_keys (r : registry) k1 k2 k3 v1 v2 v3 :
  reg_get r k1 = Some v1 -> reg_get r k2 = Some v2 -> reg_get r k3 = Some v3 ->
  k1 <> k2 -> k1 <> k3 -> k2 <> k3 ->
  startswith_underscore k1 = true -> startswith_underscore k2 = true ->
  startswith_underscore k3 = true ->
  (3 <= List.length (filter (fun kv => startswith_underscore (fst kv)) r))%nat.
Proof.
  intros H1 H2 H3 N12 N13 N23 U1 U2 U3.
  apply reg_get_in in H1, H2, H3.
  change 3%nat with (List.length [(k1, v1); (k2, v2); (k3, v3)]).
  apply NoDup_incl_length.
  - repeat constructor; simpl; intuition congruence.
  - intros x [<- | [<- | [<- | []]]]; apply filter_In; auto.
Qed.

(** The three counts of files.  After [_save_file_registry] on a cached
    collection with a non-empty registry, the field [_file_count] of
    the registry is the number of files that [list_files] returns,
    while the [file_count] of [get_collection_info] is the number of
    keys of the registry and exceeds it by at least the three
    aggregate fields. *)
Theorem file_counts_after_save (E : env) getsize (s : manager)
        (index : faiss_index) (r : registry) :
  indexes s = Some index -> file_registry s = Some r -> r <> [] ->
  let s' := snd (_save_file_registry E s) in
  exists r' files info,
    file_registry s' = Some r' /\
    list_files getsize s' = (Ret files, s') /\
    get_collection_info E s' = (Ret (InfoOk info), s') /\
    reg_get r' "_file_count" = Some (RInt (len files)) /\
    cs_file_count info = len r' /\
    len files + 3 <= cs_file_count info.
Proof.
  intros Hi Hr Hne s'.
  set (r1 := reg_set r "_last_updated" (RStr (now E))).
  set (r' := reg_set (reg_set r1 "_file_count" (RInt (fst (count_files r1))))
                     "_vector_count" (RInt (snd (count_files r1)))).
  assert (Hs' : file_registry s' = Some r' /\ indexes s' = Some index).
  { subst s'. destruct s as [fi fm fr fh ci i md rg h].
    simpl in Hi, Hr. subst.
    unfold _save_file_registry, write_file. unfold_monad. simpl.
    destruct r as [| kv t]; [congruence |].
    fold r1. unfold r'. destruct (count_files r1) as [fc vc]. simpl.
    destruct (writable E ARegistry); simpl; split; reflexivity. }
  destruct Hs' as [Hr' Hi'].
  assert (Hlisted : flat_map (list_item getsize) r'
                    = flat_map (list_item getsize) r1).
  { unfold r'. now rewrite !listed_reg_set by reflexivity. }
  exists r', (flat_map (list_item getsize) r').
  eexists.
  split; [exact Hr' |].
  split; [apply (list_files_loaded getsize s' Hi' Hr') |].
  split; [apply (get_collection_info_loaded E s' Hi' Hr') |].
  split.
  { unfold r' at 1. rewrite reg_get_set_other by reflexivity.
    rewrite reg_get_set_same, Hlisted.
    now rewrite (count_files_listed getsize r1). }
  split; [reflexivity |].
  simpl cs_file_count.
  pose proof (listed_length getsize r') as Hlen.
  assert (H3 : (3 <= List.length
                  (filter (fun kv => startswith_underscore (fst kv)) r'))%nat).
  { apply three_underscore_keys
      with (k1 := "_last_updated") (k2 := "_file_count")
           (k3 := "_vector_count")
           (v1 := RStr (now E))
           (v2 := RInt (fst (count_files r1)))
           (v3 := RInt (snd (count_files r1)));
      try reflexivity; try discriminate.
    - unfold r'. rewrite !reg_get_set_other by reflexivity.
      apply reg_get_set_same.
    - unfold r'. rewrite reg_get_set_other by reflexivity.
      apply reg_get_set_same.
    - apply reg_get_set_same. }
  unfold len. lia.
Qed.

Lemma file_counts_after_save_witness :
  exists r' files info,
    file_registry (snd (_save_file_registry env0 kb_two_files)) = Some r' /\
    list_files (fun _ => None) (snd (_save_file_registry env0 kb_two_files))
    = (Ret files, snd (_save_file_registry env0 kb_two_files)) /\
    get_collection_info env0 (snd (_save_file_registry env0 kb_two_files))
    = (Ret (InfoOk info), snd (_save_file_registry env0 kb_two_files)) /\
    reg_get r' "_file_count" = Some (RInt (len files)) /\
    len files + 3 <= cs_file_count info.
Proof.
  destruct (@file_counts_after_save env0 (fun _ => None) kb_two_files
              (match indexes kb_two_files with
               | Some i => i
               | None => new_index IndexFlatL2 4
               end)
              (match file_registry kb_two_files with
               | Some r => r
               | None => []
               end))
    as (r' & files & info & H1 & H2 & H3 & H4 & _ & H6).
  - vm_compute. reflexivity.
  - vm_compute. reflexivity.
  - vm_compute. discriminate.
  - exists r', files, info. repeat split; assumption.
Defined.
